(** * convert_kmz_to_lots: KMZ archive to lots.json

    A shallow embedding of [scripts/convert_kmz_to_lots.py] and the
    properties of its extraction, assembly and statistics stages.

    Conventions of the embedding
    - Python [str] is [string]; the characters are taken in the ASCII range.
    - Python [float] is IEEE-754 binary64 with round-to-nearest-even,
      modelled by its exact rational value (type [float] below): every
      operation computes the exact result in [Q] and rounds it once.
    - A raised exception is the [Raise] constructor of [result].
    - A [dict] is an association list in insertion order.
    - [print] calls are not modelled. *)

From Stdlib Require Import ZArith QArith Qabs Qround Qpower Qreduction.
From Stdlib Require Import List String Ascii Bool Lia Lqa Permutation.
From Stdlib Require Import DecimalString Decimal DecimalNat.
Import ListNotations.

Local Open Scope string_scope.
Local Open Scope Z_scope.

(* ================================================================== *)
(** * Exceptions *)

(** The exceptions the script can raise. *)
Inductive exn : Type :=
| ValueError (msg : string)          (* raise ValueError(msg) *)
| FloatValueError (literal : string) (* ValueError raised by float(literal) *)
| UnicodeDecodeError                 (* bytes.decode('utf-8') *)
| ZipReadError (name : string)       (* ZipFile.read *)
| ParseError.                        (* ET.fromstring *)

Inductive result (A : Type) : Type :=
| Ok (a : A)
| Raise (e : exn).
Arguments Ok {A} a.
Arguments Raise {A} e.

Definition bind {A B} (r : result A) (k : A -> result B) : result B :=
  match r with
  | Ok a => k a
  | Raise e => Raise e
  end.

Notation "x <- r ;; k" := (bind r (fun x => k))
  (at level 61, r at next level, right associativity).

(* ================================================================== *)
(** * binary64 floating point *)

(** A binary64 value.  [Fin q] carries a non-zero finite value as a
    rational in lowest terms. *)
Inductive float : Type :=
| NaN
| Inf (neg : bool)
| Zero (neg : bool)
| Fin (q : Q).

Definition two : Q := 2 # 1.

(** [2 ^ e] for an integer exponent. *)
Definition pow2 (e : Z) : Q := (two ^ e)%Q.

Definition Qneg (q : Q) : bool := (Qnum q <? 0)%Z.

(** [ilog2 q] is the binary exponent of a non-zero [q]:
    [2 ^ ilog2 q <= |q| < 2 ^ (ilog2 q + 1)]. *)
Definition ilog2 (q : Q) : Z :=
  let k := Z.log2 (Z.abs (Qnum q)) - Z.log2 (Zpos (Qden q)) in
  if Qle_bool (pow2 k) (Qabs q) then k else k - 1.

(** Nearest integer, ties to even. *)
Definition rne (q : Q) : Z :=
  let f := Qfloor q in
  match (q - inject_Z f ?= 1 # 2)%Q with
  | Lt => f
  | Gt => f + 1
  | Eq => if Z.even f then f else f + 1
  end.

(** The quantum of the binary64 format at [q]: 53 significant bits,
    least exponent -1074. *)
Definition ulp_exp (q : Q) : Z := Z.max (ilog2 q - 52) (-1074).

(** Rounding of an exact non-zero result to binary64. *)
Definition round64 (q : Q) : float :=
  let u := ulp_exp q in
  let m := rne (q / pow2 u) in
  let v := (inject_Z m * pow2 u)%Q in
  if (m =? 0)%Z then Zero (Qneg q)
  else if Qle_bool (pow2 1024) (Qabs v) then Inf (Qneg q)
  else Fin (Qred v).

Definition is_zeroQ (q : Q) : bool := (Qnum q =? 0)%Z.

Definition fneg (x : float) : float :=
  match x with
  | NaN => NaN
  | Inf s => Inf (negb s)
  | Zero s => Zero (negb s)
  | Fin q => Fin (Qred (- q))
  end.

Definition sign_of (x : float) : bool :=
  match x with
  | NaN => false
  | Inf s | Zero s => s
  | Fin q => Qneg q
  end.

(** [x + y] *)
Definition fadd (x y : float) : float :=
  match x, y with
  | NaN, _ | _, NaN => NaN
  | Inf s, Inf s' => if Bool.eqb s s' then Inf s else NaN
  | Inf s, _ | _, Inf s => Inf s
  | Zero s, Zero s' => Zero (s && s')
  | Zero _, Fin q | Fin q, Zero _ => Fin q
  | Fin a, Fin b =>
      let r := (a + b)%Q in
      if is_zeroQ r then Zero false else round64 r
  end.

(** [x - y] *)
Definition fsub (x y : float) : float := fadd x (fneg y).

(** [x * y] *)
Definition fmul (x y : float) : float :=
  match x, y with
  | NaN, _ | _, NaN => NaN
  | Inf _, Zero _ | Zero _, Inf _ => NaN
  | Inf s, z | z, Inf s => Inf (xorb s (sign_of z))
  | Zero s, z | z, Zero s => Zero (xorb s (sign_of z))
  | Fin a, Fin b => round64 (a * b)
  end.

(** [x / y] for a non-zero divisor (Python raises ZeroDivisionError on a
    zero divisor; the IEEE result is given here). *)
Definition fdiv (x y : float) : float :=
  match x, y with
  | NaN, _ | _, NaN => NaN
  | Inf _, Inf _ => NaN
  | Inf s, z => Inf (xorb s (sign_of z))
  | z, Inf s => Zero (xorb (sign_of z) s)
  | Zero _, Zero _ => NaN
  | Zero s, Fin b => Zero (xorb s (Qneg b))
  | Fin a, Zero s => Inf (xorb (Qneg a) s)
  | Fin a, Fin b => round64 (a / b)
  end.

(** Conversion of a Python [int] in a mixed expression. *)
Definition of_int (z : Z) : float :=
  if (z =? 0)%Z then Zero false else round64 (inject_Z z).

(** The real value of a finite float (0 for the others). *)
Definition F2Q (x : float) : Q :=
  match x with
  | Fin q => q
  | _ => 0%Q
  end.

Definition is_finite (x : float) : bool :=
  match x with
  | Fin _ | Zero _ => true
  | _ => false
  end.

(** [x < y] *)
Definition flt (x y : float) : bool :=
  match x, y with
  | NaN, _ | _, NaN => false
  | Inf s, Inf s' => s && negb s'
  | Inf s, _ => s
  | _, Inf s => negb s
  | _, _ => match (F2Q x ?= F2Q y)%Q with Lt => true | _ => false end
  end.

(** [x > y] *)
Definition fgt (x y : float) : bool := flt y x.

(** [round(x, ndigits)] for a float [x] and a small non-negative
    [ndigits]: the float nearest to the decimal rounding (ties to even, on
    the exact value) of [x]. *)
Definition py_round (x : float) (ndigits : Z) : float :=
  match x with
  | Fin q =>
      let s := inject_Z (10 ^ ndigits) in
      let k := rne (q * s) in
      if (k =? 0)%Z then Zero (Qneg q) else round64 (inject_Z k / s)
  | _ => x
  end.

(* ================================================================== *)
(** * Strings *)

Definition str_eqb (a b : string) : bool := String.eqb a b.

Definition is_empty (s : string) : bool :=
  match s with
  | EmptyString => true
  | _ => false
  end.

(** [str.isspace] on the ASCII range: TAB, LF, VT, FF, CR, FS, GS, RS, US
    and the space. *)
Definition is_space (c : ascii) : bool :=
  let n := nat_of_ascii c in
  ((9 <=? n) && (n <=? 13) || (28 <=? n) && (n <=? 32))%nat.

Definition is_digit (c : ascii) : bool :=
  let n := nat_of_ascii c in
  ((48 <=? n) && (n <=? 57))%nat.

Fixpoint lstrip (s : string) : string :=
  match s with
  | EmptyString => EmptyString
  | String c r => if is_space c then lstrip r else s
  end.

Fixpoint rstrip (s : string) : string :=
  match s with
  | EmptyString => EmptyString
  | String c r =>
      let r' := rstrip r in
      if is_empty r' && is_space c then EmptyString else String c r'
  end.

(** [s.strip()] *)
Definition strip (s : string) : string := rstrip (lstrip s).

(** The loop of [s.split()]: [cur] is the token being read. *)
Fixpoint split_ws_from (cur : string) (s : string) : list string :=
  match s with
  | EmptyString => if is_empty cur then [] else [cur]
  | String c r =>
      if is_space c
      then (if is_empty cur then split_ws_from EmptyString r
            else cur :: split_ws_from EmptyString r)
      else split_ws_from (cur ++ String c EmptyString) r
  end.

(** [s.split()]: the maximal runs of non-whitespace characters. *)
Definition split_ws (s : string) : list string := split_ws_from EmptyString s.

(** The loop of [s.split(sep)] for a one-character separator. *)
Fixpoint split_on_from (sep : ascii) (cur : string) (s : string) : list string :=
  match s with
  | EmptyString => [cur]
  | String c r =>
      if Ascii.eqb c sep
      then cur :: split_on_from sep EmptyString r
      else split_on_from sep (cur ++ String c EmptyString) r
  end.

(** [s.split(sep)] *)
Definition split_on (sep : ascii) (s : string) : list string :=
  split_on_from sep EmptyString s.

(** [s.upper()] on ASCII letters. *)
Definition upper_char (c : ascii) : ascii :=
  let n := nat_of_ascii c in
  if ((97 <=? n) && (n <=? 122))%nat then ascii_of_nat (n - 32) else c.

Definition lower_char (c : ascii) : ascii :=
  let n := nat_of_ascii c in
  if ((65 <=? n) && (n <=? 90))%nat then ascii_of_nat (n + 32) else c.

Fixpoint str_map (f : ascii -> ascii) (s : string) : string :=
  match s with
  | EmptyString => EmptyString
  | String c r => String (f c) (str_map f r)
  end.

Definition upper (s : string) : string := str_map upper_char s.
Definition lower (s : string) : string := str_map lower_char s.

(** [needle in hay] *)
Fixpoint str_contains (needle hay : string) : bool :=
  String.prefix needle hay ||
  match hay with
  | EmptyString => false
  | String _ r => str_contains needle r
  end.

(** [s.endswith(suffix)] *)
Definition endswith (s suffix : string) : bool :=
  let n := String.length s in
  let k := String.length suffix in
  (k <=? n)%nat && str_eqb (String.substring (n - k) k s) suffix.

(** [s[:n]] *)
Fixpoint take (n : nat) (s : string) : string :=
  match n, s with
  | S n', String c r => String c (take n' r)
  | _, _ => EmptyString
  end.

(** [x in xs] for a list of strings. *)
Definition str_in (x : string) (xs : list string) : bool :=
  existsb (str_eqb x) xs.

(** [f"{n:03d}"] for a non-negative [n]: the decimal digits, padded with
    zeros on the left to at least three characters. *)
Fixpoint zero_pad (k : nat) (d : Decimal.uint) : Decimal.uint :=
  match k with
  | O => d
  | S k' => Decimal.D0 (zero_pad k' d)
  end.

Definition format_03d (n : nat) : string :=
  let d := Nat.to_uint n in
  NilEmpty.string_of_uint (zero_pad (3 - Decimal.nb_digits d) d).

(* ================================================================== *)
(** * float(s) *)

(** Leading decimal digits of [s] and the rest. *)
Fixpoint span_digits (s : string) : string * string :=
  match s with
  | EmptyString => (EmptyString, EmptyString)
  | String c r =>
      if is_digit c
      then let (d, rest) := span_digits r in (String c d, rest)
      else (EmptyString, s)
  end.

(** Value of a string of decimal digits, most significant first. *)
Fixpoint digits_value (acc : Z) (s : string) : Z :=
  match s with
  | EmptyString => acc
  | String c r => digits_value (10 * acc + (Z.of_nat (nat_of_ascii c) - 48)) r
  end.

(** Underscores are allowed only between two digits; they are removed
    before the number is read. *)
Fixpoint remove_underscores (prev_digit : bool) (s : string) : option string :=
  match s with
  | EmptyString => Some EmptyString
  | String c r =>
      if Ascii.eqb c "_"
      then
        match r with
        | String d _ =>
            if prev_digit && is_digit d then remove_underscores false r else None
        | EmptyString => None
        end
      else option_map (String c) (remove_underscores (is_digit c) r)
  end.

(** An optional sign and the rest. *)
Definition read_sign (s : string) : bool * string :=
  match s with
  | String "-" r => (true, r)
  | String "+" r => (false, r)
  | _ => (false, s)
  end.

(** The exponent part: empty, or [e] or [E], an optional sign, digits. *)
Definition read_exponent (s : string) : option Z :=
  match s with
  | EmptyString => Some 0
  | String c r =>
      if Ascii.eqb c "e" || Ascii.eqb c "E"
      then
        let (neg, r') := read_sign r in
        let (d, rest) := span_digits r' in
        if is_empty d || negb (is_empty rest) then None
        else Some (if neg then - digits_value 0 d else digits_value 0 d)
      else None
  end.

Definition ten : Q := 10 # 1.

(** The float nearest to [(-1)^neg * m * 10^e]. *)
Definition of_decimal (neg : bool) (m : Z) (e : Z) : float :=
  if (m =? 0)%Z then Zero neg
  else round64 (inject_Z (if neg then - m else m) * ten ^ e)%Q.

(** A decimal number: digits, an optional point and digits (one digit at
    least), an optional exponent. *)
Definition read_number (neg : bool) (s : string) : option float :=
  let (d1, r1) := span_digits s in
  let (d2, r2) :=
    match r1 with
    | String "." r => span_digits r
    | _ => (EmptyString, r1)
    end in
  if is_empty d1 && is_empty d2 then None
  else
    match read_exponent r2 with
    | Some e =>
        Some (of_decimal neg (digits_value 0 (d1 ++ d2))
                (e - Z.of_nat (String.length d2)))
    | None => None
    end.

(** What [float(s)] accepts: surrounding whitespace, a sign, then [inf],
    [infinity] or [nan] in any case, or a decimal number. *)
Definition float_of_string (s : string) : option float :=
  match remove_underscores false (strip s) with
  | None => None
  | Some t =>
      let (neg, body) := read_sign t in
      let l := lower body in
      if str_eqb l "inf" || str_eqb l "infinity" then Some (Inf neg)
      else if str_eqb l "nan" then Some NaN
      else read_number neg body
  end.

(** [float(s)] *)
Definition py_float (s : string) : result float :=
  match float_of_string s with
  | Some x => Ok x
  | None => Raise (FloatValueError s)
  end.

(* ================================================================== *)
(** * Loops and dicts *)

(** A [for] loop over [xs] whose body updates the state [s] or raises. *)
Fixpoint for_each {A S : Type} (xs : list A) (s : S)
  (body : S -> A -> result S) : result S :=
  match xs with
  | [] => Ok s
  | x :: r => s' <- body s x ;; for_each r s' body
  end.

(** [d.get(k)] on a dict in insertion order. *)
Fixpoint dict_get {V : Type} (d : list (string * V)) (k : string) : option V :=
  match d with
  | [] => None
  | (k', v) :: r => if str_eqb k' k then Some v else dict_get r k
  end.

(** [d[k] = v]: an existing key keeps its place, a new one goes last. *)
Fixpoint dict_set {V : Type} (d : list (string * V)) (k : string) (v : V)
  : list (string * V) :=
  match d with
  | [] => [(k, v)]
  | (k', v') :: r =>
      if str_eqb k' k then (k', v) :: r else (k', v') :: dict_set r k v
  end.

Definition get_default {V : Type} (o : option V) (dflt : V) : V :=
  match o with
  | Some v => v
  | None => dflt
  end.

(* ================================================================== *)
(** * Element trees *)

(** An [xml.etree.ElementTree.Element]: tag, attributes, text, children. *)
#[warnings="-register-all"] Inductive element : Type :=
| Element (tag : string) (attrib : list (string * string))
    (text : option string) (children : list element).

Definition tag (e : element) : string :=
  let 'Element t _ _ _ := e in t.
Definition attrib (e : element) : list (string * string) :=
  let 'Element _ a _ _ := e in a.
Definition text (e : element) : option string :=
  let 'Element _ _ t _ := e in t.
Definition children (e : element) : list element :=
  let 'Element _ _ _ c := e in c.

(** The element and its descendants in document order. *)
Fixpoint iter_all (e : element) : list element :=
  match e with
  | Element _ _ _ cs => e :: flat_map iter_all cs
  end.

Definition has_tag (t : string) (e : element) : bool := str_eqb (tag e) t.

(** [e.iter(t)] *)
Definition iter (e : element) (t : string) : list element :=
  filter (has_tag t) (iter_all e).

(** [e.findall(t)] for a path of one step: the children tagged [t]. *)
Definition findall (e : element) (t : string) : list element :=
  filter (has_tag t) (children e).

(** [e.find(t)] for a path of one step. *)
Definition find (e : element) (t : string) : option element :=
  hd_error (findall e t).

(** The proper descendants tagged [t], in document order: the step [.//t]. *)
Definition descendants (e : element) (t : string) : list element :=
  filter (has_tag t) (flat_map iter_all (children e)).

(** [e.find('.//a/b/c')] *)
Definition find_path3 (e : element) (a b c : string) : option element :=
  hd_error
    (flat_map (fun y => findall y c)
       (flat_map (fun x => findall x b) (descendants e a))).

(** The KML namespace of [KML_NS]; a path step [kml:T] names this tag. *)
Definition kml (local : string) : string :=
  "{http://www.opengis.net/kml/2.2}" ++ local.

(** [get_text(element, path, ns)] *)
Definition get_text (e : element) (path : string) : string :=
  match find e path with
  | Some el =>
      match text el with
      | Some t => if is_empty t then "" else strip t
      | None => ""
      end
  | None => ""
  end.

(** A text that is present and not empty. *)
Definition truthy_text (e : element) : option string :=
  match text e with
  | Some t => if is_empty t then None else Some t
  | None => None
  end.

(* ================================================================== *)
(** * Coordinate parsing *)

(** A coordinate is the Python list [[lat, lon]]. *)
Definition coord : Type := list float.

(** The body of the loop of [parse_coordinates]. *)
Definition parse_point (coords : list coord) (point : string)
  : result (list coord) :=
  let parts := split_on "," point in
  if (2 <=? List.length parts)%nat then
    lon <- py_float (nth 0 parts "") ;;
    lat <- py_float (nth 1 parts "") ;;
    Ok (coords ++ [[lat; lon]])%list
  else Ok coords.

Definition parse_coordinates (coord_string : string) : result (list coord) :=
  for_each (split_ws (strip coord_string)) [] parse_point.

(** One parsed geometry: the dict with keys [coordinates] and [geometry]. *)
Record geometry : Type := mkGeometry {
  coordinates : list coord;
  geometry_kind : string
}.

Definition parse_polygon (placemark : element) : result (list geometry) :=
  for_each (iter placemark (kml "Polygon")) []
    (fun polygons polygon =>
       match find_path3 polygon (kml "outerBoundaryIs") (kml "LinearRing")
               (kml "coordinates") with
       | Some outer =>
           match truthy_text outer with
           | Some t =>
               coords <- parse_coordinates t ;;
               if (3 <=? List.length coords)%nat
               then Ok (polygons ++ [mkGeometry coords "Polygon"])%list
               else Ok polygons
           | None => Ok polygons
           end
       | None => Ok polygons
       end).

Definition parse_linestring (placemark : element) : result (list geometry) :=
  for_each (iter placemark (kml "LineString")) []
    (fun lines linestring =>
       match find linestring (kml "coordinates") with
       | Some coords_el =>
           match truthy_text coords_el with
           | Some t =>
               coords <- parse_coordinates t ;;
               if (2 <=? List.length coords)%nat
               then Ok (lines ++ [mkGeometry coords "LineString"])%list
               else Ok lines
           | None => Ok lines
           end
       | None => Ok lines
       end).

Definition parse_point_geometry (placemark : element) : result (list geometry) :=
  for_each (iter placemark (kml "Point")) []
    (fun points point =>
       match find point (kml "coordinates") with
       | Some coords_el =>
           match truthy_text coords_el with
           | Some t =>
               coords <- parse_coordinates t ;;
               match coords with
               | c0 :: _ => Ok (points ++ [mkGeometry [c0] "Point"])%list
               | [] => Ok points
               end
           | None => Ok points
           end
       | None => Ok points
       end).

(* ================================================================== *)
(** * Layer configuration *)

(** Transform constants. *)
Definition PHARR_LAT : float := of_decimal false 2606669701044433 (-14).
Definition PHARR_LON : float := of_decimal true 9820517760083658 (-14).
Definition METERS_PER_DEG_LAT : Z := 111320.

(** [math.pi] *)
Definition math_pi : float := of_decimal false 3141592653589793 (-15).

(** [math.cos] is the C library's cosine.  It is modelled by the rounded
    Taylor polynomial of degree 38, which is the correctly rounded cosine
    for the small argument the script passes. *)
Fixpoint cos_series (n : nat) (k : Z) (term x2 : Q) : Q :=
  match n with
  | O => 0%Q
  | S n' =>
      (term +
       cos_series n' (k + 2)
         (Qred (- term * x2 / inject_Z ((k + 1) * (k + 2)))) x2)%Q
  end.

Definition math_cos (x : float) : float :=
  match x with
  | NaN | Inf _ => NaN
  | Zero _ => of_int 1
  | Fin q => round64 (Qred (cos_series 20 0 1%Q (Qred (q * q))))
  end.

Definition METERS_PER_DEG_LON : float :=
  Eval vm_compute in
  fmul (of_int METERS_PER_DEG_LAT)
    (math_cos (fdiv (fmul PHARR_LAT math_pi) (of_int 180))).

(** One entry of [LAYER_CONFIG]. *)
Record layer_config : Type := mkConfig {
  cfg_layer : string;
  cfg_type : string;
  cfg_geometry : string;
  cfg_filter : option (string -> bool);
  cfg_enabled : bool
}.

(** [lambda name: any(f'FASE {i}' in name.upper() for i in [1, 2])] *)
Definition phase_filter (name : string) : bool :=
  existsb (fun fase => str_contains fase (upper name)) ["FASE 1"; "FASE 2"].

Definition LAYER_CONFIG : list (string * layer_config) :=
  [ ("FeatureLayer50",
      mkConfig "phases" "inovus_phase" "Polygon" (Some phase_filter) true);
    ("FeatureLayer27",
      mkConfig "industrialParks" "industrial_park" "Polygon" None true);
    ("FeatureLayer58",
      mkConfig "urbanFootprint" "urban" "Polygon" None true);
    ("FeatureLayer17",
      mkConfig "electricity" "substation" "Point" None false);
    ("FeatureLayer18",
      mkConfig "electricity" "distribution_line" "LineString" None false);
    ("FeatureLayer19",
      mkConfig "electricity" "transmission_line" "LineString" None false) ].

(** A Python number: [int] or [float]. *)
Inductive pynum : Type :=
| PyInt (z : Z)
| PyFloat (f : float).

Inductive style_value : Type :=
| StyleStr (s : string)
| StyleNum (n : pynum).

Definition style : Type := list (string * style_value).

Definition LAYER_STYLES : list (string * style) :=
  [ ("phases",
      [ ("fill", StyleStr "rgba(127, 223, 255, 0.3)");
        ("stroke", StyleStr "rgba(127, 223, 255, 0.7)");
        ("strokeWidth", StyleNum (PyInt 2)) ]);
    ("industrialParks",
      [ ("fill", StyleStr "rgba(215, 187, 158, 0.25)");
        ("stroke", StyleStr "rgba(255, 178, 115, 0.7)");
        ("strokeWidth", StyleNum (PyInt 1)) ]);
    ("urbanFootprint",
      [ ("fill", StyleStr "rgba(100, 100, 100, 0.2)");
        ("stroke", StyleStr "rgba(150, 150, 150, 0.4)");
        ("strokeWidth", StyleNum (PyFloat (of_decimal false 5 (-1)))) ]);
    ("electricity",
      [ ("fill", StyleStr "rgba(255, 223, 127, 0.9)");
        ("stroke", StyleStr "rgba(0, 255, 85, 0.6)");
        ("strokeWidth", StyleNum (PyInt 2)) ]) ].

(* ================================================================== *)
(** * Layer discovery *)

(** One entry of the list [list_layers] returns. *)
Record layer_entry : Type := mkLayerEntry {
  le_id : string;
  le_name : string;
  le_placemarks : nat;
  le_polygons : nat;
  le_lines : nat;
  le_points : nat;
  le_configured : bool
}.

(** [sum(xs)] for a list of naturals. *)
Definition py_sum (xs : list nat) : nat := fold_left Nat.add xs 0%nat.

(** [sum(1 for pm in placemarks for _ in pm.iter(t))] *)
Definition count_iter (placemarks : list element) (t : string) : nat :=
  py_sum (map (fun _ => 1%nat) (flat_map (fun pm => iter pm t) placemarks)).

(** [k in d] for a dict. *)
Definition dict_mem {V : Type} (d : list (string * V)) (k : string) : bool :=
  match dict_get d k with
  | Some _ => true
  | None => false
  end.

(** The body of the loop of [list_layers]. *)
Definition list_folder (layers : list layer_entry) (folder : element)
  : list layer_entry :=
  let folder_id := get_default (dict_get (attrib folder) "id") "" in
  let name := get_text folder (kml "name") in
  let placemarks := findall folder (kml "Placemark") in
  let polygons := count_iter placemarks (kml "Polygon") in
  let lines := count_iter placemarks (kml "LineString") in
  let points := count_iter placemarks (kml "Point") in
  if negb (is_empty folder_id) || (0 <? List.length placemarks)%nat
  then (layers ++
          [mkLayerEntry folder_id name (List.length placemarks) polygons lines
             points (dict_mem LAYER_CONFIG folder_id)])%list
  else layers.

Definition list_layers (root : element) : list layer_entry :=
  fold_left list_folder (iter root (kml "Folder")) [].

(* ================================================================== *)
(** * Layer extraction *)

(** An extracted feature: the dict built by [extract_layer] (with the keys
    [layer] and [type]) or by [parse_kml_placemarks] (without them). *)
Record feature : Type := mkFeature {
  f_name : string;
  f_description : string;
  f_polygons : list geometry;
  f_layer : option string;
  f_type : option string
}.

(** The geometry parser for [config['geometry']]. *)
Definition parse_geometry (geometry_type : string) (placemark : element)
  : result (list geometry) :=
  if str_eqb geometry_type "Polygon" then parse_polygon placemark
  else if str_eqb geometry_type "LineString" then parse_linestring placemark
  else if str_eqb geometry_type "Point" then parse_point_geometry placemark
  else Ok [].

(** The first folder whose [id] attribute is [folder_id]. *)
Definition find_folder (root : element) (folder_id : string) : option element :=
  List.find
    (fun f => match dict_get (attrib f) "id" with
              | Some i => str_eqb i folder_id
              | None => false
              end)
    (iter root (kml "Folder")).

(** The body of the placemark loop of [extract_layer]. *)
Definition extract_placemark (config : layer_config)
  (features : list feature) (placemark : element) : result (list feature) :=
  let name := get_text placemark (kml "name") in
  let description := get_text placemark (kml "description") in
  let skip :=
    match cfg_filter config with
    | Some name_filter => negb (name_filter name)
    | None => false
    end in
  if skip then Ok features
  else
    geometries <- parse_geometry (cfg_geometry config) placemark ;;
    match geometries with
    | [] => Ok features
    | _ =>
        Ok (features ++
              [mkFeature name description geometries
                 (Some (cfg_layer config)) (Some (cfg_type config))])%list
    end.

Definition extract_layer (root : element) (folder_id : string)
  (config : layer_config) : result (list feature) :=
  match find_folder root folder_id with
  | None => Ok []
  | Some folder =>
      for_each (findall folder (kml "Placemark")) [] (extract_placemark config)
  end.

(** [layer_filter] is [None] or the list given with [--layers]. *)
Definition filter_active (layer_filter : option (list string)) : option (list string) :=
  match layer_filter with
  | Some (x :: r) => Some (x :: r)
  | _ => None
  end.

Definition parse_kml_by_layers (root : element)
  (layer_filter : option (list string)) : result (list feature) :=
  for_each LAYER_CONFIG []
    (fun all_features entry =>
       let '(folder_id, config) := entry in
       let skip :=
         match filter_active layer_filter with
         | Some names => negb (str_in (cfg_layer config) names)
         | None => false
         end in
       if skip then Ok all_features
       else
         features <- extract_layer root folder_id config ;;
         Ok (all_features ++ features)%list).

(** The body of the loop of [parse_kml_placemarks]. *)
Definition legacy_placemark (lots : list feature) (placemark : element)
  : result (list feature) :=
  let name := get_text placemark (kml "name") in
  let description := get_text placemark (kml "description") in
  polygons <- parse_polygon placemark ;;
  match polygons with
  | [] => Ok lots
  | _ => Ok (lots ++ [mkFeature name description polygons None None])%list
  end.

Definition parse_kml_placemarks (root : element) : result (list feature) :=
  for_each (iter root (kml "Placemark")) [] legacy_placemark.

(* ================================================================== *)
(** * Output building *)

(** What one run of the interpreter fixes besides the input: the date
    of [datetime.now()] and the order in which a [set] of strings is
    iterated, which follows the string hashes of the process. *)
Record environment : Type := mkEnv {
  today : string;
  set_order : list string -> list string
}.

(** One record of [lots]. *)
Record lot : Type := mkLot {
  lot_id : string;
  lot_name : string;
  lot_comment : string;
  lot_layer : string;
  lot_type : option string;
  lot_region_id : option string;
  lot_polygons : list geometry;
  lot_region_params : option string;
  lot_conversion_rule_ids : option string;
  lot_priority : Z
}.

Record layer_meta : Type := mkMeta {
  meta_enabled : bool;
  meta_style : style
}.

Record transform : Type := mkTransform {
  origin_lat : float;
  origin_lon : float;
  meters_per_deg_lat : Z;
  meters_per_deg_lon : float;
  notes : string
}.

(** The dict returned by [build_lots_json]; [json.dump] writes the keys of
    every dict in this order. *)
Record document : Type := mkDocument {
  version : string;
  generated : string;
  source_kmz : string;
  doc_transform : transform;
  layers : list (string * layer_meta);
  lots : list lot
}.

(** [Path(p).name]: the last component of a POSIX path. *)
Definition path_name (p : string) : string :=
  last (filter (fun c => negb (is_empty c || str_eqb c "."))
          (split_on "/" p)) "".

(** [layer[:4] if layer else 'lot'] *)
Definition id_prefix (layer : string) : string :=
  if is_empty layer then "lot" else take 4 layer.

(** The body of the first loop of [build_lots_json]: the state is [lots]
    and [layer_counts]. *)
Definition assemble_lot (st : list lot * list (string * nat)) (raw : feature)
  : list lot * list (string * nat) :=
  let '(lots, layer_counts) := st in
  let layer := get_default (f_layer raw) "lots" in
  let lot_type := f_type raw in
  let layer_counts :=
    dict_set layer_counts layer
      (get_default (dict_get layer_counts layer) 0 + 1)%nat in
  let prefix := id_prefix layer in
  let lot_id :=
    prefix ++ "_" ++ format_03d (get_default (dict_get layer_counts layer) 0%nat) in
  ((lots ++
      [mkLot lot_id (f_name raw) (f_description raw) layer lot_type None
         (f_polygons raw) None None 0])%list,
   layer_counts).

Definition assemble_lots (raw_lots : list feature) : list lot :=
  fst (fold_left assemble_lot raw_lots ([], [])).

(** [next((k for k, v in LAYER_CONFIG.items() if v['layer'] == name), '')] *)
Definition config_key_of_layer (layer_name : string) : string :=
  match List.find (fun kv => str_eqb (cfg_layer (snd kv)) layer_name)
          LAYER_CONFIG with
  | Some kv => fst kv
  | None => ""
  end.

Definition layer_enabled (layer_name : string) : bool :=
  match dict_get LAYER_CONFIG (config_key_of_layer layer_name) with
  | Some c => cfg_enabled c
  | None => true
  end.

Definition build_layers_meta (env : environment) (lots : list lot)
  : list (string * layer_meta) :=
  fold_left
    (fun layers_meta layer_name =>
       dict_set layers_meta layer_name
         (mkMeta (layer_enabled layer_name)
            (get_default (dict_get LAYER_STYLES layer_name) [])))
    (set_order env (map lot_layer lots)) [].

Definition build_lots_json (env : environment) (raw_lots : list feature)
  (source : string) (layer_filter : option (list string)) : document :=
  let lots := assemble_lots raw_lots in
  let layers_meta := build_layers_meta env lots in
  mkDocument "2.0" (today env) (path_name source)
    (mkTransform PHARR_LAT PHARR_LON METERS_PER_DEG_LAT
       (py_round METERS_PER_DEG_LON 2)
       "PHARR POE is coordinate origin (0,0). Same as bundle transform.")
    layers_meta lots.

(* ================================================================== *)
(** * Statistics *)

(** The coordinate transform of the bounding box:
    [(lat - PHARR_LAT) * METERS_PER_DEG_LAT] and
    [(lon - PHARR_LON) * METERS_PER_DEG_LON]. *)
Definition to_local_y (lat : float) : float :=
  fmul (fsub lat PHARR_LAT) (of_int METERS_PER_DEG_LAT).

Definition to_local_x (lon : float) : float :=
  fmul (fsub lon PHARR_LON) METERS_PER_DEG_LON.

(** [min] and [max] of a non-empty sequence [x :: xs]. *)
Definition py_min (x : float) (xs : list float) : float :=
  fold_left (fun m y => if flt y m then y else m) xs x.

Definition py_max (x : float) (xs : list float) : float :=
  fold_left (fun m y => if fgt y m then y else m) xs x.

Definition range : Type := (pynum * pynum)%type.

Record stats : Type := mkStats {
  num_lots : nat;
  num_polygons : nat;
  by_layer : list (string * nat);
  by_geometry : list (string * nat);
  lat_range : range;
  lon_range : range;
  y_range_m : range;
  x_range_m : range
}.

Definition count_up (d : list (string * nat)) (k : string) : list (string * nat) :=
  dict_set d k (get_default (dict_get d k) 0 + 1)%nat.

(** The geometries of all lots, in order. *)
Definition all_geometries (lots : list lot) : list geometry :=
  flat_map lot_polygons lots.

(** The loop collecting [all_lats] and [all_lons]. *)
Definition collect_coord (st : list float * list float) (c : coord)
  : list float * list float :=
  let '(all_lats, all_lons) := st in
  if (2 <=? List.length c)%nat
  then ((all_lats ++ [nth 0 c NaN])%list, (all_lons ++ [nth 1 c NaN])%list)
  else st.

Definition collect_coords (lots : list lot) : list float * list float :=
  fold_left collect_coord (flat_map coordinates (all_geometries lots)) ([], []).

Definition zero_range : range := (PyInt 0, PyInt 0).

Definition compute_stats (lots_json : document) : stats :=
  let lots := lots lots_json in
  let total_polygons :=
    fold_left Nat.add (map (fun l => List.length (lot_polygons l)) lots) 0%nat in
  let by_layer := fold_left (fun d l => count_up d (lot_layer l)) lots [] in
  let by_geometry :=
    fold_left (fun d g => count_up d (geometry_kind g)) (all_geometries lots)
      [("Polygon", 0%nat); ("LineString", 0%nat); ("Point", 0%nat)] in
  let '(all_lats, all_lons) := collect_coords lots in
  let '(lat_range, lon_range, y_range, x_range) :=
    match all_lats, all_lons with
    | la :: las, lo :: los =>
        let lat_lo := py_min la las in
        let lat_hi := py_max la las in
        let lon_lo := py_min lo los in
        let lon_hi := py_max lo los in
        ((PyFloat lat_lo, PyFloat lat_hi),
         (PyFloat lon_lo, PyFloat lon_hi),
         (PyFloat (to_local_y lat_lo), PyFloat (to_local_y lat_hi)),
         (PyFloat (to_local_x lon_lo), PyFloat (to_local_x lon_hi)))
    | _, _ => (zero_range, zero_range, zero_range, zero_range)
    end in
  mkStats (List.length lots) total_polygons by_layer by_geometry
    lat_range lon_range y_range x_range.

(* ================================================================== *)
(** * Archive reader and the whole run *)

(** A [zipfile.ZipFile] opened for reading: the entry names in archive
    order and the bytes [read] returns for a name ([None] when it raises). *)
Record zip_archive : Type := mkZip {
  namelist : list string;
  read : string -> option string
}.

(** The library functions the run goes through: [bytes.decode('utf-8')]
    and [ET.fromstring] ([None] when they raise). *)
Record library : Type := mkLibrary {
  decode_utf8 : string -> option string;
  fromstring : string -> option element
}.

Definition or_raise {A : Type} (o : option A) (e : exn) : result A :=
  match o with
  | Some a => Ok a
  | None => Raise e
  end.

Definition NO_KML : exn := ValueError "No KML file found in KMZ".

(** [z.read(kml_name).decode('utf-8')] *)
Definition read_decoded (lib : library) (z : zip_archive) (kml_name : string)
  : result string :=
  data <- or_raise (read z kml_name) (ZipReadError kml_name) ;;
  or_raise (decode_utf8 lib data) UnicodeDecodeError.

Definition extract_kml_from_kmz (lib : library) (z : zip_archive) : result string :=
  let kml_files := filter (fun f => endswith f ".kml") (namelist z) in
  match kml_files with
  | [] => Raise NO_KML
  | first :: _ =>
      let kml_name := if str_in "doc.kml" kml_files then "doc.kml" else first in
      read_decoded lib z kml_name
  end.

(** The command line: [input], [--layers], [--legacy]. *)
Record arguments : Type := mkArgs {
  arg_input : string;
  arg_layers : option string;
  arg_legacy : bool
}.

(** [[l.strip() for l in args.layers.split(',')]] when [--layers] is given
    and not empty. *)
Definition layer_filter_of (a : arguments) : option (list string) :=
  match arg_layers a with
  | Some s => if is_empty s then None else Some (map strip (split_on "," s))
  | None => None
  end.

Definition extract_features (root : element) (a : arguments)
  : result (list feature) :=
  if arg_legacy a then parse_kml_placemarks root
  else parse_kml_by_layers root (layer_filter_of a).

(** [main] without [--list-layers]: the document handed to [json.dump]. *)
Definition run (lib : library) (env : environment) (z : zip_archive)
  (a : arguments) : result document :=
  kml_content <- extract_kml_from_kmz lib z ;;
  root <- or_raise (fromstring lib kml_content) ParseError ;;
  raw_lots <- extract_features root a ;;
  Ok (build_lots_json env raw_lots (arg_input a) (layer_filter_of a)).

(** [main] with [--list-layers]: the entries it prints. *)
Definition run_list_layers (lib : library) (z : zip_archive)
  : result (list layer_entry) :=
  kml_content <- extract_kml_from_kmz lib z ;;
  root <- or_raise (fromstring lib kml_content) ParseError ;;
  Ok (list_layers root).

(** The inverse of the coordinate transform, as a reader of the output
    applies it: [lat = y / metersPerDegreeLat + lat0] and
    [lon = x / metersPerDegreeLon + lon0]. *)
Definition from_local_y (y : float) : float :=
  fadd (fdiv y (of_int METERS_PER_DEG_LAT)) PHARR_LAT.

Definition from_local_x (m_per_deg_lon : float) (x : float) : float :=
  fadd (fdiv x m_per_deg_lon) PHARR_LON.

(* ================================================================== *)
(** * Specification-level definitions *)

(** A character class holds of every character of a string. *)
Fixpoint str_forall (p : ascii -> bool) (s : string) : bool :=
  match s with
  | EmptyString => true
  | String c r => p c && str_forall p r
  end.

Definition is_comma (c : ascii) : bool := Ascii.eqb c ",".

(** A field of a coordinate token: no whitespace and no comma. *)
Definition is_field (s : string) : bool :=
  str_forall (fun c => negb (is_space c) && negb (is_comma c)) s.

Definition no_space (s : string) : bool :=
  str_forall (fun c => negb (is_space c)) s.

Definition all_space (s : string) : bool := str_forall is_space s.

(** What one token contributes to the result of [parse_coordinates] when
    the text parses: nothing with fewer than two comma-separated fields,
    otherwise the pair of its first two fields, swapped. *)
Definition token_coords (t : string) : list coord :=
  match split_on "," t with
  | f0 :: f1 :: _ =>
      match float_of_string f0, float_of_string f1 with
      | Some lon, Some lat => [[lat; lon]]
      | _, _ => []
      end
  | _ => []
  end.

(** A token [float] does not reject: fewer than two comma-separated
    fields, or the first two fields are float literals. *)
Definition token_ok (t : string) : bool :=
  match split_on "," t with
  | f0 :: f1 :: _ =>
      match float_of_string f0, float_of_string f1 with
      | Some _, Some _ => true
      | _, _ => false
      end
  | _ => true
  end.

(** A coordinate token [lon,lat[,alt]] as written in a text, after the
    whitespace [ct_sep], with the values of its first two fields. *)
Record coord_token : Type := mkToken {
  ct_sep : string;
  ct_lon : string;
  ct_lat : string;
  ct_alt : option string;
  ct_lon_value : float;
  ct_lat_value : float
}.

Definition token_text (t : coord_token) : string :=
  ct_lon t ++ "," ++ ct_lat t ++
  match ct_alt t with
  | Some a => "," ++ a
  | None => ""
  end.

Fixpoint coord_text (ts : list coord_token) : string :=
  match ts with
  | [] => ""
  | t :: r => ct_sep t ++ token_text t ++ coord_text r
  end.

Definition token_valid (t : coord_token) : Prop :=
  all_space (ct_sep t) = true /\
  is_field (ct_lon t) = true /\
  is_field (ct_lat t) = true /\
  match ct_alt t with Some a => no_space a = true | None => True end /\
  float_of_string (ct_lon t) = Some (ct_lon_value t) /\
  float_of_string (ct_lat t) = Some (ct_lat_value t).

(** The test [len(parts) >= 2] of [parse_coordinates] on a token. *)
Definition has_two_fields (t : string) : bool :=
  (2 <=? List.length (split_on "," t))%nat.

(** The floats the literals of the scenario denote. *)
Definition lit_26_07 : float := of_decimal false 2607 (-2).
Definition lit_26_08 : float := of_decimal false 2608 (-2).
Definition lit_m98_20 : float := of_decimal true 9820 (-2).
Definition lit_m98_21 : float := of_decimal true 9821 (-2).

(** Apply [f] to each element in order; the first exception ends it. *)
Fixpoint traverse {A B : Type} (f : A -> result B) (xs : list A)
  : result (list B) :=
  match xs with
  | [] => Ok []
  | x :: r => y <- f x ;; ys <- traverse f r ;; Ok (y :: ys)
  end.

(** The coordinate text of the outer boundary of a polygon element, when
    there is one and it is not empty. *)
Definition ring_text (polygon : element) : option string :=
  match find_path3 polygon (kml "outerBoundaryIs") (kml "LinearRing")
          (kml "coordinates") with
  | Some outer => truthy_text outer
  | None => None
  end.

(** The outer-boundary texts of the polygons of a placemark, in document
    order. *)
Definition ring_texts (placemark : element) : list string :=
  flat_map (fun p => match ring_text p with Some t => [t] | None => [] end)
    (iter placemark (kml "Polygon")).

Definition keeps_ring (coords : list coord) : bool :=
  (3 <=? List.length coords)%nat.

Definition polygon_of (coords : list coord) : geometry :=
  mkGeometry coords "Polygon".

(** A geometry as the extractors build it: at least one coordinate, each
    a pair. *)
Definition geometry_ok (g : geometry) : Prop :=
  ~ coordinates g = [] /\
  Forall (fun c => List.length c = 2%nat) (coordinates g).

(** A feature as the extractors build it: at least one geometry, each as
    above. *)
Definition feature_ok (f : feature) : Prop :=
  ~ f_polygons f = [] /\ Forall geometry_ok (f_polygons f).

(** A feature as above that carries the given layer. *)
Definition feature_from (layer : option string) (f : feature) : Prop :=
  feature_ok f /\ f_layer f = layer.

(** [raw.get('layer', 'lots')] *)
Definition layer_of (f : feature) : string := get_default (f_layer f) "lots".

(** The layer names of [LAYER_CONFIG] and the default of the legacy mode. *)
Definition known_layers : list string :=
  ["phases"; "industrialParks"; "urbanFootprint"; "electricity"; "lots"].

(** What the two extraction modes return: features as above, tagged with
    a layer of the configuration or with none. *)
Definition extracted (f : feature) : Prop :=
  feature_ok f /\ In (layer_of f) known_layers.

(** How many features of [fs] are of the given layer. *)
Definition count_layer (layer : string) (fs : list feature) : nat :=
  List.length (filter (fun f => str_eqb (layer_of f) layer) fs).

(** The id the assembler gives to a feature of [layer] that comes after
    the features [before]. *)
Definition expected_id (layer : string) (before : list feature) : string :=
  id_prefix layer ++ "_" ++ format_03d (S (count_layer layer before)).

(** [layer_counts] counts the features seen so far, layer by layer. *)
Definition counts_of (before : list feature) (counts : list (string * nat)) : Prop :=
  forall layer, get_default (dict_get counts layer) 0%nat = count_layer layer before.

(** The lots built from [raw], one per feature, with their ids. *)
Fixpoint lots_from (before raw : list feature) : list lot :=
  match raw with
  | [] => []
  | f :: r =>
      mkLot (expected_id (layer_of f) before) (f_name f) (f_description f)
        (layer_of f) (f_type f) None (f_polygons f) None None 0
      :: lots_from (before ++ [f]) r
  end.

(** All coordinates of a document, in order. *)
Definition all_coordinates (doc : document) : list coord :=
  flat_map coordinates (all_geometries (lots doc)).

(** The statistics of a document without features. *)
Definition zero_stats : stats :=
  mkStats 0 0 []
    [("Polygon", 0%nat); ("LineString", 0%nat); ("Point", 0%nat)]
    zero_range zero_range zero_range zero_range.

(** Iterating over [set(names)] yields every distinct name once, in an
    order that depends on the run. *)
Definition set_order_ok (env : environment) : Prop :=
  forall names, Permutation (set_order env names) (nodup string_dec names).

(** The entry of [layers] for a layer name. *)
Definition layer_meta_of (layer_name : string) : layer_meta :=
  mkMeta (layer_enabled layer_name)
    (get_default (dict_get LAYER_STYLES layer_name) []).

(** A finite float within [2 ^ (k - 53)] of the exact value [v], and of
    magnitude at most [2 ^ k]. *)
Definition approximates (x : float) (v : Q) (k : Z) : Prop :=
  is_finite x = true /\
  (Qabs (F2Q x - v) <= pow2 (k - 53))%Q /\
  (Qabs (F2Q x) <= pow2 k)%Q.

(** The tolerance of the round trip, 1e-9 degrees. *)
Definition round_trip_tolerance : Q := 1 # 1000000000.

(* ================================================================== *)
(** * Definitions for the properties of the layers and of the statistics *)

(** A text without leading whitespace: empty, or its first character is
    not a space. *)
Definition starts_clean (s : string) : bool :=
  match s with
  | EmptyString => true
  | String c _ => negb (is_space c)
  end.

(** No slash in a string. *)
Definition no_slash (s : string) : bool :=
  str_forall (fun c => negb (Ascii.eqb c "/")) s.

(** The coordinate text of a line string or of a point: the text of its
    child [coordinates], when there is one and it is not empty. *)
Definition child_text (e : element) : option string :=
  match find e (kml "coordinates") with
  | Some coords_el => truthy_text coords_el
  | None => None
  end.

(** The coordinate texts of the line strings, and of the points, of a
    placemark, in document order. *)
Definition line_texts (placemark : element) : list string :=
  flat_map (fun l => match child_text l with Some t => [t] | None => [] end)
    (iter placemark (kml "LineString")).

Definition point_texts (placemark : element) : list string :=
  flat_map (fun p => match child_text p with Some t => [t] | None => [] end)
    (iter placemark (kml "Point")).

Definition keeps_line (coords : list coord) : bool :=
  (2 <=? List.length coords)%nat.

Definition line_of (coords : list coord) : geometry :=
  mkGeometry coords "LineString".

(** The point geometry of a parsed text: its first coordinate, if any. *)
Definition point_of (coords : list coord) : list geometry :=
  match coords with
  | c0 :: _ => [mkGeometry [c0] "Point"]
  | [] => []
  end.

(** The entry [list_layers] builds for a folder. *)
Definition folder_entry (folder : element) : layer_entry :=
  let folder_id := get_default (dict_get (attrib folder) "id") "" in
  let placemarks := findall folder (kml "Placemark") in
  mkLayerEntry folder_id (get_text folder (kml "name"))
    (List.length placemarks)
    (count_iter placemarks (kml "Polygon"))
    (count_iter placemarks (kml "LineString"))
    (count_iter placemarks (kml "Point"))
    (dict_mem LAYER_CONFIG folder_id).

(** The folders [list_layers] lists: those with an id or a placemark. *)
Definition folder_listed (folder : element) : bool :=
  negb (is_empty (get_default (dict_get (attrib folder) "id") ""))
  || (0 <? List.length (findall folder (kml "Placemark")))%nat.

(** The number of geometries of a type that an entry reports. *)
Definition listed_count (e : layer_entry) (geometry_type : string) : nat :=
  if str_eqb geometry_type "Polygon" then le_polygons e
  else if str_eqb geometry_type "LineString" then le_lines e
  else if str_eqb geometry_type "Point" then le_points e
  else 0%nat.

(** The test [f.get('id') == folder_id] of [extract_layer]. *)
Definition has_id (folder_id : string) (f : element) : bool :=
  match dict_get (attrib f) "id" with
  | Some i => str_eqb i folder_id
  | None => false
  end.

(** The entries of [LAYER_CONFIG] that [parse_kml_by_layers] reads under
    a layer filter. *)
Definition layer_selected (layer_filter : option (list string))
  (entry : string * layer_config) : bool :=
  match filter_active layer_filter with
  | Some names => str_in (cfg_layer (snd entry)) names
  | None => true
  end.

(** The geometry types [extract_layer] knows. *)
Definition geometry_types : list string := ["Polygon"; "LineString"; "Point"].

(** The layer names of [LAYER_CONFIG]. *)
Definition config_layers : list string :=
  map (fun kv => cfg_layer (snd kv)) LAYER_CONFIG.

(** What [extract_layer] builds from a configuration entry. *)
Definition matches_config (config : layer_config) (f : feature) : Prop :=
  f_layer f = Some (cfg_layer config) /\
  f_type f = Some (cfg_type config) /\
  (forall name_filter,
     cfg_filter config = Some name_filter -> name_filter (f_name f) = true) /\
  ~ f_polygons f = [] /\
  Forall (fun g => geometry_kind g = cfg_geometry config) (f_polygons f).

(** The sum of the values of a dict of counts. *)
Definition dict_total (d : list (string * nat)) : nat := list_sum (map snd d).

(** How many lots are of a layer, and how many geometries of a type. *)
Definition count_lots (layer : string) (ls : list lot) : nat :=
  List.length (filter (fun l => str_eqb (lot_layer l) layer) ls).

Definition count_kind (kind : string) (gs : list geometry) : nat :=
  List.length (filter (fun g => str_eqb (geometry_kind g) kind) gs).

(** [coord[0]] and [coord[1]] *)
Definition lat_of (c : coord) : float := nth 0 c NaN.
Definition lon_of (c : coord) : float := nth 1 c NaN.

Definition not_nan (x : float) : bool :=
  match x with
  | NaN => false
  | _ => true
  end.

(** [x <= y] *)
Definition fle (x y : float) : bool :=
  match x, y with
  | NaN, _ | _, NaN => false
  | Inf s, Inf s' => s || negb s'
  | Inf s, _ => s
  | _, Inf s => negb s
  | _, _ => match (F2Q x ?= F2Q y)%Q with Gt => false | _ => true end
  end.

(** Induction on an element with the hypothesis for all its children. *)
Fixpoint element_induction (P : element -> Prop)
  (step : forall t a x cs, Forall P cs -> P (Element t a x cs))
  (e : element) : P e :=
  match e with
  | Element t a x cs =>
      step t a x cs
        ((fix children_induction (l : list element) : Forall P l :=
            match l with
            | [] => Forall_nil P
            | c :: r =>
                Forall_cons c (element_induction P step c)
                  (children_induction r)
            end) cs)
  end.

(** The feature the legacy mode builds from a placemark and its
    polygons. *)
Definition legacy_feature (placemark : element) (polygons : list geometry)
  : feature :=
  mkFeature (get_text placemark (kml "name"))
    (get_text placemark (kml "description")) polygons None None.

(** The [ValueError] that [float] raises on a text that is not a float
    literal. *)
Definition is_float_error (e : exn) : Prop :=
  exists literal, e = FloatValueError literal /\ float_of_string literal = None.

(** The coordinate texts the geometry parser of a type reads in a
    placemark. *)
Definition geometry_texts (geometry_type : string) (placemark : element)
  : list string :=
  if str_eqb geometry_type "Polygon" then ring_texts placemark
  else if str_eqb geometry_type "LineString" then line_texts placemark
  else if str_eqb geometry_type "Point" then point_texts placemark
  else [].

(** The placemarks that the name filter of a layer does not skip. *)
Definition passes_filter (config : layer_config) (placemark : element) : bool :=
  match cfg_filter config with
  | Some name_filter => name_filter (get_text placemark (kml "name"))
  | None => true
  end.

(** The coordinate texts a run reads in a document.  With [--legacy]:
    the outer rings of every placemark.  Otherwise: for every entry of
    [LAYER_CONFIG] the layer filter selects, the texts of the configured
    geometry in the placemarks of its folder that pass the name filter. *)
Definition reads_text (root : element) (a : arguments) (t : string) : Prop :=
  if arg_legacy a then
    exists placemark,
      In placemark (iter root (kml "Placemark")) /\
      In t (ring_texts placemark)
  else
    exists folder_id config folder placemark,
      In (folder_id, config) LAYER_CONFIG /\
      layer_selected (layer_filter_of a) (folder_id, config) = true /\
      find_folder root folder_id = Some folder /\
      In placemark (findall folder (kml "Placemark")) /\
      passes_filter config placemark = true /\
      In t (geometry_texts (cfg_geometry config) placemark).

(* ================================================================== *)
(** * Sample data *)

Definition sample_ring (coords : string) : element :=
  Element (kml "Polygon") [] None
    [Element (kml "outerBoundaryIs") [] None
       [Element (kml "LinearRing") [] None
          [Element (kml "coordinates") [] (Some coords) []]]].

Definition sample_placemark (name coords : string) : element :=
  Element (kml "Placemark") [] None
    [Element (kml "name") [] (Some name) []; sample_ring coords].

Definition sample_square : string :=
  "-98.20,26.07,0 -98.21,26.07,0 -98.21,26.08,0 -98.20,26.08,0".

(** A document with a phases folder and an industrial-parks folder; the
    placemark [Corto] has a ring of two points only. *)
Definition sample_root : element :=
  Element (kml "kml") [] None
    [Element (kml "Document") [] None
       [Element (kml "Folder") [("id", "FeatureLayer50")] None
          [sample_placemark "Fase 1 Norte" sample_square;
           sample_placemark "Otro" sample_square];
        Element (kml "Folder") [("id", "FeatureLayer27")] None
          [sample_placemark "Parque A" sample_square;
           sample_placemark "Corto" "-98.20,26.07 -98.21,26.07";
           sample_placemark "Parque B" sample_square]]].

(** A document none of whose folders is in the configuration. *)
Definition sample_root_unconfigured : element :=
  Element (kml "kml") [] None
    [Element (kml "Document") [] None
       [Element (kml "Folder") [("id", "FeatureLayer99")] None
          [sample_placemark "Fuera" sample_square]]].

Definition sample_library_unconfigured : library :=
  mkLibrary (fun data => Some data) (fun _ => Some sample_root_unconfigured).

Definition sample_library : library :=
  mkLibrary (fun data => Some data) (fun _ => Some sample_root).

Definition sample_zip : zip_archive :=
  mkZip ["images/icon.png"; "doc.kml"]
    (fun name => if str_eqb name "doc.kml" then Some "<kml/>" else None).

Definition sample_arguments : arguments := mkArgs "maps/FIELD.kmz" None false.

(** Two runs that differ in the date and in the iteration order of sets. *)
Definition sample_env : environment :=
  mkEnv "2025-01-01" (fun names => nodup string_dec names).

Definition sample_env' : environment :=
  mkEnv "2025-01-02" (fun names => List.rev (nodup string_dec names)).

Definition sample_features : list feature :=
  Eval vm_compute in
  match extract_features sample_root sample_arguments with
  | Ok raw => raw
  | Raise _ => []
  end.

(** A UTF-8 decoder for the texts of code points below 256: a byte
    below 128 is its character, the bytes [C2 b] and [C3 b] with a
    continuation byte [b] are the characters [b] and [b + 64]; it
    refuses every other byte sequence. *)
Fixpoint decode_utf8_latin1 (data : string) : option string :=
  match data with
  | EmptyString => Some EmptyString
  | String c r =>
      let n := nat_of_ascii c in
      if (n <? 128)%nat then option_map (String c) (decode_utf8_latin1 r)
      else
        match r with
        | String c' r' =>
            let m := nat_of_ascii c' in
            if ((n =? 194) || (n =? 195))%nat && (128 <=? m)%nat
               && (m <? 192)%nat
            then option_map (String (ascii_of_nat (m + (n - 194) * 64)))
                   (decode_utf8_latin1 r')
            else None
        | EmptyString => None
        end
  end.

(** The UTF-8 bytes of a [name] element whose text holds the character
    U+00F1 (n with tilde), and the text they decode to. *)
Definition sample_bytes : string :=
  "<name>Pe" ++ String (ascii_of_nat 195) (String (ascii_of_nat 177) "a</name>").

Definition sample_text : string :=
  "<name>Pe" ++ String (ascii_of_nat 241) "a</name>".

Definition sample_library_utf8 : library :=
  mkLibrary decode_utf8_latin1 (fun _ => Some sample_root).

(** A document with a folder that has placemarks and no id, an empty
    folder without an id, and a folder with an id and no placemark. *)
Definition sample_root_folders : element :=
  Element (kml "Document") [] None
    [Element (kml "Folder") [] None
       [Element (kml "name") [] (Some " Sin id ") [];
        sample_placemark "Parque A" sample_square];
     Element (kml "Folder") [] None
       [Element (kml "name") [] (Some "Vacia") []];
     Element (kml "Folder") [("id", "FeatureLayer17")] None []].

(* THEOREMS *)
(* ================================================================== *)
(** * Strings: appending and splitting *)

Lemma append_nil_r (s : string) : s ++ "" = s.
Proof. induction s; simpl; congruence. Qed.

Lemma append_assoc (a b c : string) : (a ++ b) ++ c = a ++ (b ++ c).
Proof. induction a; simpl; congruence. Qed.

Lemma is_empty_true (s : string) : is_empty s = true -> s = "".
Proof. destruct s; simpl; congruence. Qed.

Lemma is_empty_append (a b : string) :
  is_empty (a ++ b) = is_empty a && is_empty b.
Proof. destruct a; reflexivity. Qed.

Lemma str_forall_append p (a b : string) :
  str_forall p (a ++ b) = str_forall p a && str_forall p b.
Proof.
  induction a as [|c a IH]; simpl; [reflexivity|].
  rewrite IH, andb_assoc. reflexivity.
Qed.

(** Whitespace in front of a text is dropped by [split]. *)
Lemma split_ws_lstrip (s : string) : split_ws (lstrip s) = split_ws s.
Proof.
  unfold split_ws. induction s as [|c r IH]; simpl; [reflexivity|].
  destruct (is_space c) eqn:E; simpl; [exact IH|].
  rewrite E. reflexivity.
Qed.

(** Whitespace at the end of a text is dropped by [split]. *)
Lemma split_ws_from_rstrip (s cur : string) :
  split_ws_from cur (rstrip s) = split_ws_from cur s.
Proof.
  revert cur. induction s as [|c r IH]; intros cur; simpl; [reflexivity|].
  destruct (is_empty (rstrip r)) eqn:Er; simpl.
  - destruct (is_space c) eqn:Ec; simpl.
    + rewrite <- (IH ""). apply is_empty_true in Er. rewrite Er. simpl.
      destruct (is_empty cur); reflexivity.
    + rewrite Ec. apply IH.
  - destruct (is_space c); [destruct (is_empty cur)|]; rewrite ?IH; reflexivity.
Qed.

Lemma split_ws_strip (s : string) : split_ws (strip s) = split_ws s.
Proof.
  unfold strip, split_ws at 1. rewrite split_ws_from_rstrip.
  apply split_ws_lstrip.
Qed.

(** Reading a run without whitespace extends the current token. *)
Lemma split_ws_from_token (t cur rest : string) :
  no_space t = true ->
  split_ws_from cur (t ++ rest) = split_ws_from (cur ++ t) rest.
Proof.
  revert cur. induction t as [|c t IH]; intros cur H; simpl in *.
  - now rewrite append_nil_r.
  - apply andb_prop in H as [Hc Ht]. apply negb_true_iff in Hc. rewrite Hc.
    rewrite IH by assumption. now rewrite append_assoc.
Qed.

(** Reading whitespace after a token closes it. *)
Lemma split_ws_from_space (w cur rest : string) :
  all_space w = true -> is_empty w = false -> is_empty cur = false ->
  split_ws_from cur (w ++ rest) = cur :: split_ws_from "" rest.
Proof.
  intros Hw Hne Hcur. destruct w as [|c w]; [discriminate|]. simpl in *.
  apply andb_prop in Hw as [Hc Hw]. rewrite Hc, Hcur. f_equal.
  clear Hne Hc c. induction w as [|c w IH]; simpl in *; [reflexivity|].
  apply andb_prop in Hw as [Hc Hw]. rewrite Hc. auto.
Qed.

Lemma split_ws_from_lead (w rest : string) :
  all_space w = true -> split_ws_from "" (w ++ rest) = split_ws_from "" rest.
Proof.
  induction w as [|c w IH]; simpl; intros Hw; [reflexivity|].
  apply andb_prop in Hw as [Hc Hw]. rewrite Hc. auto.
Qed.

(** Reading a run without the separator extends the current field. *)
Lemma split_on_from_field sep (f cur rest : string) :
  str_forall (fun c => negb (Ascii.eqb c sep)) f = true ->
  split_on_from sep cur (f ++ rest) = split_on_from sep (cur ++ f) rest.
Proof.
  revert cur. induction f as [|c f IH]; intros cur H; simpl in *.
  - now rewrite append_nil_r.
  - apply andb_prop in H as [Hc Hf]. apply negb_true_iff in Hc. rewrite Hc.
    rewrite IH by assumption. now rewrite append_assoc.
Qed.

Lemma is_field_no_comma (s : string) :
  is_field s = true ->
  str_forall (fun c => negb (Ascii.eqb c ",")) s = true.
Proof.
  unfold is_field. induction s as [|c s IH]; simpl; [reflexivity|]. intros H.
  apply andb_prop in H as [Hc Hs]. apply andb_prop in Hc as [_ Hc].
  unfold is_comma in Hc. rewrite Hc. auto.
Qed.

Lemma is_field_no_space (s : string) : is_field s = true -> no_space s = true.
Proof.
  unfold is_field, no_space. induction s as [|c s IH]; simpl; [reflexivity|]. intros H.
  apply andb_prop in H as [Hc Hs]. apply andb_prop in Hc as [Hc _].
  rewrite Hc. auto.
Qed.

(** The first two comma-separated fields of [lon,lat] and of
    [lon,lat,rest]. *)
Lemma split_on_two_fields (lon lat : string) (alt : option string) :
  is_field lon = true -> is_field lat = true ->
  exists more,
    split_on ","
      (lon ++ "," ++ lat ++ match alt with Some a => "," ++ a | None => "" end)
    = lon :: lat :: more.
Proof.
  intros Hlon Hlat. unfold split_on.
  rewrite split_on_from_field by now apply is_field_no_comma.
  simpl. rewrite split_on_from_field by now apply is_field_no_comma.
  simpl. destruct alt as [a|]; simpl; eauto.
Qed.

(* ================================================================== *)
(** * Loops *)

Lemma for_each_app {A S} (xs ys : list A) (s : S) body :
  for_each (xs ++ ys) s body = s' <- for_each xs s body ;; for_each ys s' body.
Proof.
  revert s. induction xs as [|x xs IH]; intros s; simpl; [reflexivity|].
  destruct (body s x); simpl; auto.
Qed.

(** A property of the state that every step of the loop preserves holds
    of the final state. *)
Lemma for_each_invariant {A S} (P : S -> Prop) (xs : list A) body :
  (forall s x s', P s -> body s x = Ok s' -> P s') ->
  forall s s', P s -> for_each xs s body = Ok s' -> P s'.
Proof.
  intros Hstep. induction xs as [|x xs IH]; simpl; intros s s' Hs Hrun.
  - now inversion Hrun; subst.
  - destruct (body s x) as [s1|e] eqn:E; simpl in Hrun; [|discriminate].
    eapply IH; [|exact Hrun]. eapply Hstep; eauto.
Qed.

(* ================================================================== *)
(** * parse_coordinates *)

Lemma parse_point_ok (t : string) (coords : list coord) :
  token_ok t = true -> parse_point coords t = Ok (coords ++ token_coords t)%list.
Proof.
  unfold token_ok, token_coords, parse_point.
  destruct (split_on "," t) as [|f0 [|f1 more]]; simpl;
    try (intros _; now rewrite app_nil_r).
  unfold py_float.
  destruct (float_of_string f0), (float_of_string f1); simpl;
    try discriminate; reflexivity.
Qed.

Lemma parse_point_bad (t : string) (coords : list coord) :
  token_ok t = false -> exists e, parse_point coords t = Raise e.
Proof.
  unfold token_ok, parse_point.
  destruct (split_on "," t) as [|f0 [|f1 more]]; simpl; try discriminate.
  unfold py_float.
  destruct (float_of_string f0), (float_of_string f1); simpl;
    try discriminate; eauto.
Qed.

Lemma parse_points_ok (ts : list string) (acc : list coord) :
  forallb token_ok ts = true ->
  for_each ts acc parse_point = Ok (acc ++ flat_map token_coords ts)%list.
Proof.
  revert acc. induction ts as [|t ts IH]; simpl; intros acc H.
  - now rewrite app_nil_r.
  - apply andb_prop in H as [Ht Hts]. rewrite parse_point_ok by assumption.
    simpl. rewrite IH by assumption. now rewrite app_assoc.
Qed.

Lemma parse_points_bad (ts : list string) (acc : list coord) :
  forallb token_ok ts = false -> exists e, for_each ts acc parse_point = Raise e.
Proof.
  revert acc. induction ts as [|t ts IH]; simpl; intros acc H; [discriminate|].
  destruct (token_ok t) eqn:Ht; simpl in H.
  - rewrite parse_point_ok by assumption. simpl. auto.
  - destruct (parse_point_bad t acc Ht) as [e He]. rewrite He. simpl. eauto.
Qed.

(** [parse_coordinates] succeeds exactly on the texts all of whose tokens
    pass [token_ok], and then returns the pairs of the tokens in order. *)
Lemma parse_coordinates_spec (s : string) (coords : list coord) :
  parse_coordinates s = Ok coords <->
  forallb token_ok (split_ws s) = true /\
  coords = flat_map token_coords (split_ws s).
Proof.
  unfold parse_coordinates. rewrite split_ws_strip.
  destruct (forallb token_ok (split_ws s)) eqn:E.
  - rewrite parse_points_ok by assumption. simpl. split.
    + intros H. inversion H. auto.
    + intros [_ ->]. reflexivity.
  - destruct (parse_points_bad _ [] E) as [e He]. rewrite He. split.
    + discriminate.
    + intros [H _]. discriminate.
Qed.

Lemma parse_coordinates_total (s : string) :
  parse_coordinates s = Ok (flat_map token_coords (split_ws s)) \/
  exists e, parse_coordinates s = Raise e.
Proof.
  destruct (parse_coordinates s) as [c|e] eqn:E; [left|right; eauto].
  apply parse_coordinates_spec in E as [_ ->]. reflexivity.
Qed.

(** Every coordinate [parse_coordinates] returns is a list of two floats. *)
Lemma token_coords_pairs (t : string) :
  Forall (fun c => List.length c = 2%nat) (token_coords t).
Proof.
  unfold token_coords. destruct (split_on "," t) as [|f0 [|f1 more]]; auto.
  destruct (float_of_string f0), (float_of_string f1); auto.
Qed.

Lemma parse_coordinates_pairs (s : string) (coords : list coord) :
  parse_coordinates s = Ok coords ->
  Forall (fun c => List.length c = 2%nat) coords.
Proof.
  intros H. apply parse_coordinates_spec in H as [_ ->].
  induction (split_ws s) as [|t ts IH]; simpl; [constructor|].
  apply Forall_app. split; [apply token_coords_pairs | exact IH].
Qed.

(** The tokens of a text written as [coord_text]. *)
Lemma split_ws_coord_text (ts : list coord_token) (trail cur : string) :
  Forall token_valid ts ->
  Forall (fun t => is_empty (ct_sep t) = false) ts ->
  all_space trail = true ->
  is_empty cur = false ->
  split_ws_from cur (coord_text ts ++ trail) = cur :: map token_text ts.
Proof.
  intros Hv. revert cur. induction Hv as [|t ts Ht Hts IH]; intros cur Hs Htr Hcur.
  - simpl. destruct trail as [|c w]; simpl in *.
    + now rewrite Hcur.
    + apply andb_prop in Htr as [Hc Hw]. rewrite Hc, Hcur. f_equal.
      clear Hc. induction w as [|c' w IHw]; simpl in *; [reflexivity|].
      apply andb_prop in Hw as [Hc' Hw]. rewrite Hc'. auto.
  - inversion Hs as [|? ? Hsep Hs']; subst. simpl coord_text.
    destruct Ht as (Hws & Hlon & Hlat & Halt & _ & _).
    rewrite !append_assoc.
    rewrite split_ws_from_space by assumption. simpl map. f_equal.
    rewrite split_ws_from_token.
    + apply IH; auto. simpl. unfold token_text.
      destruct (ct_lon t); reflexivity.
    + unfold token_text, no_space. rewrite !str_forall_append.
      apply is_field_no_space in Hlon, Hlat. unfold no_space in *.
      rewrite Hlon, Hlat. simpl.
      destruct (ct_alt t) as [a|]; simpl; [|reflexivity].
      unfold no_space in Halt. now rewrite Halt.
Qed.

Lemma token_text_nonempty (t : coord_token) : is_empty (token_text t) = false.
Proof. unfold token_text. destruct (ct_lon t); reflexivity. Qed.

Lemma token_text_no_space (t : coord_token) :
  token_valid t -> no_space (token_text t) = true.
Proof.
  intros (Hws & Hlon & Hlat & Halt & _ & _).
  unfold token_text, no_space. rewrite !str_forall_append.
  apply is_field_no_space in Hlon, Hlat. unfold no_space in *.
  rewrite Hlon, Hlat. simpl.
  destruct (ct_alt t) as [a|]; simpl; [|reflexivity]. now rewrite Halt.
Qed.

Lemma split_ws_text (ts : list coord_token) (trail : string) :
  Forall token_valid ts ->
  Forall (fun t => is_empty (ct_sep t) = false) (tl ts) ->
  all_space trail = true ->
  split_ws (coord_text ts ++ trail) = map token_text ts.
Proof.
  intros Hv Hs Htr. unfold split_ws. destruct ts as [|t ts]; simpl in *.
  - now apply (split_ws_from_lead trail "") in Htr; rewrite append_nil_r in Htr.
  - inversion Hv as [|? ? Ht Hts]; subst.
    rewrite !append_assoc. rewrite split_ws_from_lead by apply Ht.
    rewrite split_ws_from_token by now apply token_text_no_space.
    simpl. apply split_ws_coord_text; auto using token_text_nonempty.
Qed.

Lemma token_valid_coords (t : coord_token) :
  token_valid t ->
  token_ok (token_text t) = true /\
  token_coords (token_text t) = [[ct_lat_value t; ct_lon_value t]].
Proof.
  intros (Hws & Hlon & Hlat & Halt & Vlon & Vlat).
  unfold token_ok, token_coords, token_text.
  destruct (split_on_two_fields (ct_lon t) (ct_lat t) (ct_alt t) Hlon Hlat)
    as [more ->].
  rewrite Vlon, Vlat. auto.
Qed.

Lemma parse_point_short (t : string) (coords : list coord) :
  has_two_fields t = false -> parse_point coords t = Ok coords.
Proof. unfold has_two_fields, parse_point. now intros ->. Qed.

Lemma parse_points_filter (ts : list string) (acc : list coord) :
  for_each ts acc parse_point =
  for_each (filter has_two_fields ts) acc parse_point.
Proof.
  revert acc. induction ts as [|t ts IH]; intros acc; simpl; [reflexivity|].
  destruct (has_two_fields t) eqn:E; simpl.
  - destruct (parse_point acc t); simpl; auto.
  - rewrite parse_point_short by assumption. simpl. apply IH.
Qed.

Lemma token_ok_iff (t : string) :
  token_ok t = true <->
  (has_two_fields t = true ->
   float_of_string (nth 0 (split_on "," t) "") <> None /\
   float_of_string (nth 1 (split_on "," t) "") <> None).
Proof.
  unfold token_ok, has_two_fields.
  destruct (split_on "," t) as [|f0 [|f1 more]]; simpl;
    try (split; [intros _ H; discriminate H | reflexivity]).
  destruct (float_of_string f0), (float_of_string f1); split; intros H;
    try reflexivity; try discriminate H;
    try (intros _; split; discriminate);
    destruct (H eq_refl) as [H0 H1]; congruence.
Qed.

(** C3, as stated, fails: the token [-98.21,] has one numeric field, and
    the text is not parsed without it; [float('')] raises. *)
Lemma parse_coordinates_raises_on_empty_field :
  parse_coordinates "-98.20,26.07 -98.21," = Raise (FloatValueError "").
Proof. vm_compute. reflexivity. Qed.

(** C4: the scenario of the specification, and every text of tokens
    [lon,lat[,alt]] separated by whitespace: the pairs come back in the
    order of the text, each as [[lat, lon]], the altitude dropped. *)
Theorem parse_coordinates_swaps_lon_lat :
  parse_coordinates "-98.20,26.07 -98.21,26.08 -98.20,26.08" =
    Ok [[lit_26_07; lit_m98_20]; [lit_26_08; lit_m98_21];
        [lit_26_08; lit_m98_20]]
  /\ forall (ts : list coord_token) (trail : string),
       Forall token_valid ts ->
       Forall (fun t => is_empty (ct_sep t) = false) (tl ts) ->
       all_space trail = true ->
       parse_coordinates (coord_text ts ++ trail) =
         Ok (map (fun t => [ct_lat_value t; ct_lon_value t]) ts).
Proof.
  split; [vm_compute; reflexivity|].
  intros ts trail Hv Hs Htr. apply parse_coordinates_spec.
  rewrite split_ws_text by assumption. clear Hs Htr.
  induction Hv as [|t ts Ht Hts [IH1 IH2]]; simpl; [auto|].
  destruct (token_valid_coords t Ht) as [Hok Hc].
  rewrite Hok, Hc, IH1. simpl. split; [reflexivity|]. now rewrite IH2.
Qed.

Lemma parse_coordinates_swaps_lon_lat_witness :
  parse_coordinates "-98.20,26.07,0 	-98.21,26.08,15.5
" = Ok [[lit_26_07; lit_m98_20]; [lit_26_08; lit_m98_21]].
Proof.
  apply (proj2 parse_coordinates_swaps_lon_lat
    [ mkToken "" "-98.20" "26.07" (Some "0") lit_m98_20 lit_26_07;
      mkToken " 	" "-98.21" "26.08" (Some "15.5") lit_m98_21 lit_26_08 ]
    (String (ascii_of_nat 10) "")).
  - repeat constructor; vm_compute; reflexivity.
  - repeat constructor.
  - reflexivity.
Defined.

(* ================================================================== *)
(** * Geometry extractors *)

Arguments kml : simpl never.

Lemma for_each_cons {A S} (x : A) (r : list A) (s : S) body :
  for_each (x :: r) s body = s' <- body s x ;; for_each r s' body.
Proof. reflexivity. Qed.

Lemma bind_ok {A B} (a : A) (k : A -> result B) : bind (Ok a) k = k a.
Proof. reflexivity. Qed.

Lemma bind_raise {A B} (e : exn) (k : A -> result B) :
  bind (Raise e) k = Raise e.
Proof. reflexivity. Qed.

Lemma traverse_cons {A B} (f : A -> result B) (x : A) (r : list A) :
  traverse f (x :: r) = y <- f x ;; ys <- traverse f r ;; Ok (y :: ys).
Proof. reflexivity. Qed.

Lemma parse_polygon_loop (ps : list element) (acc : list geometry) :
  for_each ps acc
    (fun polygons polygon =>
       match find_path3 polygon (kml "outerBoundaryIs") (kml "LinearRing")
               (kml "coordinates") with
       | Some outer =>
           match truthy_text outer with
           | Some t =>
               coords <- parse_coordinates t ;;
               if (3 <=? List.length coords)%nat
               then Ok (polygons ++ [mkGeometry coords "Polygon"])%list
               else Ok polygons
           | None => Ok polygons
           end
       | None => Ok polygons
       end)
  = rings <- traverse parse_coordinates
               (flat_map
                  (fun p => match ring_text p with Some t => [t] | None => [] end)
                  ps) ;;
    Ok (acc ++ map polygon_of (filter keeps_ring rings))%list.
Proof.
  revert acc. induction ps as [|p ps IH]; intros acc.
  - simpl. now rewrite app_nil_r.
  - rewrite for_each_cons. cbv beta. cbn [flat_map]. unfold ring_text at 1.
    destruct (find_path3 p _ _ _) as [outer|];
      [|rewrite bind_ok; apply IH].
    destruct (truthy_text outer) as [t|]; [|rewrite bind_ok; apply IH].
    change ([t] ++ ?l)%list with (t :: l). rewrite traverse_cons.
    destruct (parse_coordinates t) as [coords|e]; rewrite ?bind_raise;
      [|reflexivity].
    rewrite !bind_ok.
    destruct (3 <=? List.length coords)%nat eqn:E; rewrite bind_ok, IH;
      destruct (traverse parse_coordinates _) as [rings|e];
      rewrite ?bind_raise, ?bind_ok; try reflexivity;
      cbn [filter]; unfold keeps_ring at 2; rewrite E; [|reflexivity].
    cbn [map]. now rewrite <- app_assoc.
Qed.

(** [parse_polygon] as a filter over the parsed rings. *)
Lemma parse_polygon_filter (placemark : element) :
  parse_polygon placemark =
  rings <- traverse parse_coordinates (ring_texts placemark) ;;
  Ok (map polygon_of (filter keeps_ring rings)).
Proof. unfold parse_polygon. now rewrite parse_polygon_loop. Qed.

Lemma traverse_In {A B} (f : A -> result B) (xs : list A) (ys : list B) :
  traverse f xs = Ok ys ->
  (forall x, In x xs -> exists y, f x = Ok y /\ In y ys) /\
  (forall y, In y ys -> exists x, In x xs /\ f x = Ok y).
Proof.
  revert ys. induction xs as [|x xs IH]; simpl; intros ys H.
  - inversion H; subst. split; intros ? [].
  - destruct (f x) as [y|] eqn:Ex; simpl in H; [|discriminate].
    destruct (traverse f xs) as [ys'|] eqn:Et; simpl in H; [|discriminate].
    inversion H; subst. destruct (IH ys' eq_refl) as [IH1 IH2]. split.
    + intros x' [->|Hin]; [exists y; simpl; auto|].
      destruct (IH1 x' Hin) as [y' [? ?]]. exists y'. simpl. auto.
    + intros y' [->|Hin]; [exists x; simpl; auto|].
      destruct (IH2 y' Hin) as [x' [? ?]]. exists x'. simpl. auto.
Qed.

(** C5: [parse_polygon] returns the parsed outer rings of the placemark's
    polygons that have at least 3 points, in document order, and nothing
    else; a ring that parses to exactly 2 points is dropped and one that
    parses to exactly 3 points is kept. *)
Theorem parse_polygon_keeps_rings_of_3 (placemark : element) :
  parse_polygon placemark =
    (rings <- traverse parse_coordinates (ring_texts placemark) ;;
     Ok (map polygon_of (filter keeps_ring rings)))
  /\ (forall polygons t coords,
        parse_polygon placemark = Ok polygons ->
        In t (ring_texts placemark) ->
        parse_coordinates t = Ok coords ->
        (In (polygon_of coords) polygons <-> (3 <= List.length coords)%nat)
        /\ (List.length coords = 2%nat -> ~ In (polygon_of coords) polygons)
        /\ (List.length coords = 3%nat -> In (polygon_of coords) polygons)).
Proof.
  split; [apply parse_polygon_filter|].
  intros polygons t coords Hp Hin Hc.
  rewrite parse_polygon_filter in Hp.
  destruct (traverse parse_coordinates (ring_texts placemark)) as [rings|] eqn:Et;
    simpl in Hp; [|discriminate].
  inversion Hp; subst polygons; clear Hp.
  assert (Hiff : In (polygon_of coords) (map polygon_of (filter keeps_ring rings))
                 <-> (3 <= List.length coords)%nat).
  { rewrite in_map_iff. split.
    - intros [cs [Heq Hf]]. apply filter_In in Hf as [_ Hk].
      unfold polygon_of in Heq. inversion Heq; subst.
      now apply Nat.leb_le in Hk.
    - intros Hlen. exists coords. split; [reflexivity|]. apply filter_In.
      split; [|now apply Nat.leb_le].
      destruct (proj1 (traverse_In _ _ _ Et) t Hin) as [cs [Hcs Hin']].
      congruence. }
  split; [exact Hiff|]. split; intros Hlen.
  - rewrite Hiff. lia.
  - apply Hiff. lia.
Qed.

Lemma parse_polygon_keeps_rings_of_3_witness :
  let ring s :=
    Element (kml "Polygon") [] None
      [Element (kml "outerBoundaryIs") [] None
         [Element (kml "LinearRing") [] None
            [Element (kml "coordinates") [] (Some s) []]]] in
  let pm :=
    Element (kml "Placemark") [] None [ring "1,2 3,4"; ring "1,2 3,4 5,6"] in
  let two := [[of_int 2; of_int 1]; [of_int 4; of_int 3]] in
  let three := [[of_int 2; of_int 1]; [of_int 4; of_int 3]; [of_int 6; of_int 5]] in
  parse_polygon pm = Ok [polygon_of three]
  /\ ~ In (polygon_of two) [polygon_of three]
  /\ In (polygon_of three) [polygon_of three].
Proof.
  intros ring pm two three.
  assert (Hp : parse_polygon pm = Ok [polygon_of three])
    by (vm_compute; reflexivity).
  split; [exact Hp|]. split.
  - apply (proj2 (parse_polygon_keeps_rings_of_3 pm) _ "1,2 3,4" two Hp).
    + vm_compute. auto.
    + vm_compute. reflexivity.
    + reflexivity.
  - apply (proj2 (parse_polygon_keeps_rings_of_3 pm) _ "1,2 3,4 5,6" three Hp).
    + vm_compute. auto.
    + vm_compute. reflexivity.
    + reflexivity.
Defined.

(* ================================================================== *)
(** * What the extractors return *)

Lemma parse_coordinates_geometry_ok (t : string) (coords : list coord) kind :
  parse_coordinates t = Ok coords -> ~ coords = [] ->
  geometry_ok (mkGeometry coords kind).
Proof.
  intros H Hne. split; [exact Hne|]. simpl.
  now apply parse_coordinates_pairs in H.
Qed.

Lemma Forall_snoc {A} (P : A -> Prop) (l : list A) (x : A) :
  Forall P l -> P x -> Forall P (l ++ [x]).
Proof. intros. apply Forall_app. auto. Qed.

Lemma length_ge_nonempty {A} (l : list A) (n : nat) :
  (S n <=? List.length l)%nat = true -> ~ l = [].
Proof. intros H ->. discriminate. Qed.

Lemma parse_polygon_ok (placemark : element) (gs : list geometry) :
  parse_polygon placemark = Ok gs -> Forall geometry_ok gs.
Proof.
  unfold parse_polygon.
  apply (for_each_invariant (Forall geometry_ok)); [|constructor].
  intros s x s' Hs.
  destruct (find_path3 x _ _ _) as [outer|]; [|now inversion 1; subst].
  destruct (truthy_text outer) as [t|]; [|now inversion 1; subst].
  destruct (parse_coordinates t) as [coords|] eqn:Ec; cbn [bind]; [|discriminate].
  destruct (3 <=? List.length coords)%nat eqn:E; inversion 1; subst; auto.
  apply Forall_snoc; auto.
  eapply parse_coordinates_geometry_ok; eauto using length_ge_nonempty.
Qed.

Lemma parse_linestring_ok (placemark : element) (gs : list geometry) :
  parse_linestring placemark = Ok gs -> Forall geometry_ok gs.
Proof.
  unfold parse_linestring.
  apply (for_each_invariant (Forall geometry_ok)); [|constructor].
  intros s x s' Hs.
  destruct (find x _) as [el|]; [|now inversion 1; subst].
  destruct (truthy_text el) as [t|]; [|now inversion 1; subst].
  destruct (parse_coordinates t) as [coords|] eqn:Ec; cbn [bind]; [|discriminate].
  destruct (2 <=? List.length coords)%nat eqn:E; inversion 1; subst; auto.
  apply Forall_snoc; auto.
  eapply parse_coordinates_geometry_ok; eauto using length_ge_nonempty.
Qed.

Lemma parse_point_geometry_ok (placemark : element) (gs : list geometry) :
  parse_point_geometry placemark = Ok gs -> Forall geometry_ok gs.
Proof.
  unfold parse_point_geometry.
  apply (for_each_invariant (Forall geometry_ok)); [|constructor].
  intros s x s' Hs.
  destruct (find x _) as [el|]; [|now inversion 1; subst].
  destruct (truthy_text el) as [t|]; [|now inversion 1; subst].
  destruct (parse_coordinates t) as [coords|] eqn:Ec; cbn [bind]; [|discriminate].
  destruct coords as [|c0 cs]; inversion 1; subst; auto.
  apply Forall_snoc; auto. split; [discriminate|]. simpl.
  apply parse_coordinates_pairs in Ec. inversion Ec; subst. auto.
Qed.

Lemma parse_geometry_ok kind (placemark : element) (gs : list geometry) :
  parse_geometry kind placemark = Ok gs -> Forall geometry_ok gs.
Proof.
  unfold parse_geometry.
  destruct (str_eqb kind "Polygon"); [apply parse_polygon_ok|].
  destruct (str_eqb kind "LineString"); [apply parse_linestring_ok|].
  destruct (str_eqb kind "Point"); [apply parse_point_geometry_ok|].
  inversion 1. constructor.
Qed.

(** The layers a feature can carry: those of [LAYER_CONFIG], or none in
    the legacy mode. *)
Lemma config_layer_known (folder_id : string) (config : layer_config) :
  In (folder_id, config) LAYER_CONFIG ->
  In (cfg_layer config) (map (fun kv => cfg_layer (snd kv)) LAYER_CONFIG).
Proof. intros H. now apply (in_map (fun kv => cfg_layer (snd kv))) in H. Qed.

Lemma extract_placemark_ok (config : layer_config) fs placemark fs' :
  Forall (feature_from (Some (cfg_layer config))) fs ->
  extract_placemark config fs placemark = Ok fs' ->
  Forall (feature_from (Some (cfg_layer config))) fs'.
Proof.
  unfold extract_placemark. intros Hfs.
  destruct (match cfg_filter config with Some _ => _ | None => _ end);
    [now inversion 1; subst|].
  destruct (parse_geometry _ placemark) as [gs|] eqn:Eg; cbn [bind]; [|discriminate].
  apply parse_geometry_ok in Eg.
  destruct gs as [|g gs]; inversion 1; subst; auto.
  apply Forall_snoc; auto. split; [|reflexivity]. split; [discriminate|exact Eg].
Qed.

Lemma extract_layer_ok (root : element) folder_id config fs :
  extract_layer root folder_id config = Ok fs ->
  Forall (feature_from (Some (cfg_layer config))) fs.
Proof.
  unfold extract_layer. destruct (find_folder root folder_id) as [folder|].
  - apply (for_each_invariant (Forall (feature_from (Some (cfg_layer config)))));
      [|constructor].
    intros s x s' Hs. now apply extract_placemark_ok.
  - inversion 1. constructor.
Qed.

Lemma feature_from_config_extracted (config : layer_config) (f : feature) :
  In (cfg_layer config) known_layers ->
  feature_from (Some (cfg_layer config)) f -> extracted f.
Proof.
  intros Hin [Hok Hl]. split; [exact Hok|]. unfold layer_of. now rewrite Hl.
Qed.

Lemma LAYER_CONFIG_known :
  Forall (fun kv => In (cfg_layer (snd kv)) known_layers) LAYER_CONFIG.
Proof. repeat constructor; simpl; tauto. Qed.

Lemma parse_kml_by_layers_extracted (root : element) layer_filter fs :
  parse_kml_by_layers root layer_filter = Ok fs -> Forall extracted fs.
Proof.
  unfold parse_kml_by_layers. generalize LAYER_CONFIG_known.
  generalize LAYER_CONFIG as cfg. intros cfg Hcfg.
  assert (Hgen : forall acc, Forall extracted acc ->
            forall fs',
              for_each cfg acc
                (fun all_features entry =>
                   let '(folder_id, config) := entry in
                   let skip :=
                     match filter_active layer_filter with
                     | Some names => negb (str_in (cfg_layer config) names)
                     | None => false
                     end in
                   if skip then Ok all_features
                   else
                     features <- extract_layer root folder_id config ;;
                     Ok (all_features ++ features)%list) = Ok fs' ->
              Forall extracted fs').
  { induction Hcfg as [|[folder_id config] cfg Hk Hcfg IH]; intros acc Hacc fs'.
    - simpl. now inversion 1; subst.
    - rewrite for_each_cons. cbv beta iota zeta.
      destruct (match filter_active layer_filter with
                | Some names => negb (str_in (cfg_layer config) names)
                | None => false
                end).
      + rewrite bind_ok. apply IH, Hacc.
      + destruct (extract_layer root folder_id config) as [features|] eqn:E;
          rewrite ?bind_raise, ?bind_ok; [|discriminate].
        apply IH. apply Forall_app. split; [exact Hacc|].
        apply extract_layer_ok in E.
        eapply Forall_impl; [|exact E].
        intros f. now apply feature_from_config_extracted. }
  apply Hgen. constructor.
Qed.

Lemma parse_kml_placemarks_extracted (root : element) fs :
  parse_kml_placemarks root = Ok fs -> Forall extracted fs.
Proof.
  unfold parse_kml_placemarks.
  apply (for_each_invariant (Forall extracted)); [|constructor].
  intros s x s' Hs. unfold legacy_placemark.
  destruct (parse_polygon x) as [gs|] eqn:Eg; cbn [bind]; [|discriminate].
  apply parse_polygon_ok in Eg.
  destruct gs as [|g gs]; inversion 1; subst; auto.
  apply Forall_snoc; auto. split.
  - split; [discriminate|exact Eg].
  - unfold layer_of, known_layers. simpl. tauto.
Qed.

(** Both extraction modes return features with at least one geometry,
    tagged with a layer of the configuration or with none. *)
Lemma extract_features_extracted (root : element) (a : arguments) fs :
  extract_features root a = Ok fs -> Forall extracted fs.
Proof.
  unfold extract_features. destruct (arg_legacy a).
  - apply parse_kml_placemarks_extracted.
  - apply parse_kml_by_layers_extracted.
Qed.

(* ================================================================== *)
(** * Dicts *)

Lemma str_eqb_refl (s : string) : str_eqb s s = true.
Proof. apply String.eqb_refl. Qed.

Lemma str_eqb_eq (a b : string) : str_eqb a b = true <-> a = b.
Proof. apply String.eqb_eq. Qed.

Lemma str_eqb_neq (a b : string) : str_eqb a b = false <-> a <> b.
Proof. apply String.eqb_neq. Qed.

Lemma dict_get_set_same {V} (d : list (string * V)) k v :
  dict_get (dict_set d k v) k = Some v.
Proof.
  induction d as [|[k' v'] d IH]; simpl.
  - now rewrite str_eqb_refl.
  - destruct (str_eqb k' k) eqn:E; simpl; rewrite E; auto.
Qed.

Lemma dict_get_set_other {V} (d : list (string * V)) k k' v :
  k <> k' -> dict_get (dict_set d k v) k' = dict_get d k'.
Proof.
  intros Hne. induction d as [|[k0 v0] d IH]; simpl.
  - destruct (str_eqb k k') eqn:E; [|reflexivity].
    apply str_eqb_eq in E. contradiction.
  - destruct (str_eqb k0 k) eqn:E; simpl.
    + apply str_eqb_eq in E. subst k0.
      destruct (str_eqb k k') eqn:E'; [|reflexivity].
      apply str_eqb_eq in E'. contradiction.
    + now rewrite IH.
Qed.

(* ================================================================== *)
(** * The assembler *)

Lemma count_layer_app layer (xs ys : list feature) :
  count_layer layer (xs ++ ys) = (count_layer layer xs + count_layer layer ys)%nat.
Proof. unfold count_layer. now rewrite filter_app, length_app. Qed.

Lemma count_layer_same (f : feature) :
  count_layer (layer_of f) [f] = 1%nat.
Proof. unfold count_layer. simpl. now rewrite str_eqb_refl. Qed.

Lemma count_layer_other (f : feature) layer :
  layer_of f <> layer -> count_layer layer [f] = 0%nat.
Proof.
  intros H. unfold count_layer. simpl.
  apply str_eqb_neq in H. now rewrite H.
Qed.

Lemma assemble_lot_step (before : list feature) lots counts (f : feature) :
  counts_of before counts ->
  exists counts',
    assemble_lot (lots, counts) f =
      ((lots ++
          [mkLot (expected_id (layer_of f) before) (f_name f) (f_description f)
             (layer_of f) (f_type f) None (f_polygons f) None None 0])%list,
       counts')
    /\ counts_of (before ++ [f]) counts'.
Proof.
  intros Hc. unfold assemble_lot. fold (layer_of f).
  eexists. split.
  - rewrite dict_get_set_same. simpl. rewrite Hc.
    unfold expected_id. now rewrite Nat.add_1_r.
  - intros layer. rewrite count_layer_app.
    destruct (string_dec (layer_of f) layer) as [<-|Hne].
    + rewrite dict_get_set_same, count_layer_same. simpl. lia.
    + rewrite dict_get_set_other by assumption.
      rewrite count_layer_other by assumption. rewrite Hc. lia.
Qed.

Lemma assemble_fold (raw before : list feature) lots counts :
  counts_of before counts ->
  fst (fold_left assemble_lot raw (lots, counts)) =
  (lots ++ lots_from before raw)%list.
Proof.
  revert before lots counts.
  induction raw as [|f raw IH]; intros before lots counts Hc; cbn [fold_left lots_from].
  - simpl. now rewrite app_nil_r.
  - destruct (assemble_lot_step before lots counts f Hc) as [counts' [E Hc']].
    rewrite E. rewrite (IH _ _ _ Hc'). now rewrite <- app_assoc.
Qed.

Lemma assemble_lots_spec (raw : list feature) :
  assemble_lots raw = lots_from [] raw.
Proof.
  unfold assemble_lots. rewrite (assemble_fold raw []); [reflexivity|].
  intros layer. reflexivity.
Qed.

Lemma lots_from_length (raw before : list feature) :
  List.length (lots_from before raw) = List.length raw.
Proof.
  revert before. induction raw as [|f raw IH]; intros before; simpl; auto.
Qed.

Lemma lots_from_polygons (raw before : list feature) :
  map lot_polygons (lots_from before raw) = map f_polygons raw.
Proof.
  revert before. induction raw as [|f raw IH]; intros before; simpl;
    [reflexivity|]. now rewrite IH.
Qed.

Lemma lots_from_layers (raw before : list feature) :
  map lot_layer (lots_from before raw) = map layer_of raw.
Proof.
  revert before. induction raw as [|f raw IH]; intros before; simpl;
    [reflexivity|]. now rewrite IH.
Qed.

Lemma lots_from_nth (raw before : list feature) (i : nat) (f : feature) :
  nth_error raw i = Some f ->
  exists l,
    nth_error (lots_from before raw) i = Some l /\
    lot_layer l = layer_of f /\
    lot_polygons l = f_polygons f /\
    lot_id l = expected_id (layer_of f) (before ++ firstn i raw).
Proof.
  revert before i. induction raw as [|g raw IH]; intros before i H.
  - destruct i; discriminate.
  - destruct i as [|i]; simpl in H.
    + inversion H; subst. eexists. split; [reflexivity|].
      simpl. now rewrite app_nil_r.
    + destruct (IH (before ++ [g])%list i H) as [l [Hn [Hl [Hp Hid]]]].
      exists l. simpl. split; [exact Hn|]. split; [exact Hl|].
      split; [exact Hp|]. now rewrite <- app_assoc in Hid.
Qed.

(** The records of a run have at least one geometry each, and every
    geometry at least one coordinate. *)
Lemma run_lots_ok (lib : library) (env : environment) (z : zip_archive)
  (a : arguments) (doc : document) :
  run lib env z a = Ok doc ->
  Forall (fun l => ~ lot_polygons l = [] /\
                   Forall geometry_ok (lot_polygons l)) (lots doc).
Proof.
  unfold run.
  destruct (extract_kml_from_kmz lib z) as [kml_content|]; cbn [bind];
    [|discriminate].
  destruct (fromstring lib kml_content) as [root|]; cbn [bind or_raise];
    [|discriminate].
  destruct (extract_features root a) as [raw|] eqn:E; cbn [bind];
    [|discriminate].
  inversion 1; subst doc. cbn [lots build_lots_json].
  rewrite assemble_lots_spec. apply extract_features_extracted in E.
  apply Forall_forall. intros l Hl.
  assert (Hin : In (lot_polygons l) (map f_polygons raw)).
  { rewrite <- (lots_from_polygons raw []). now apply in_map. }
  apply in_map_iff in Hin as [f [Hf Hin]]. rewrite <- Hf.
  rewrite Forall_forall in E. exact (proj1 (E f Hin)).
Qed.

(** C9: in both extraction modes every record of the output has at least
    one geometry (and every geometry at least one coordinate); a placemark
    all of whose geometries are discarded adds no record. *)
Theorem every_lot_has_geometry :
  (forall (lib : library) (env : environment) (z : zip_archive)
          (a : arguments) (doc : document),
      run lib env z a = Ok doc ->
      Forall (fun l => ~ lot_polygons l = [] /\
                       Forall geometry_ok (lot_polygons l)) (lots doc))
  /\ (forall (config : layer_config) (features : list feature)
             (placemark : element),
        parse_geometry (cfg_geometry config) placemark = Ok [] ->
        extract_placemark config features placemark = Ok features)
  /\ (forall (lots : list feature) (placemark : element),
        parse_polygon placemark = Ok [] ->
        legacy_placemark lots placemark = Ok lots).
Proof.
  split; [|split].
  - apply run_lots_ok.
  - intros config features placemark H. unfold extract_placemark.
    destruct (match cfg_filter config with Some _ => _ | None => _ end);
      [reflexivity|].
    now rewrite H.
  - intros lots placemark H. unfold legacy_placemark. now rewrite H.
Qed.

(* ================================================================== *)
(** * Identifiers *)

Lemma digits_string_of_uint (d : Decimal.uint) :
  str_forall is_digit (NilEmpty.string_of_uint d) = true.
Proof. induction d; simpl; auto. Qed.

Lemma format_03d_digits (n : nat) : str_forall is_digit (format_03d n) = true.
Proof. apply digits_string_of_uint. Qed.

Lemma of_uint_zero_pad (k : nat) (d : Decimal.uint) :
  Nat.of_uint (zero_pad k d) = Nat.of_uint d.
Proof. induction k as [|k IH]; simpl; auto. Qed.

Lemma format_03d_inj (n m : nat) : format_03d n = format_03d m -> n = m.
Proof.
  unfold format_03d. intros H.
  apply (f_equal NilEmpty.uint_of_string) in H.
  rewrite !NilEmpty.usu in H. inversion H as [H'].
  apply (f_equal Nat.of_uint) in H'.
  now rewrite !of_uint_zero_pad, !Unsigned.of_to in H'.
Qed.

(** An id is cut at its last underscore: the counter holds digits only. *)
Lemma id_split (p1 p2 d1 d2 : string) :
  str_forall is_digit d1 = true -> str_forall is_digit d2 = true ->
  p1 ++ "_" ++ d1 = p2 ++ "_" ++ d2 -> p1 = p2 /\ d1 = d2.
Proof.
  intros H1 H2. revert p2.
  induction p1 as [|c p1 IH]; intros [|c' p2] H; simpl in H.
  - inversion H. auto.
  - inversion H as [[Hc Hd]]. rewrite Hd, str_forall_append in H1.
    apply andb_prop in H1 as [_ H1]. discriminate.
  - inversion H as [[Hc Hd]]. rewrite <- Hd, str_forall_append in H2.
    apply andb_prop in H2 as [_ H2]. discriminate.
  - inversion H as [[Hc Hd]]. destruct (IH p2 Hd) as [-> ->]. auto.
Qed.

Lemma expected_id_inj (l1 l2 : string) (n1 n2 : nat) :
  id_prefix l1 ++ "_" ++ format_03d n1 = id_prefix l2 ++ "_" ++ format_03d n2 ->
  id_prefix l1 = id_prefix l2 /\ n1 = n2.
Proof.
  intros H. apply id_split in H as [Hp Hd]; auto using format_03d_digits.
  split; [exact Hp|]. now apply format_03d_inj.
Qed.

(** The ids given after [before] carry counters beyond those of [before]. *)
Lemma lots_from_ids (raw before : list feature) (id : string) :
  In id (map lot_id (lots_from before raw)) ->
  exists f n,
    In f raw /\ id = id_prefix (layer_of f) ++ "_" ++ format_03d n /\
    (count_layer (layer_of f) before < n)%nat.
Proof.
  revert before. induction raw as [|g raw IH]; intros before; simpl; [tauto|].
  intros [<-|Hin].
  - exists g, (S (count_layer (layer_of g) before)). auto.
  - destruct (IH _ Hin) as [f [n [Hf [Hid Hn]]]]. exists f, n.
    split; [auto|]. split; [exact Hid|].
    rewrite count_layer_app in Hn. lia.
Qed.

(** The ids are pairwise distinct as soon as the layers that occur have
    pairwise distinct prefixes. *)
Lemma lots_from_NoDup (raw before : list feature) :
  (forall f g, In f raw -> In g raw ->
     id_prefix (layer_of f) = id_prefix (layer_of g) ->
     layer_of f = layer_of g) ->
  NoDup (map lot_id (lots_from before raw)).
Proof.
  revert before. induction raw as [|f raw IH]; intros before Hinj; simpl.
  - constructor.
  - constructor.
    + intros Hin. apply lots_from_ids in Hin as [g [n [Hg [Hid Hn]]]].
      unfold expected_id in Hid. apply expected_id_inj in Hid as [Hp Hn'].
      assert (Hl : layer_of f = layer_of g) by (apply Hinj; simpl; auto).
      rewrite <- Hl, count_layer_app, count_layer_same in Hn. lia.
    + apply IH. intros g h Hg Hh. apply Hinj; simpl; auto.
Qed.

Lemma known_layers_prefixes (l1 l2 : string) :
  In l1 known_layers -> In l2 known_layers ->
  id_prefix l1 = id_prefix l2 -> l1 = l2.
Proof.
  unfold known_layers. simpl.
  intros [<-|[<-|[<-|[<-|[<-|[]]]]]] [<-|[<-|[<-|[<-|[<-|[]]]]]];
    vm_compute; intros H; try reflexivity; discriminate H.
Qed.

(** C1: the record of the i-th feature carries the id
    [<prefix>_<counter:03d>], where the counter is 1 plus the number of
    earlier features of the same layer; and the ids of the records built
    from the features either extraction mode returns are pairwise
    distinct. *)
Theorem lot_ids_follow_layer_counters (env : environment)
  (raw : list feature) (source : string) (layer_filter : option (list string)) :
  let doc := build_lots_json env raw source layer_filter in
  List.length (lots doc) = List.length raw
  /\ (forall i f,
        nth_error raw i = Some f ->
        exists l,
          nth_error (lots doc) i = Some l /\
          lot_layer l = layer_of f /\
          lot_id l =
            id_prefix (layer_of f) ++ "_" ++
            format_03d (S (count_layer (layer_of f) (firstn i raw))))
  /\ (forall root a,
        extract_features root a = Ok raw ->
        NoDup (map lot_id (lots doc))).
Proof.
  cbv zeta. cbn [lots build_lots_json]. rewrite assemble_lots_spec.
  split; [apply lots_from_length|]. split.
  - intros i f H.
    destruct (lots_from_nth raw [] i f H) as [l [Hn [Hl [_ Hid]]]].
    exists l. auto.
  - intros root a H. apply extract_features_extracted in H.
    rewrite Forall_forall in H. apply lots_from_NoDup.
    intros f g Hf Hg. apply known_layers_prefixes.
    + exact (proj2 (H f Hf)).
    + exact (proj2 (H g Hg)).
Qed.

Lemma lot_ids_follow_layer_counters_witness :
  extract_features sample_root sample_arguments = Ok sample_features
  /\ map lot_id
       (lots (build_lots_json sample_env sample_features "maps/FIELD.kmz" None))
     = ["phas_001"; "indu_001"; "indu_002"]
  /\ NoDup
       (map lot_id
          (lots (build_lots_json sample_env sample_features "maps/FIELD.kmz" None))).
Proof.
  assert (H : extract_features sample_root sample_arguments = Ok sample_features)
    by (vm_compute; reflexivity).
  split; [exact H|]. split; [vm_compute; reflexivity|].
  exact (proj2 (proj2 (lot_ids_follow_layer_counters sample_env sample_features
                         "maps/FIELD.kmz" None))
           sample_root sample_arguments H).
Defined.

Lemma every_lot_has_geometry_witness :
  exists doc,
    run sample_library sample_env sample_zip sample_arguments = Ok doc
    /\ List.length (lots doc) = 3%nat
    /\ Forall (fun l => ~ lot_polygons l = [] /\
                        Forall geometry_ok (lot_polygons l)) (lots doc).
Proof.
  eexists. split; [vm_compute; reflexivity|]. split; [reflexivity|].
  apply (proj1 every_lot_has_geometry sample_library sample_env sample_zip
           sample_arguments).
  vm_compute. reflexivity.
Defined.

(* ================================================================== *)
(** * Archive reader *)

Lemma filter_head_find {A} (p : A -> bool) (l : list A) :
  hd_error (filter p l) = List.find p l.
Proof.
  induction l as [|x l IH]; simpl; [reflexivity|].
  destruct (p x); simpl; auto.
Qed.

Lemma str_in_In (x : string) (xs : list string) :
  str_in x xs = true <-> In x xs.
Proof.
  unfold str_in. rewrite existsb_exists. split.
  - intros [y [Hy He]]. apply str_eqb_eq in He. now subst.
  - intros H. exists x. split; [exact H|apply str_eqb_refl].
Qed.

Lemma doc_kml_in_kml_files (names : list string) :
  str_in "doc.kml" (filter (fun f => endswith f ".kml") names) = true <->
  In "doc.kml" names.
Proof.
  rewrite str_in_In, filter_In. split; [tauto|]. intros H. split; auto.
Qed.

(** C7: the reader raises its [ValueError] exactly when no entry name ends
    in [.kml]; otherwise it reads the entry named [doc.kml] when there is
    one, and the first entry whose name ends in [.kml] when there is none,
    and returns the text that the bytes of this entry decode to (or raises
    what reading or decoding raises). *)
Theorem extract_kml_prefers_doc_kml (lib : library) (z : zip_archive) :
  (extract_kml_from_kmz lib z = Raise NO_KML <->
   forall name, In name (namelist z) -> endswith name ".kml" = false)
  /\ (In "doc.kml" (namelist z) ->
      extract_kml_from_kmz lib z =
        match read z "doc.kml" with
        | Some data =>
            match decode_utf8 lib data with
            | Some text => Ok text
            | None => Raise UnicodeDecodeError
            end
        | None => Raise (ZipReadError "doc.kml")
        end)
  /\ (~ In "doc.kml" (namelist z) ->
      forall first,
        List.find (fun f => endswith f ".kml") (namelist z) = Some first ->
        extract_kml_from_kmz lib z =
          match read z first with
          | Some data =>
              match decode_utf8 lib data with
              | Some text => Ok text
              | None => Raise UnicodeDecodeError
              end
          | None => Raise (ZipReadError first)
          end)
  /\ (forall text,
        extract_kml_from_kmz lib z = Ok text ->
        exists kml_name data,
          In kml_name (namelist z) /\ endswith kml_name ".kml" = true /\
          read z kml_name = Some data /\ decode_utf8 lib data = Some text).
Proof.
  unfold extract_kml_from_kmz.
  pose proof (filter_head_find (fun f => endswith f ".kml") (namelist z)) as Hhd.
  pose proof (doc_kml_in_kml_files (namelist z)) as Hdoc.
  destruct (filter (fun f => endswith f ".kml") (namelist z))
    as [|first rest] eqn:Ef; cbv zeta.
  - split; [|split; [|split]].
    + split; [|reflexivity]. intros _ name Hin.
      destruct (endswith name ".kml") eqn:E; [|reflexivity].
      assert (Hf : In name (filter (fun f => endswith f ".kml") (namelist z)))
        by (apply filter_In; auto).
      rewrite Ef in Hf. destruct Hf.
    + intros H. apply Hdoc in H. discriminate.
    + intros _ f Hf. rewrite <- Hhd in Hf. discriminate.
    + discriminate.
  - assert (Hfirst : endswith first ".kml" = true /\ In first (namelist z)).
    { assert (Hf : In first (filter (fun f => endswith f ".kml") (namelist z)))
        by (rewrite Ef; simpl; auto).
      apply filter_In in Hf. tauto. }
    assert (Hread : forall kml_name,
              read_decoded lib z kml_name =
              match read z kml_name with
              | Some data =>
                  match decode_utf8 lib data with
                  | Some text => Ok text
                  | None => Raise UnicodeDecodeError
                  end
              | None => Raise (ZipReadError kml_name)
              end).
    { intros kml_name. unfold read_decoded, or_raise.
      destruct (read z kml_name) as [data|]; reflexivity. }
    split; [|split; [|split]].
    + split.
      * rewrite Hread.
        destruct (str_in "doc.kml" (first :: rest));
          match goal with
          | |- context [read z ?n] =>
              destruct (read z n) as [data|];
              [destruct (decode_utf8 lib data)|]; discriminate
          end.
      * intros H. destruct Hfirst as [He Hin]. rewrite (H first Hin) in He.
        discriminate.
    + intros H. apply Hdoc in H. rewrite H. apply Hread.
    + intros H f Hf. rewrite <- Hhd in Hf. inversion Hf; subst f.
      destruct (str_in "doc.kml" (first :: rest)); [|apply Hread].
      exfalso. apply H, Hdoc. reflexivity.
    + intros text. rewrite Hread.
      assert (Hname : In (if str_in "doc.kml" (first :: rest)
                          then "doc.kml" else first) (namelist z) /\
                      endswith (if str_in "doc.kml" (first :: rest)
                                then "doc.kml" else first) ".kml" = true).
      { destruct (str_in "doc.kml" (first :: rest)); [|tauto].
        split; [apply Hdoc|]; reflexivity. }
      destruct (str_in "doc.kml" (first :: rest));
        match goal with
        | |- context [read z ?n] =>
            destruct (read z n) as [data|] eqn:Er; [|discriminate];
            destruct (decode_utf8 lib data) as [t|] eqn:Ed; [|discriminate];
            inversion 1; subst; exists n, data; tauto
        end.
Qed.

(** The entry [doc.kml] is read although [a.kml] comes first, and its
    bytes are decoded; without a [doc.kml] the first [.kml] entry is
    read; bytes that are not UTF-8 raise; upper-case names do not count. *)
Lemma extract_kml_prefers_doc_kml_witness :
  extract_kml_from_kmz sample_library_utf8
    (mkZip ["a.kml"; "doc.kml"]
       (fun name => if str_eqb name "doc.kml" then Some sample_bytes
                    else Some "<a/>"))
  = Ok sample_text
  /\ extract_kml_from_kmz sample_library_utf8
       (mkZip ["b.kml"; "a.kml"; "readme.txt"]
          (fun name => if str_eqb name "b.kml" then Some sample_bytes
                       else Some "<a/>"))
     = Ok sample_text
  /\ extract_kml_from_kmz sample_library_utf8
       (mkZip ["x.txt"; "c.kml"]
          (fun _ => Some (String (ascii_of_nat 255) "")))
     = Raise UnicodeDecodeError
  /\ extract_kml_from_kmz sample_library_utf8
       (mkZip ["DOC.KML"; "x.txt"] (fun _ => None))
     = Raise NO_KML.
Proof.
  split; [|split; [|split]].
  - rewrite (proj1 (proj2 (extract_kml_prefers_doc_kml sample_library_utf8 _))).
    + reflexivity.
    + simpl. auto.
  - rewrite (proj1 (proj2 (proj2
               (extract_kml_prefers_doc_kml sample_library_utf8 _))))
      with (first := "b.kml").
    + reflexivity.
    + simpl. intros [H|[H|[H|[]]]]; discriminate H.
    + reflexivity.
  - rewrite (proj1 (proj2 (proj2
               (extract_kml_prefers_doc_kml sample_library_utf8 _))))
      with (first := "c.kml").
    + reflexivity.
    + simpl. intros [H|[H|[]]]; discriminate H.
    + reflexivity.
  - apply (proj1 (extract_kml_prefers_doc_kml sample_library_utf8 _)).
    simpl. intros name [<-|[<-|[]]]; reflexivity.
Defined.

(* ================================================================== *)
(** * Statistics *)

Lemma compute_stats_no_lots (doc : document) :
  lots doc = [] -> compute_stats doc = zero_stats.
Proof. unfold compute_stats. intros ->. reflexivity. Qed.

Lemma compute_stats_ranges (doc : document) :
  all_coordinates doc = [] ->
  lat_range (compute_stats doc) = zero_range /\
  lon_range (compute_stats doc) = zero_range /\
  y_range_m (compute_stats doc) = zero_range /\
  x_range_m (compute_stats doc) = zero_range.
Proof.
  unfold all_coordinates, compute_stats, collect_coords. intros ->.
  simpl. auto.
Qed.

(** A document whose records all have a geometry with a coordinate has no
    record when it has no coordinate. *)
Lemma no_coordinates_no_lots (doc : document) :
  Forall (fun l => ~ lot_polygons l = [] /\
                   Forall geometry_ok (lot_polygons l)) (lots doc) ->
  all_coordinates doc = [] -> lots doc = [].
Proof.
  unfold all_coordinates, all_geometries.
  destruct (lots doc) as [|l ls]; [reflexivity|].
  intros H Hc. exfalso. inversion H as [|? ? [Hne Hg] _]; subst.
  destruct (lot_polygons l) as [|g gs] eqn:E; [now apply Hne|].
  inversion Hg as [|? ? [Hgc _] _]; subst.
  simpl in Hc. rewrite E in Hc. simpl in Hc.
  destruct (coordinates g); [now apply Hgc|discriminate].
Qed.

(** C6: without coordinates the four ranges are [(0, 0)], whatever the
    document; the document of a run without coordinates has no record and
    all its counts are zero; [compute_stats] is a total function, it has no
    division and takes no minimum of an empty list. *)
Theorem compute_stats_without_coordinates :
  (forall doc : document,
     all_coordinates doc = [] ->
     lat_range (compute_stats doc) = zero_range /\
     lon_range (compute_stats doc) = zero_range /\
     y_range_m (compute_stats doc) = zero_range /\
     x_range_m (compute_stats doc) = zero_range)
  /\ (forall (lib : library) (env : environment) (z : zip_archive)
             (a : arguments) (doc : document),
        run lib env z a = Ok doc ->
        all_coordinates doc = [] ->
        lots doc = [] /\ compute_stats doc = zero_stats)
  /\ (forall doc : document, lots doc = [] -> compute_stats doc = zero_stats).
Proof.
  split; [exact compute_stats_ranges|]. split; [|exact compute_stats_no_lots].
  intros lib env z a doc Hrun Hc.
  assert (Hl : lots doc = [])
    by (eapply no_coordinates_no_lots; eauto using run_lots_ok).
  split; [exact Hl|]. now apply compute_stats_no_lots.
Qed.

Lemma compute_stats_without_coordinates_witness :
  exists doc,
    run sample_library_unconfigured sample_env sample_zip sample_arguments = Ok doc
    /\ all_coordinates doc = []
    /\ lots doc = []
    /\ compute_stats doc = zero_stats.
Proof.
  eexists. split; [vm_compute; reflexivity|]. split; [reflexivity|].
  apply (proj1 (proj2 compute_stats_without_coordinates)
           sample_library_unconfigured sample_env sample_zip sample_arguments).
  - vm_compute. reflexivity.
  - reflexivity.
Defined.

(* ================================================================== *)
(** * Two runs *)

Lemma dict_set_new {V} (d : list (string * V)) k v :
  ~ In k (map fst d) -> dict_set d k v = (d ++ [(k, v)])%list.
Proof.
  induction d as [|[k' v'] d IH]; simpl; intros H; [reflexivity|].
  destruct (str_eqb k' k) eqn:E.
  - apply str_eqb_eq in E. tauto.
  - rewrite IH by tauto. reflexivity.
Qed.

Lemma fold_dict_set_distinct {V} (g : string -> V) (ks : list string)
  (d : list (string * V)) :
  NoDup ks -> (forall k, In k ks -> ~ In k (map fst d)) ->
  fold_left (fun d k => dict_set d k (g k)) ks d =
  (d ++ map (fun k => (k, g k)) ks)%list.
Proof.
  intros Hnd. revert d. induction Hnd as [|k ks Hk Hnd IH]; intros d Hd; simpl.
  - now rewrite app_nil_r.
  - rewrite dict_set_new by (apply Hd; simpl; auto).
    rewrite IH.
    + now rewrite <- app_assoc.
    + intros k' Hin. rewrite map_app, in_app_iff. simpl.
      intros [H|[H|[]]]; [apply (Hd k'); simpl; auto|].
      subst k'. contradiction.
Qed.

Lemma set_order_NoDup (env : environment) (names : list string) :
  set_order_ok env -> NoDup (set_order env names).
Proof.
  intros H. eapply Permutation_NoDup.
  - apply Permutation_sym, H.
  - apply NoDup_nodup.
Qed.

(** [layers] has one entry for each name the set yields, in that order. *)
Lemma build_layers_meta_spec (env : environment) (lots : list lot) :
  set_order_ok env ->
  build_layers_meta env lots =
  map (fun k => (k, layer_meta_of k)) (set_order env (map lot_layer lots)).
Proof.
  intros H. unfold build_layers_meta.
  apply (fold_dict_set_distinct layer_meta_of).
  - now apply set_order_NoDup.
  - intros k _ [].
Qed.

Lemma run_document (lib : library) (env : environment) (z : zip_archive)
  (a : arguments) (doc : document) :
  run lib env z a = Ok doc ->
  exists raw,
    doc = build_lots_json env raw (arg_input a) (layer_filter_of a) /\
    forall env', run lib env' z a =
                 Ok (build_lots_json env' raw (arg_input a) (layer_filter_of a)).
Proof.
  unfold run.
  destruct (extract_kml_from_kmz lib z) as [kml_content|]; cbn [bind];
    [|discriminate].
  destruct (fromstring lib kml_content) as [root|]; cbn [bind or_raise];
    [|discriminate].
  destruct (extract_features root a) as [raw|]; cbn [bind]; [|discriminate].
  inversion 1. exists raw. auto.
Qed.

Lemma run_raises (lib : library) (env env' : environment) (z : zip_archive)
  (a : arguments) (e : exn) :
  run lib env z a = Raise e -> run lib env' z a = Raise e.
Proof.
  unfold run.
  destruct (extract_kml_from_kmz lib z) as [kml_content|]; cbn [bind]; auto.
  destruct (fromstring lib kml_content) as [root|]; cbn [bind or_raise]; auto.
  destruct (extract_features root a) as [raw|]; cbn [bind]; auto.
  discriminate.
Qed.

(** C2 (as amended): two runs on the same archive, library and arguments
    end alike: both raise the same exception, or both return a document,
    and the two documents have the same version, source name, transform
    and records, and the same entries in [layers]; the date and the order
    of the entries of [layers] are what can differ.  When the two runs
    iterate the set of layer names in the same order, [layers] is the same
    too. *)
Theorem two_runs_agree (lib : library) (env1 env2 : environment)
  (z : zip_archive) (a : arguments) :
  set_order_ok env1 -> set_order_ok env2 ->
  (forall e, run lib env1 z a = Raise e <-> run lib env2 z a = Raise e)
  /\ (forall doc1,
        run lib env1 z a = Ok doc1 ->
        exists doc2,
          run lib env2 z a = Ok doc2 /\
          version doc1 = version doc2 /\
          source_kmz doc1 = source_kmz doc2 /\
          doc_transform doc1 = doc_transform doc2 /\
          lots doc1 = lots doc2 /\
          Permutation (layers doc1) (layers doc2) /\
          NoDup (map fst (layers doc1)) /\
          (forall k, dict_get (layers doc1) k = dict_get (layers doc2) k) /\
          (set_order env1 (map lot_layer (lots doc1)) =
           set_order env2 (map lot_layer (lots doc1)) ->
           layers doc1 = layers doc2)).
Proof.
  intros H1 H2. split; [split; apply run_raises|].
  intros doc1 Hrun. apply run_document in Hrun as [raw [-> Hother]].
  eexists. split; [apply Hother|].
  cbn [version source_kmz doc_transform lots layers build_lots_json].
  repeat (split; [reflexivity|]).
  rewrite !build_layers_meta_spec by assumption.
  set (names := map lot_layer (assemble_lots raw)).
  assert (Hperm : Permutation (set_order env1 names) (set_order env2 names)).
  { eapply Permutation_trans; [apply H1|apply Permutation_sym, H2]. }
  assert (Hget : forall (ks : list string) k,
            dict_get (map (fun k => (k, layer_meta_of k)) ks) k =
            if in_dec string_dec k ks then Some (layer_meta_of k) else None).
  { induction ks as [|k0 ks IH]; intros k; simpl; [reflexivity|].
    destruct (str_eqb k0 k) eqn:E.
    - apply str_eqb_eq in E. subst k0.
      destruct (string_dec k k); [reflexivity|contradiction].
    - apply str_eqb_neq in E. rewrite IH.
      destruct (string_dec k0 k); [contradiction|].
      destruct (in_dec string_dec k ks); reflexivity. }
  split; [now apply Permutation_map|]. split.
  - rewrite map_map. simpl. rewrite map_id. now apply set_order_NoDup.
  - split.
    + intros k. rewrite !Hget.
      destruct (in_dec string_dec k (set_order env1 names)) as [Hin|Hin],
               (in_dec string_dec k (set_order env2 names)) as [Hin'|Hin'];
        try reflexivity; exfalso.
      * apply Hin'. eapply Permutation_in; eauto.
      * apply Hin. eapply Permutation_in; [apply Permutation_sym|]; eauto.
    + intros ->. reflexivity.
Qed.

Lemma sample_env_ok : set_order_ok sample_env.
Proof. intros names. apply Permutation_refl. Qed.

Lemma sample_env'_ok : set_order_ok sample_env'.
Proof. intros names. apply Permutation_sym, Permutation_rev. Qed.

(** C2, as stated, fails: two runs on the same archive in which the set
    of layer names is iterated in different orders write the keys of
    [layers] in different orders. *)
Lemma two_runs_differ_in_layers_order :
  set_order_ok sample_env /\ set_order_ok sample_env' /\
  exists doc1 doc2,
    run sample_library sample_env sample_zip sample_arguments = Ok doc1 /\
    run sample_library sample_env' sample_zip sample_arguments = Ok doc2 /\
    map fst (layers doc1) = ["phases"; "industrialParks"] /\
    map fst (layers doc2) = ["industrialParks"; "phases"].
Proof.
  split; [exact sample_env_ok|]. split; [exact sample_env'_ok|].
  do 2 eexists. split; [vm_compute; reflexivity|].
  split; [vm_compute; reflexivity|]. split; reflexivity.
Qed.

Lemma two_runs_agree_witness :
  exists doc1 doc2,
    run sample_library sample_env sample_zip sample_arguments = Ok doc1 /\
    run sample_library sample_env' sample_zip sample_arguments = Ok doc2 /\
    lots doc1 = lots doc2 /\
    Permutation (layers doc1) (layers doc2).
Proof.
  destruct (run sample_library sample_env sample_zip sample_arguments)
    as [doc1|] eqn:E1; [|vm_compute in E1; discriminate].
  destruct (proj2 (two_runs_agree sample_library sample_env sample_env'
                     sample_zip sample_arguments sample_env_ok sample_env'_ok)
              doc1 E1)
    as [doc2 [E2 [_ [_ [_ [Hlots [Hperm _]]]]]]].
  exists doc1, doc2. auto.
Defined.

(* ================================================================== *)
(** * Rounding to binary64 *)

Section Rounding.
Local Open Scope Q_scope.

Lemma two_pos : 0 < two.
Proof. reflexivity. Qed.

Lemma two_nonzero : ~ two == 0.
Proof. discriminate. Qed.

Lemma pow2_pos (e : Z) : 0 < pow2 e.
Proof. apply Qpower_0_lt, two_pos. Qed.

Lemma pow2_plus (a b : Z) : pow2 (a + b) == pow2 a * pow2 b.
Proof. apply Qpower_plus, two_nonzero. Qed.

Lemma pow2_le (a b : Z) : (a <= b)%Z -> pow2 a <= pow2 b.
Proof. intros H. apply Qpower_le_compat_l; [exact H|discriminate]. Qed.

Lemma pow2_le_inv (a b : Z) : pow2 a <= pow2 b -> (a <= b)%Z.
Proof. intros H. eapply Qpower_le_compat_l_inv; [exact H|reflexivity]. Qed.

Lemma pow2_Z (a : Z) : (0 <= a)%Z -> pow2 a == inject_Z (2 ^ a).
Proof. intros H. symmetry. apply (Zpower_Qpower 2 a H). Qed.

Lemma pow2_succ (a : Z) : pow2 (a + 1) == 2 * pow2 a.
Proof. rewrite pow2_plus. change (pow2 1) with two. unfold two. ring. Qed.

Lemma pow2_half (a : Z) : pow2 (a - 1) == pow2 a / 2.
Proof.
  assert (H : pow2 a == 2 * pow2 (a - 1)).
  { rewrite <- pow2_succ. now replace (a - 1 + 1)%Z with a by ring. }
  rewrite H. field.
Qed.

(** The binary exponent is not above the value. *)
Lemma ilog2_le (q : Q) : ~ q == 0 -> pow2 (ilog2 q) <= Qabs q.
Proof.
  intros Hq. unfold ilog2.
  set (a := Z.log2 (Z.abs (Qnum q))). set (b := Z.log2 (Zpos (Qden q))).
  destruct (Qle_bool (pow2 (a - b)) (Qabs q)) eqn:E.
  - now apply Qle_bool_iff.
  - assert (Hn : (0 < Z.abs (Qnum q))%Z).
    { destruct q as [n d]. unfold Qeq in Hq. simpl in *. lia. }
    assert (Ha : (2 ^ a <= Z.abs (Qnum q))%Z) by (apply Z.log2_spec, Hn).
    assert (Hb : (Zpos (Qden q) < 2 ^ (b + 1))%Z).
    { replace (b + 1)%Z with (Z.succ b) by lia. apply Z.log2_spec. lia. }
    assert (Ha0 : (0 <= a)%Z) by apply Z.log2_nonneg.
    assert (Hb0 : (0 <= b)%Z) by apply Z.log2_nonneg.
    replace (a - b - 1)%Z with (a + - (b + 1))%Z by ring.
    rewrite pow2_plus. unfold pow2 at 2. rewrite Qpower_opp.
    fold (pow2 (b + 1)). rewrite (pow2_Z a), (pow2_Z (b + 1)) by lia.
    assert (Hp : (0 < 2 ^ a)%Z) by (apply Z.pow_pos_nonneg; lia).
    assert (HB : 0 < inject_Z (2 ^ (b + 1))).
    { rewrite <- pow2_Z by lia. apply pow2_pos. }
    apply Qle_shift_div_r; [exact HB|].
    destruct q as [n d]. unfold Qabs, Qle, Qmult, inject_Z. simpl in *. nia.
Qed.

(** The nearest integer is within one half. *)
Lemma rne_spec (x : Q) :
  inject_Z (rne x) - x <= 1 # 2 /\ x - inject_Z (rne x) <= 1 # 2.
Proof.
  unfold rne. pose proof (Qfloor_le x) as Hlo. pose proof (Qlt_floor x) as Hhi.
  rewrite inject_Z_plus in Hhi. change (inject_Z 1) with 1 in Hhi.
  destruct (x - inject_Z (Qfloor x) ?= 1 # 2) eqn:E.
  - apply Qeq_alt in E.
    destruct (Z.even (Qfloor x)); rewrite ?inject_Z_plus;
      change (inject_Z 1) with 1; lra.
  - apply Qlt_alt in E. lra.
  - apply Qgt_alt in E. rewrite inject_Z_plus. change (inject_Z 1) with 1. lra.
Qed.

(** Rounding does not leave an interval with integer bounds. *)
Lemma rne_bound (x : Q) (n : Z) :
  - inject_Z n <= x <= inject_Z n -> (- n <= rne x <= n)%Z.
Proof.
  intros [Hlo Hhi]. pose proof (rne_spec x) as [H1 H2].
  pose proof (Qfloor_le x) as Hf. pose proof (Qlt_floor x) as Hf'.
  assert (Hfl : (- n <= Qfloor x)%Z).
  { rewrite <- (Qfloor_Z (- n)). apply Qfloor_resp_le.
    now rewrite inject_Z_opp. }
  assert (Hfh : (Qfloor x <= n)%Z).
  { rewrite <- (Qfloor_Z n). now apply Qfloor_resp_le. }
  unfold rne in *.
  destruct (x - inject_Z (Qfloor x) ?= 1 # 2) eqn:E.
  - apply Qeq_alt in E. destruct (Z.even (Qfloor x)); [lia|].
    split; [lia|]. apply Z.lt_succ_r, Z.lt_succ_r.
    assert (Hlt : inject_Z (Qfloor x) < inject_Z n) by lra.
    rewrite <- Zlt_Qlt in Hlt. lia.
  - lia.
  - apply Qgt_alt in E. split; [lia|].
    assert (Hlt : inject_Z (Qfloor x) < inject_Z n) by lra.
    rewrite <- Zlt_Qlt in Hlt. lia.
Qed.

Lemma inject_Z_small (m : Z) :
  - (1 # 2) <= inject_Z m <= 1 # 2 -> m = 0%Z.
Proof.
  intros [Hlo Hhi].
  assert (H1 : inject_Z m < inject_Z 1) by (change (inject_Z 1) with 1; lra).
  assert (H2 : inject_Z (-1) < inject_Z m)
    by (change (inject_Z (-1)) with (-1 # 1); lra).
  rewrite <- Zlt_Qlt in H1, H2. lia.
Qed.

(** Rounding a value of magnitude at most [2 ^ k], for an exponent [k] of
    the normal range, gives a finite float within [2 ^ (k - 53)] of it and
    of magnitude at most [2 ^ k]. *)
Lemma round64_spec (q : Q) (k : Z) :
  (-1022 <= k <= 1023)%Z -> Qabs q <= pow2 k ->
  is_finite (round64 q) = true /\
  Qabs (F2Q (round64 q) - q) <= pow2 (k - 53) /\
  Qabs (F2Q (round64 q)) <= pow2 k.
Proof.
  intros Hk Hq. unfold round64.
  set (u := ulp_exp q). set (x := q / pow2 u). set (m := rne x).
  pose proof (pow2_pos u) as HP. pose proof (pow2_pos k) as HK.
  pose proof (pow2_pos (k - 53)) as HK53.
  assert (Hx : x * pow2 u == q) by (unfold x; field; lra).
  pose proof (rne_spec x) as [Hm1 Hm2]. fold m in Hm1, Hm2.
  apply Qabs_Qle_condition in Hq.
  destruct (Qeq_dec q 0) as [Hz|Hnz].
  - assert (Hx0 : x == 0) by (unfold x; rewrite Hz; field; lra).
    assert (Hm : m = 0%Z) by (apply inject_Z_small; lra).
    rewrite Hm. cbn [Z.eqb is_finite F2Q]. split; [reflexivity|].
    split; apply Qabs_Qle_condition; lra.
  - assert (Hu : (u <= k - 52)%Z).
    { assert (He : (ilog2 q <= k)%Z).
      { apply pow2_le_inv. eapply Qle_trans; [apply ilog2_le, Hnz|].
        apply Qabs_Qle_condition. lra. }
      unfold u, ulp_exp. lia. }
    assert (HN : pow2 k == inject_Z (2 ^ (k - u)) * pow2 u).
    { rewrite <- pow2_Z by lia. rewrite <- pow2_plus.
      now replace (k - u + u)%Z with k by ring. }
    assert (HN0 : 0 < inject_Z (2 ^ (k - u))).
    { rewrite <- pow2_Z by lia. apply pow2_pos. }
    assert (Hxb : - inject_Z (2 ^ (k - u)) <= x <= inject_Z (2 ^ (k - u))).
    { rewrite HN in Hq. rewrite <- Hx in Hq. destruct Hq as [Hq1 Hq2].
      split.
      - apply (Qmult_le_r _ _ (pow2 u)); [exact HP|]. lra.
      - apply (Qmult_le_r _ _ (pow2 u)); [exact HP|]. lra. }
    apply rne_bound in Hxb. fold m in Hxb. destruct Hxb as [Hmb1 Hmb2].
    rewrite Zle_Qle, inject_Z_opp in Hmb1. rewrite Zle_Qle in Hmb2.
    set (v := inject_Z m * pow2 u).
    assert (Hverr : - pow2 (k - 53) <= v - q <= pow2 (k - 53)).
    { assert (Hu53 : pow2 (u - 1) <= pow2 (k - 53)) by (apply pow2_le; lia).
      rewrite pow2_half in Hu53.
      assert (Hd : v - q == (inject_Z m - x) * pow2 u)
        by (unfold v; rewrite <- Hx; ring).
      rewrite Hd. split.
      - apply Qle_trans with (- (pow2 u / 2)); [lra|].
        setoid_replace (- (pow2 u / 2)) with ((- (1 # 2)) * pow2 u) by field.
        apply Qmult_le_r; [exact HP|lra].
      - apply Qle_trans with (pow2 u / 2); [|lra].
        setoid_replace (pow2 u / 2) with ((1 # 2) * pow2 u) by field.
        apply Qmult_le_r; [exact HP|lra]. }
    assert (Hvb : - pow2 k <= v <= pow2 k).
    { rewrite HN. unfold v. split.
      - setoid_replace (- (inject_Z (2 ^ (k - u)) * pow2 u))
          with ((- inject_Z (2 ^ (k - u))) * pow2 u) by ring.
        apply Qmult_le_r; [exact HP|exact Hmb1].
      - apply Qmult_le_r; [exact HP|exact Hmb2]. }
    destruct (m =? 0)%Z eqn:Em.
    + apply Z.eqb_eq in Em. cbn [is_finite F2Q].
      assert (Hv0 : v == 0) by (unfold v; rewrite Em; ring).
      split; [reflexivity|]. split; apply Qabs_Qle_condition; lra.
    + destruct (Qle_bool (pow2 1024) (Qabs v)) eqn:Eo.
      * exfalso. apply Qle_bool_iff in Eo.
        assert (Hlt : pow2 k < pow2 1024).
        { apply Qle_lt_trans with (pow2 1023); [apply pow2_le; lia|].
          reflexivity. }
        assert (Habs : Qabs v <= pow2 k) by (apply Qabs_Qle_condition; lra).
        lra.
      * cbn [is_finite F2Q]. split; [reflexivity|].
        split; apply Qabs_Qle_condition; rewrite Qred_correct; lra.
Qed.

End Rounding.

(* ================================================================== *)
(** * Float operations on finite values *)

Section FloatOperations.
Local Open Scope Q_scope.

Lemma is_zeroQ_eq (q : Q) : is_zeroQ q = true -> q == 0.
Proof.
  unfold is_zeroQ, Qeq. intros H. apply Z.eqb_eq in H. rewrite H. reflexivity.
Qed.

Lemma approximates_exact (x : float) (v : Q) (k : Z) :
  is_finite x = true -> F2Q x == v -> Qabs v <= pow2 k -> approximates x v k.
Proof.
  intros Hf He Hv. split; [exact Hf|]. pose proof (pow2_pos (k - 53)).
  apply Qabs_Qle_condition in Hv.
  split; apply Qabs_Qle_condition; lra.
Qed.

Lemma round64_approximates (q : Q) (k : Z) :
  (-1022 <= k <= 1023)%Z -> Qabs q <= pow2 k -> approximates (round64 q) q k.
Proof. apply round64_spec. Qed.

Lemma F2Q_fneg (x : float) : F2Q (fneg x) == - F2Q x.
Proof. destruct x; cbn [fneg F2Q]; try reflexivity. apply Qred_correct. Qed.

Lemma is_finite_fneg (x : float) : is_finite (fneg x) = is_finite x.
Proof. destruct x; reflexivity. Qed.

(** [x + y] on finite floats is the rounded exact sum. *)
Lemma fadd_spec (x y : float) (k : Z) :
  is_finite x = true -> is_finite y = true -> (-1022 <= k <= 1023)%Z ->
  Qabs (F2Q x + F2Q y) <= pow2 k ->
  approximates (fadd x y) (F2Q x + F2Q y) k.
Proof.
  intros Hx Hy Hk Hb.
  destruct x as [| |sx|a]; try discriminate;
    destruct y as [| |sy|b]; try discriminate; cbn [fadd F2Q] in *.
  - apply approximates_exact; [reflexivity|reflexivity|exact Hb].
  - apply approximates_exact; [reflexivity|cbn [F2Q]; ring|exact Hb].
  - apply approximates_exact; [reflexivity|cbn [F2Q]; ring|exact Hb].
  - cbv zeta. destruct (is_zeroQ (a + b)) eqn:E.
    + apply is_zeroQ_eq in E.
      apply approximates_exact; [reflexivity|cbn [F2Q]; now rewrite E|exact Hb].
    + now apply round64_approximates.
Qed.

Lemma fsub_spec (x y : float) (k : Z) :
  is_finite x = true -> is_finite y = true -> (-1022 <= k <= 1023)%Z ->
  Qabs (F2Q x - F2Q y) <= pow2 k ->
  approximates (fsub x y) (F2Q x - F2Q y) k.
Proof.
  intros Hx Hy Hk Hb. unfold fsub.
  assert (He : F2Q x - F2Q y == F2Q x + F2Q (fneg y))
    by (rewrite F2Q_fneg; ring).
  destruct (fadd_spec x (fneg y) k) as [H1 [H2 H3]]; auto.
  - now rewrite is_finite_fneg.
  - now rewrite <- He.
  - split; [exact H1|]. split; [|exact H3]. now rewrite He.
Qed.

(** [x * y] on finite floats is the rounded exact product. *)
Lemma fmul_spec (x y : float) (k : Z) :
  is_finite x = true -> is_finite y = true -> (-1022 <= k <= 1023)%Z ->
  Qabs (F2Q x * F2Q y) <= pow2 k ->
  approximates (fmul x y) (F2Q x * F2Q y) k.
Proof.
  intros Hx Hy Hk Hb.
  destruct x as [| |sx|a]; try discriminate;
    destruct y as [| |sy|b]; try discriminate; cbn [fmul F2Q] in *;
    try (apply approximates_exact; [reflexivity|cbn [F2Q]; ring|exact Hb]).
  now apply round64_approximates.
Qed.

(** [x / c] on a finite float and a non-zero constant is the rounded
    exact quotient. *)
Lemma fdiv_spec (x : float) (c : Q) (k : Z) :
  is_finite x = true -> ~ c == 0 -> (-1022 <= k <= 1023)%Z ->
  Qabs (F2Q x / c) <= pow2 k ->
  approximates (fdiv x (Fin c)) (F2Q x / c) k.
Proof.
  intros Hx Hc Hk Hb.
  destruct x as [| |sx|a]; try discriminate; cbn [fdiv F2Q] in *.
  - apply approximates_exact; [reflexivity|cbn [F2Q]; now field|exact Hb].
  - now apply round64_approximates.
Qed.

End FloatOperations.

(* ================================================================== *)
(** * Coordinate transform *)

Section RoundTrip.
Local Open Scope Q_scope.

Lemma PHARR_LAT_value : PHARR_LAT = Fin (458570183371159 # 17592186044416).
Proof. vm_compute. reflexivity. Qed.

Lemma PHARR_LON_value : PHARR_LON = Fin (-107977734679927 # 1099511627776).
Proof. vm_compute. reflexivity. Qed.

Lemma METERS_PER_DEG_LAT_value : of_int METERS_PER_DEG_LAT = Fin (111320 # 1).
Proof. vm_compute. reflexivity. Qed.

Lemma METERS_PER_DEG_LON_value :
  METERS_PER_DEG_LON = Fin (1717933297334459 # 17179869184).
Proof. reflexivity. Qed.

(** Replace the powers of two with closed exponents by their values. *)
Ltac eval_pow2 :=
  repeat match goal with
  | H : context [pow2 ?k] |- _ =>
      let v := eval vm_compute in (pow2 k) in change (pow2 k) with v in H
  | |- context [pow2 ?k] =>
      let v := eval vm_compute in (pow2 k) in change (pow2 k) with v
  end.

(** Turn the conclusion of an operation's specification into linear
    inequalities. *)
Ltac open_approx H Hf He Hb :=
  destruct H as (Hf & He & Hb);
  apply Qabs_Qle_condition in He; apply Qabs_Qle_condition in Hb;
  cbn [F2Q] in He, Hb; eval_pow2.

(** The round trip of a coordinate [a] with |a| <= 256 through an origin
    [o] and a scale [s] as those of the script. *)
Lemma affine_round_trip_lat (lat : float) :
  is_finite lat = true -> Qabs (F2Q lat) <= 90 ->
  is_finite (from_local_y (to_local_y lat)) = true /\
  Qabs (F2Q (from_local_y (to_local_y lat)) - F2Q lat) <= round_trip_tolerance.
Proof.
  intros Hfin Ha. unfold from_local_y, to_local_y, round_trip_tolerance.
  rewrite METERS_PER_DEG_LAT_value, PHARR_LAT_value.
  apply Qabs_Qle_condition in Ha.
  assert (H1 : approximates (fsub lat (Fin (458570183371159 # 17592186044416)))
                 (F2Q lat - F2Q (Fin (458570183371159 # 17592186044416))) 7).
  { apply fsub_spec; [exact Hfin|reflexivity|lia|].
    cbn [F2Q]. apply Qabs_Qle_condition. eval_pow2. lra. }
  set (d := fsub lat _) in *. open_approx H1 Hd He1 Hb1.
  assert (H2 : approximates (fmul d (Fin (111320 # 1)))
                 (F2Q d * F2Q (Fin (111320 # 1))) 24).
  { apply fmul_spec; [exact Hd|reflexivity|lia|].
    cbn [F2Q]. apply Qabs_Qle_condition. eval_pow2. lra. }
  set (y := fmul d _) in *. open_approx H2 Hy He2 Hb2.
  set (qv := F2Q y / (111320 # 1)).
  assert (Hqv : qv * (111320 # 1) == F2Q y) by (unfold qv; field).
  assert (H3 : approximates (fdiv y (Fin (111320 # 1))) qv 8).
  { apply fdiv_spec; [exact Hy|discriminate|lia|].
    fold qv. apply Qabs_Qle_condition. eval_pow2. lra. }
  set (q := fdiv y _) in *. open_approx H3 Hq He3 Hb3.
  assert (H4 : approximates (fadd q (Fin (458570183371159 # 17592186044416)))
                 (F2Q q + F2Q (Fin (458570183371159 # 17592186044416))) 9).
  { apply fadd_spec; [exact Hq|reflexivity|lia|].
    cbn [F2Q]. apply Qabs_Qle_condition. eval_pow2. lra. }
  set (r := fadd q _) in *. open_approx H4 Hr He4 Hb4.
  split; [exact Hr|]. apply Qabs_Qle_condition. lra.
Qed.

Lemma affine_round_trip_lon (lon : float) :
  is_finite lon = true -> Qabs (F2Q lon) <= 180 ->
  is_finite (from_local_x METERS_PER_DEG_LON (to_local_x lon)) = true /\
  Qabs (F2Q (from_local_x METERS_PER_DEG_LON (to_local_x lon)) - F2Q lon)
    <= round_trip_tolerance.
Proof.
  intros Hfin Ha. unfold from_local_x, to_local_x, round_trip_tolerance.
  rewrite METERS_PER_DEG_LON_value, PHARR_LON_value.
  apply Qabs_Qle_condition in Ha.
  assert (H1 : approximates (fsub lon (Fin (-107977734679927 # 1099511627776)))
                 (F2Q lon - F2Q (Fin (-107977734679927 # 1099511627776))) 9).
  { apply fsub_spec; [exact Hfin|reflexivity|lia|].
    cbn [F2Q]. apply Qabs_Qle_condition. eval_pow2. lra. }
  set (d := fsub lon _) in *. open_approx H1 Hd He1 Hb1.
  assert (H2 : approximates (fmul d (Fin (1717933297334459 # 17179869184)))
                 (F2Q d * F2Q (Fin (1717933297334459 # 17179869184))) 26).
  { apply fmul_spec; [exact Hd|reflexivity|lia|].
    cbn [F2Q]. apply Qabs_Qle_condition. eval_pow2. lra. }
  set (y := fmul d _) in *. open_approx H2 Hy He2 Hb2.
  set (qv := F2Q y / (1717933297334459 # 17179869184)).
  assert (Hqv : qv * (1717933297334459 # 17179869184) == F2Q y)
    by (unfold qv; field).
  assert (H3 : approximates (fdiv y (Fin (1717933297334459 # 17179869184))) qv 10).
  { apply fdiv_spec; [exact Hy|discriminate|lia|].
    fold qv. apply Qabs_Qle_condition. eval_pow2. lra. }
  set (q := fdiv y _) in *. open_approx H3 Hq He3 Hb3.
  assert (H4 : approximates (fadd q (Fin (-107977734679927 # 1099511627776)))
                 (F2Q q + F2Q (Fin (-107977734679927 # 1099511627776))) 11).
  { apply fadd_spec; [exact Hq|reflexivity|lia|].
    cbn [F2Q]. apply Qabs_Qle_condition. eval_pow2. lra. }
  set (r := fadd q _) in *. open_approx H4 Hr He4 Hb4.
  split; [exact Hr|]. apply Qabs_Qle_condition. lra.
Qed.

End RoundTrip.

Section TransformClaims.
Local Open Scope Q_scope.

(** C8: for a finite latitude of magnitude at most 90 and a finite
    longitude of magnitude at most 180, the inverse affine map applied to
    the local-meter point the script computes gives finite values within
    1e-9 degrees of the coordinate. *)
Theorem local_round_trip_within_tolerance (lat lon : float) :
  is_finite lat = true -> is_finite lon = true ->
  Qabs (F2Q lat) <= 90 -> Qabs (F2Q lon) <= 180 ->
  let y := to_local_y lat in
  let x := to_local_x lon in
  is_finite (from_local_y y) = true /\
  is_finite (from_local_x METERS_PER_DEG_LON x) = true /\
  Qabs (F2Q (from_local_y y) - F2Q lat) <= round_trip_tolerance /\
  Qabs (F2Q (from_local_x METERS_PER_DEG_LON x) - F2Q lon)
    <= round_trip_tolerance.
Proof.
  intros Hlat Hlon Ha Ho. cbv zeta.
  destruct (affine_round_trip_lat lat Hlat Ha) as [H1 H2].
  destruct (affine_round_trip_lon lon Hlon Ho) as [H3 H4].
  auto.
Qed.

Lemma local_round_trip_within_tolerance_witness :
  is_finite lit_26_08 = true /\ is_finite lit_m98_21 = true /\
  Qabs (F2Q lit_26_08) <= 90 /\ Qabs (F2Q lit_m98_21) <= 180 /\
  Qabs (F2Q (from_local_y (to_local_y lit_26_08)) - F2Q lit_26_08)
    <= round_trip_tolerance /\
  Qabs (F2Q (from_local_x METERS_PER_DEG_LON (to_local_x lit_m98_21))
        - F2Q lit_m98_21) <= round_trip_tolerance.
Proof.
  assert (H1 : is_finite lit_26_08 = true) by reflexivity.
  assert (H2 : is_finite lit_m98_21 = true) by reflexivity.
  assert (H3 : Qabs (F2Q lit_26_08) <= 90) by (vm_compute; discriminate).
  assert (H4 : Qabs (F2Q lit_m98_21) <= 180) by (vm_compute; discriminate).
  destruct (local_round_trip_within_tolerance lit_26_08 lit_m98_21 H1 H2 H3 H4)
    as [_ [_ [H5 H6]]].
  auto 10.
Defined.

(** Outside that range the product can overflow: the latitude 1e308 goes
    to an infinite [y]. *)
Remark to_local_y_overflows :
  to_local_y (of_decimal false 1 308) = Inf false.
Proof. vm_compute. reflexivity. Qed.



End TransformClaims.

(* ================================================================== *)
(** * Text of an element *)

Lemma rstrip_idempotent (s : string) : rstrip (rstrip s) = rstrip s.
Proof.
  induction s as [|c r IH]; [reflexivity|]. cbn [rstrip].
  destruct (is_empty (rstrip r) && is_space c) eqn:E; [reflexivity|].
  cbn [rstrip]. rewrite IH, E. reflexivity.
Qed.

Lemma lstrip_starts_clean (s : string) : starts_clean (lstrip s) = true.
Proof.
  induction s as [|c r IH]; [reflexivity|]. cbn [lstrip].
  destruct (is_space c) eqn:E; [exact IH|]. simpl. now rewrite E.
Qed.

Lemma lstrip_clean (s : string) : starts_clean s = true -> lstrip s = s.
Proof.
  destruct s as [|c r]; [reflexivity|]. simpl. intros H.
  apply negb_true_iff in H. now rewrite H.
Qed.

Lemma rstrip_starts_clean (s : string) :
  starts_clean s = true -> starts_clean (rstrip s) = true.
Proof.
  destruct s as [|c r]; [reflexivity|]. simpl. intros H.
  apply negb_true_iff in H. rewrite H, andb_false_r. simpl. now rewrite H.
Qed.

Lemma strip_idempotent (s : string) : strip (strip s) = strip s.
Proof.
  unfold strip.
  rewrite (lstrip_clean (rstrip (lstrip s)))
    by apply rstrip_starts_clean, lstrip_starts_clean.
  apply rstrip_idempotent.
Qed.

(** X1: the text [get_text] returns has no whitespace at either end, and
    it is the empty string when the element has no such child, or the
    child has no text. *)
Theorem get_text_is_stripped (e : element) (path : string) :
  strip (get_text e path) = get_text e path
  /\ (find e path = None -> get_text e path = "")
  /\ (forall el, find e path = Some el -> text el = None ->
        get_text e path = "")
  /\ (forall el t, find e path = Some el -> text el = Some t ->
        get_text e path = strip t).
Proof.
  unfold get_text. split; [|split; [|split]].
  - destruct (find e path) as [el|]; [|reflexivity].
    destruct (text el) as [t|]; [|reflexivity].
    destruct (is_empty t); [reflexivity|apply strip_idempotent].
  - now intros ->.
  - now intros el -> ->.
  - intros el t -> ->. destruct t; reflexivity.
Qed.

Lemma get_text_is_stripped_witness :
  get_text (Element "Placemark" [] None
              [Element "name" [] (Some "  Fase 1  ") [];
               Element "name" [] (Some "other") []]) "name" = "Fase 1"
  /\ get_text (Element "Placemark" [] None []) "name" = "".
Proof.
  split.
  - rewrite (proj2 (proj2 (proj2 (get_text_is_stripped _ "name")))
               (Element "name" [] (Some "  Fase 1  ") []) "  Fase 1  ");
      reflexivity.
  - apply (proj1 (proj2 (get_text_is_stripped _ "name"))). reflexivity.
Defined.

(* ================================================================== *)
(** * Coordinate texts *)

Lemma split_ws_all_space (s : string) : all_space s = true -> split_ws s = [].
Proof.
  intros H. unfold split_ws.
  rewrite <- (append_nil_r s). now rewrite split_ws_from_lead.
Qed.

Lemma token_coords_length (t : string) :
  token_ok t = true ->
  List.length (token_coords t) = if has_two_fields t then 1%nat else 0%nat.
Proof.
  unfold token_ok, token_coords, has_two_fields.
  destruct (split_on "," t) as [|f0 [|f1 more]]; try reflexivity.
  destruct (float_of_string f0), (float_of_string f1);
    try discriminate; reflexivity.
Qed.

(** X2: an empty or all-whitespace coordinate text parses to the empty
    list; and whenever a text parses, every coordinate is a list of
    exactly two floats and there is one coordinate for each token with at
    least two comma-separated fields. *)
Theorem parse_coordinates_shape :
  (forall s, all_space s = true -> parse_coordinates s = Ok [])
  /\ (forall s coords,
        parse_coordinates s = Ok coords ->
        Forall (fun c => List.length c = 2%nat) coords /\
        List.length coords =
          List.length (filter has_two_fields (split_ws s))).
Proof.
  split.
  - intros s H. apply parse_coordinates_spec.
    rewrite split_ws_all_space by assumption. auto.
  - intros s coords H. split; [now apply parse_coordinates_pairs in H|].
    apply parse_coordinates_spec in H as [Hok ->].
    induction (split_ws s) as [|t ts IH]; [reflexivity|].
    cbn [forallb] in Hok. apply andb_prop in Hok as [Ht Hts].
    cbn [flat_map filter]. rewrite length_app, (IH Hts), token_coords_length by assumption.
    destruct (has_two_fields t); reflexivity.
Qed.

Lemma parse_coordinates_shape_witness :
  parse_coordinates "  	 " = Ok []
  /\ parse_coordinates " 1,2,3 junk 4,5 " = Ok [[of_int 2; of_int 1]; [of_int 5; of_int 4]]
  /\ List.length [[of_int 2; of_int 1]; [of_int 5; of_int 4]] =
       List.length (filter has_two_fields (split_ws " 1,2,3 junk 4,5 ")).
Proof.
  split; [apply (proj1 parse_coordinates_shape); reflexivity|].
  assert (H : parse_coordinates " 1,2,3 junk 4,5 "
              = Ok [[of_int 2; of_int 1]; [of_int 5; of_int 4]])
    by (vm_compute; reflexivity).
  split; [exact H|].
  exact (proj2 (proj2 parse_coordinates_shape _ _ H)).
Defined.

(* ================================================================== *)
(** * Name of the source file *)

Lemma split_on_from_last sep (a b cur : string) :
  str_forall (fun c => negb (Ascii.eqb c sep)) b = true ->
  exists front,
    split_on_from sep cur (a ++ String sep b) = (front ++ [b])%list.
Proof.
  intros Hb. revert cur. induction a as [|c a IH]; intros cur; simpl.
  - rewrite Ascii.eqb_refl. exists [cur]. simpl. f_equal.
    rewrite <- (append_nil_r b) at 1.
    rewrite split_on_from_field by assumption. reflexivity.
  - destruct (Ascii.eqb c sep).
    + destruct (IH "") as [front ->]. now exists (cur :: front).
    + apply IH.
Qed.

Lemma last_snoc {A} (l : list A) (x d : A) : last (l ++ [x]) d = x.
Proof.
  induction l as [|y l IH]; [reflexivity|].
  simpl. destruct (l ++ [x])%list eqn:E; [|exact IH].
  destruct l; discriminate.
Qed.

Lemma split_on_from_pieces sep (s cur : string) :
  str_forall (fun c => negb (Ascii.eqb c sep)) cur = true ->
  Forall (fun p => str_forall (fun c => negb (Ascii.eqb c sep)) p = true)
    (split_on_from sep cur s).
Proof.
  revert cur. induction s as [|c s IH]; intros cur Hcur; simpl.
  - auto.
  - destruct (Ascii.eqb c sep) eqn:E.
    + constructor; [exact Hcur|]. now apply IH.
    + apply IH. rewrite str_forall_append, Hcur. simpl. now rewrite E.
Qed.

Lemma last_Forall {A} (P : A -> Prop) (l : list A) (d : A) :
  P d -> Forall P l -> P (last l d).
Proof.
  intros Hd H. induction H as [|x l Hx Hl IH]; [exact Hd|].
  simpl. destruct l; [exact Hx|exact IH].
Qed.

Lemma Forall_filter {A} (P : A -> Prop) (p : A -> bool) (l : list A) :
  Forall P l -> Forall P (filter p l).
Proof.
  intros H. induction H as [|x l Hx Hl IH]; simpl; [constructor|].
  destruct (p x); auto.
Qed.

(** X3: [source_kmz] is the file name of the input path: it holds no
    slash, and for an input [dir/base] it is [base]. *)
Theorem source_kmz_is_the_file_name (env : environment) (raw : list feature)
  (layer_filter : option (list string)) :
  (forall path,
     no_slash (source_kmz (build_lots_json env raw path layer_filter)) = true)
  /\ (forall dir base,
        no_slash base = true -> base <> "" -> base <> "." ->
        source_kmz (build_lots_json env raw (dir ++ "/" ++ base) layer_filter)
        = base).
Proof.
  cbn [source_kmz build_lots_json]. unfold path_name, split_on, no_slash. split.
  - intros path. apply last_Forall; [reflexivity|].
    apply Forall_filter. now apply split_on_from_pieces.
  - intros dir base Hb Hne Hdot.
    destruct (split_on_from_last "/" dir base "" Hb) as [front E].
    change (dir ++ "/" ++ base) with (dir ++ String "/" base).
    rewrite E, filter_app. cbn [filter].
    assert (Hkeep : negb (is_empty base || str_eqb base ".") = true).
    { apply negb_true_iff, orb_false_iff. split.
      - destruct base; [contradiction|reflexivity].
      - now apply str_eqb_neq. }
    rewrite Hkeep. apply last_snoc.
Qed.

Lemma source_kmz_is_the_file_name_witness :
  source_kmz (build_lots_json sample_env [] "/data/maps/FIELD_misc_export.kmz" None)
  = "FIELD_misc_export.kmz".
Proof.
  apply (proj2 (source_kmz_is_the_file_name sample_env [] None)
           "/data/maps" "FIELD_misc_export.kmz").
  - reflexivity.
  - discriminate.
  - discriminate.
Defined.

(* ================================================================== *)
(** * The filter of the phases layer *)

Lemma upper_char_idempotent (c : ascii) : upper_char (upper_char c) = upper_char c.
Proof. destruct c as [[] [] [] [] [] [] [] []]; reflexivity. Qed.

Lemma upper_lower_char (c : ascii) : upper_char (lower_char c) = upper_char c.
Proof. destruct c as [[] [] [] [] [] [] [] []]; reflexivity. Qed.

Lemma upper_idempotent (s : string) : upper (upper s) = upper s.
Proof.
  unfold upper. induction s as [|c s IH]; simpl; [reflexivity|].
  now rewrite upper_char_idempotent, IH.
Qed.

Lemma upper_lower (s : string) : upper (lower s) = upper s.
Proof.
  unfold upper, lower. induction s as [|c s IH]; simpl; [reflexivity|].
  now rewrite upper_lower_char, IH.
Qed.

Lemma upper_append (a b : string) : upper (a ++ b) = upper a ++ upper b.
Proof.
  unfold upper. induction a as [|c a IH]; simpl; [reflexivity|]. now rewrite IH.
Qed.

Lemma prefix_append (a b : string) : String.prefix a (a ++ b) = true.
Proof.
  induction a as [|c a IH]; simpl; [now destruct b|].
  destruct (ascii_dec c c); [exact IH|contradiction].
Qed.

Lemma str_contains_unfold (needle hay : string) :
  str_contains needle hay =
  String.prefix needle hay ||
  match hay with
  | EmptyString => false
  | String _ r => str_contains needle r
  end.
Proof. destruct hay; reflexivity. Qed.

Lemma str_contains_infix (needle a b : string) :
  str_contains needle (a ++ needle ++ b) = true.
Proof.
  induction a as [|c a IH].
  - change ("" ++ needle ++ b) with (needle ++ b).
    rewrite str_contains_unfold, prefix_append. reflexivity.
  - simpl. rewrite IH. apply orb_true_r.
Qed.

(** X4: the name filter of the phases layer does not depend on the case
    of the letters, and it accepts every name that holds [FASE 1] or
    [FASE 2] in any case, whatever follows: [Fase 10] passes as well. *)
Theorem phase_filter_ignores_case :
  (forall name, phase_filter (upper name) = phase_filter name)
  /\ (forall name, phase_filter (lower name) = phase_filter name)
  /\ (forall a fase b,
        upper fase = "FASE 1" \/ upper fase = "FASE 2" ->
        phase_filter (a ++ fase ++ b) = true).
Proof.
  unfold phase_filter. cbn [existsb]. split; [|split].
  - intros name. now rewrite upper_idempotent.
  - intros name. now rewrite upper_lower.
  - intros a fase b H. rewrite !upper_append.
    destruct H as [-> | ->]; rewrite str_contains_infix; simpl;
      now rewrite ?orb_true_r.
Qed.

Lemma phase_filter_ignores_case_witness :
  phase_filter ("Inovus " ++ "fase 1" ++ "0 norte") = true.
Proof.
  apply (proj2 (proj2 phase_filter_ignores_case)). left. reflexivity.
Defined.

(* ================================================================== *)
(** * Loops that collect *)

Lemma for_each_ext {A S} (xs : list A) (s : S) (f g : S -> A -> result S) :
  (forall s x, f s x = g s x) -> for_each xs s f = for_each xs s g.
Proof.
  intros H. revert s. induction xs as [|x xs IH]; intros s; [reflexivity|].
  rewrite !for_each_cons, H. destruct (g s x); [apply IH|reflexivity].
Qed.

(** A loop that selects a part [t] of each element, computes [f t] and
    appends [g] of the result, is a traversal of the selected parts. *)
Lemma for_each_collect {A T B C} (sel : A -> option T) (f : T -> result B)
  (g : B -> list C) (xs : list A) (acc : list C) :
  for_each xs acc
    (fun acc x =>
       match sel x with
       | Some t => v <- f t ;; Ok (acc ++ g v)%list
       | None => Ok acc
       end)
  = vs <- traverse f
            (flat_map (fun x => match sel x with Some t => [t] | None => [] end)
               xs) ;;
    Ok (acc ++ flat_map g vs)%list.
Proof.
  revert acc. induction xs as [|x xs IH]; intros acc.
  - simpl. now rewrite app_nil_r.
  - rewrite for_each_cons. cbn [flat_map].
    destruct (sel x) as [t|]; [|rewrite bind_ok; apply IH].
    change ([t] ++ ?l)%list with (t :: l). rewrite traverse_cons.
    destruct (f t) as [v|e]; rewrite ?bind_raise; [|reflexivity].
    rewrite !bind_ok, IH.
    destruct (traverse f _) as [vs|e]; rewrite ?bind_raise, ?bind_ok;
      [|reflexivity].
    cbn [flat_map]. now rewrite app_assoc.
Qed.

Lemma flat_map_filter_map {A B} (p : A -> bool) (h : A -> B) (l : list A) :
  flat_map (fun x => if p x then [h x] else []) l = map h (filter p l).
Proof.
  induction l as [|x l IH]; simpl; [reflexivity|].
  destruct (p x); simpl; now rewrite IH.
Qed.

Lemma traverse_length {A B} (f : A -> result B) (xs : list A) (ys : list B) :
  traverse f xs = Ok ys -> List.length ys = List.length xs.
Proof.
  revert ys. induction xs as [|x xs IH]; intros ys; simpl.
  - now inversion 1.
  - destruct (f x) as [y|]; cbn [bind]; [|discriminate].
    destruct (traverse f xs) as [ys'|]; cbn [bind]; [|discriminate].
    inversion 1. simpl. now rewrite (IH ys').
Qed.

Lemma flat_map_option_length {A B} (sel : A -> option B) (l : list A) :
  (List.length
     (flat_map (fun x => match sel x with Some t => [t] | None => [] end) l)
   <= List.length l)%nat.
Proof.
  induction l as [|x l IH]; simpl; [lia|].
  destruct (sel x); simpl; lia.
Qed.

Lemma flat_map_short_length {A B} (g : A -> list B) (l : list A) :
  (forall x, List.length (g x) <= 1)%nat ->
  (List.length (flat_map g l) <= List.length l)%nat.
Proof.
  intros H. induction l as [|x l IH]; simpl; [lia|].
  rewrite length_app. specialize (H x). lia.
Qed.

(* ================================================================== *)
(** * Line strings and points *)

(** [parse_linestring] as a filter over the parsed line strings. *)
Lemma parse_linestring_filter (placemark : element) :
  parse_linestring placemark =
  ls <- traverse parse_coordinates (line_texts placemark) ;;
  Ok (map line_of (filter keeps_line ls)).
Proof.
  unfold parse_linestring, line_texts.
  transitivity
    (vs <- traverse parse_coordinates
             (flat_map
                (fun l => match child_text l with Some t => [t] | None => [] end)
                (iter placemark (kml "LineString"))) ;;
     Ok ([] ++ flat_map (fun c => if keeps_line c then [line_of c] else []) vs)%list).
  2:{ destruct (traverse parse_coordinates _); [|reflexivity].
      rewrite !bind_ok. now rewrite flat_map_filter_map. }
  rewrite <- (for_each_collect child_text parse_coordinates
                (fun c => if keeps_line c then [line_of c] else [])).
  apply for_each_ext. intros s x. unfold child_text.
    destruct (find x _) as [el|]; [|reflexivity].
    destruct (truthy_text el) as [t|]; [|reflexivity].
    destruct (parse_coordinates t) as [coords|]; [|reflexivity].
    rewrite !bind_ok. unfold keeps_line, line_of.
    destruct (2 <=? List.length coords)%nat; [reflexivity|].
    now rewrite app_nil_r.
Qed.

(** [parse_point] as the first coordinates of the parsed points. *)
Lemma parse_point_geometry_firsts (placemark : element) :
  parse_point_geometry placemark =
  cs <- traverse parse_coordinates (point_texts placemark) ;;
  Ok (flat_map point_of cs).
Proof.
  unfold parse_point_geometry, point_texts.
  transitivity
    (vs <- traverse parse_coordinates
             (flat_map
                (fun p => match child_text p with Some t => [t] | None => [] end)
                (iter placemark (kml "Point"))) ;;
     Ok ([] ++ flat_map point_of vs)%list); [|reflexivity].
  rewrite <- (for_each_collect child_text parse_coordinates point_of).
  apply for_each_ext. intros s x. unfold child_text.
    destruct (find x _) as [el|]; [|reflexivity].
    destruct (truthy_text el) as [t|]; [|reflexivity].
    destruct (parse_coordinates t) as [coords|]; [|reflexivity].
    rewrite !bind_ok. unfold point_of.
    destruct coords; [|reflexivity]. now rewrite app_nil_r.
Qed.

(** X5: [parse_linestring] returns the parsed line strings of the
    placemark that have at least 2 points, in document order, each tagged
    [LineString]; a line of one point is dropped, and there is at most one
    geometry for each LineString element. *)
Theorem parse_linestring_keeps_lines_of_2 (placemark : element) :
  parse_linestring placemark =
    (ls <- traverse parse_coordinates (line_texts placemark) ;;
     Ok (map line_of (filter keeps_line ls)))
  /\ (forall lines,
        parse_linestring placemark = Ok lines ->
        Forall (fun g => geometry_kind g = "LineString" /\
                         (2 <= List.length (coordinates g))%nat) lines
        /\ (List.length lines
            <= List.length (iter placemark (kml "LineString")))%nat).
Proof.
  split; [apply parse_linestring_filter|].
  intros lines. rewrite parse_linestring_filter.
  destruct (traverse parse_coordinates (line_texts placemark)) as [ls|] eqn:E;
    cbn [bind]; [|discriminate].
  inversion 1; subst lines. split.
  - apply Forall_forall. intros g Hg. apply in_map_iff in Hg as [c [<- Hc]].
    apply filter_In in Hc as [_ Hk]. split; [reflexivity|].
    now apply Nat.leb_le in Hk.
  - rewrite length_map. apply traverse_length in E.
    pose proof (filter_length_le keeps_line ls).
    pose proof (flat_map_option_length child_text
                  (iter placemark (kml "LineString"))).
    unfold line_texts in E. lia.
Qed.

Lemma parse_linestring_keeps_lines_of_2_witness :
  let line s :=
    Element (kml "LineString") [] None
      [Element (kml "coordinates") [] (Some s) []] in
  let pm := Element (kml "Placemark") [] None [line "1,2"; line "1,2 3,4"] in
  Forall (fun g => geometry_kind g = "LineString" /\
                   (2 <= List.length (coordinates g))%nat)
    [line_of [[of_int 2; of_int 1]; [of_int 4; of_int 3]]]
  /\ (1 <= List.length (iter pm (kml "LineString")))%nat.
Proof.
  intros line pm.
  apply (proj2 (parse_linestring_keeps_lines_of_2 pm)
           [line_of [[of_int 2; of_int 1]; [of_int 4; of_int 3]]]).
  vm_compute. reflexivity.
Defined.

(** X6: [parse_point] returns, for each Point element of the placemark
    whose text holds a coordinate, one geometry tagged [Point] with that
    text's first coordinate only, in document order. *)
Theorem parse_point_keeps_first_coordinate (placemark : element) :
  parse_point_geometry placemark =
    (cs <- traverse parse_coordinates (point_texts placemark) ;;
     Ok (flat_map point_of cs))
  /\ (forall points,
        parse_point_geometry placemark = Ok points ->
        Forall (fun g => geometry_kind g = "Point" /\
                         List.length (coordinates g) = 1%nat) points
        /\ (List.length points
            <= List.length (iter placemark (kml "Point")))%nat).
Proof.
  split; [apply parse_point_geometry_firsts|].
  intros points. rewrite parse_point_geometry_firsts.
  destruct (traverse parse_coordinates (point_texts placemark)) as [cs|] eqn:E;
    cbn [bind]; [|discriminate].
  inversion 1; subst points. split.
  - apply Forall_forall. intros g Hg. apply in_flat_map in Hg as [c [_ Hg]].
    destruct c as [|c0 c]; simpl in Hg; [contradiction|].
    destruct Hg as [<-|[]]. auto.
  - apply traverse_length in E.
    assert (Hle : (List.length (flat_map point_of cs) <= List.length cs)%nat).
    { apply flat_map_short_length. intros [|c0 c]; simpl; lia. }
    pose proof (flat_map_option_length child_text
                  (iter placemark (kml "Point"))).
    unfold point_texts in E. lia.
Qed.

Lemma parse_point_keeps_first_coordinate_witness :
  let pm :=
    Element (kml "Placemark") [] None
      [Element (kml "Point") [] None
         [Element (kml "coordinates") [] (Some "1,2 3,4") []]] in
  Forall (fun g => geometry_kind g = "Point" /\
                   List.length (coordinates g) = 1%nat)
    [mkGeometry [[of_int 2; of_int 1]] "Point"]
  /\ (1 <= List.length (iter pm (kml "Point")))%nat.
Proof.
  intros pm.
  apply (proj2 (parse_point_keeps_first_coordinate pm)
           [mkGeometry [[of_int 2; of_int 1]] "Point"]).
  vm_compute. reflexivity.
Defined.

(* ================================================================== *)
(** * Layer discovery *)

Lemma py_sum_ones {A} (l : list A) :
  py_sum (map (fun _ => 1%nat) l) = List.length l.
Proof.
  unfold py_sum.
  assert (H : forall n, fold_left Nat.add (map (fun _ : A => 1%nat) l) n
                        = (n + List.length l)%nat).
  { induction l as [|x l IH]; intros n; simpl; [lia|]. rewrite IH. lia. }
  apply H.
Qed.

Lemma count_iter_length (placemarks : list element) (t : string) :
  count_iter placemarks t =
  List.length (flat_map (fun pm => iter pm t) placemarks).
Proof. apply py_sum_ones. Qed.

Lemma dict_mem_In {V} (d : list (string * V)) (k : string) :
  dict_mem d k = true <-> In k (map fst d).
Proof.
  unfold dict_mem. induction d as [|[k' v] d IH]; simpl.
  - split; [discriminate|tauto].
  - destruct (str_eqb k' k) eqn:E.
    + apply str_eqb_eq in E. split; auto.
    + apply str_eqb_neq in E. rewrite IH. tauto.
Qed.

Lemma list_folder_spec (layers : list layer_entry) (folder : element) :
  list_folder layers folder =
  if folder_listed folder then (layers ++ [folder_entry folder])%list
  else layers.
Proof. reflexivity. Qed.

(** [list_layers] lists the folders with an id or a placemark, in
    document order. *)
Lemma list_layers_spec (root : element) :
  list_layers root =
  map folder_entry (filter folder_listed (iter root (kml "Folder"))).
Proof.
  unfold list_layers.
  assert (H : forall fs acc,
            fold_left list_folder fs acc =
            (acc ++ map folder_entry (filter folder_listed fs))%list).
  { induction fs as [|f fs IH]; intros acc; cbn [fold_left filter].
    - now rewrite app_nil_r.
    - rewrite IH, list_folder_spec.
      destruct (folder_listed f); [|reflexivity].
      cbn [map]. now rewrite <- app_assoc. }
  apply H.
Qed.

Lemma find_folder_has_id (root : element) (folder_id : string) :
  find_folder root folder_id =
  List.find (has_id folder_id) (iter root (kml "Folder")).
Proof. reflexivity. Qed.

(** The entry listed first under a non-empty id is that of the folder
    [extract_layer] reads. *)
Lemma find_listed_entry (folder_id : string) (fs : list element) :
  folder_id <> "" ->
  List.find (fun e => str_eqb (le_id e) folder_id)
    (map folder_entry (filter folder_listed fs))
  = option_map folder_entry (List.find (has_id folder_id) fs).
Proof.
  intros Hne. induction fs as [|f fs IH]; [reflexivity|].
  cbn [filter List.find]. unfold has_id at 1, folder_listed at 1.
  destruct (dict_get (attrib f) "id") as [i|] eqn:Ei; cbn [get_default].
  - destruct (str_eqb i folder_id) eqn:E.
    + apply str_eqb_eq in E. subst i.
      destruct folder_id; [contradiction|]. cbn [is_empty negb orb map List.find].
      unfold folder_entry at 1. cbn [le_id]. rewrite Ei. cbn [get_default].
      now rewrite str_eqb_refl.
    + destruct (negb (is_empty i) || _); [|exact IH].
      cbn [map List.find]. unfold folder_entry at 1. cbn [le_id].
      rewrite Ei. cbn [get_default]. rewrite E. exact IH.
  - destruct (negb (is_empty "") || _); [|exact IH].
    cbn [map List.find]. unfold folder_entry at 1. cbn [le_id].
    rewrite Ei. cbn [get_default].
    assert (E : str_eqb "" folder_id = false)
      by (apply str_eqb_neq; congruence).
    rewrite E. exact IH.
Qed.

(** X7: [list_layers] lists exactly the folders that have an id or a
    placemark child, in document order, each with its id, name and
    counts: every such folder of the document has its entry, every entry
    is that of such a folder, and an entry is marked configured exactly
    when its id is a key of [LAYER_CONFIG]. *)
Theorem list_layers_lists_folders (root : element) :
  list_layers root =
    map folder_entry (filter folder_listed (iter root (kml "Folder")))
  /\ (forall folder,
        In folder (iter root (kml "Folder")) ->
        (get_default (dict_get (attrib folder) "id") "" <> "" \/
         0 < List.length (findall folder (kml "Placemark")))%nat ->
        exists e,
          In e (list_layers root) /\
          le_id e = get_default (dict_get (attrib folder) "id") "" /\
          le_name e = get_text folder (kml "name") /\
          le_placemarks e = List.length (findall folder (kml "Placemark")) /\
          le_polygons e =
            List.length (flat_map (fun pm => iter pm (kml "Polygon"))
                           (findall folder (kml "Placemark"))) /\
          le_lines e =
            List.length (flat_map (fun pm => iter pm (kml "LineString"))
                           (findall folder (kml "Placemark"))) /\
          le_points e =
            List.length (flat_map (fun pm => iter pm (kml "Point"))
                           (findall folder (kml "Placemark"))))
  /\ (forall e,
        In e (list_layers root) ->
        (le_id e <> "" \/ 0 < le_placemarks e)%nat /\
        (le_configured e = true <-> In (le_id e) (map fst LAYER_CONFIG)) /\
        exists folder,
          In folder (iter root (kml "Folder")) /\
          le_id e = get_default (dict_get (attrib folder) "id") "" /\
          le_placemarks e = List.length (findall folder (kml "Placemark")))
  /\ (List.length (list_layers root)
      <= List.length (iter root (kml "Folder")))%nat.
Proof.
  rewrite list_layers_spec. split; [reflexivity|]. split; [|split].
  - intros folder Hin Hl. exists (folder_entry folder). split.
    + apply in_map, filter_In. split; [exact Hin|].
      unfold folder_listed. destruct Hl as [Hl|Hl].
      * destruct (get_default _ _); [contradiction|reflexivity].
      * apply Nat.ltb_lt in Hl. rewrite Hl. apply orb_true_r.
    + cbn [folder_entry le_id le_name le_placemarks le_polygons le_lines
             le_points].
      rewrite !count_iter_length. repeat split.
  - intros e He. apply in_map_iff in He as [f [<- Hf]].
    apply filter_In in Hf as [Hin Hl]. split; [|split].
    + unfold folder_listed in Hl. apply orb_prop in Hl as [Hl|Hl].
      * left. cbn [folder_entry le_id].
        destruct (get_default _ _); [discriminate|discriminate].
      * right. cbn [folder_entry le_placemarks]. now apply Nat.ltb_lt in Hl.
    + cbn [folder_entry le_configured le_id]. apply dict_mem_In.
    + exists f. split; [exact Hin|]. split; reflexivity.
  - rewrite length_map. apply filter_length_le.
Qed.

(** A folder with a placemark and no id is listed, under the empty id;
    the empty folder without an id is not. *)
Lemma list_layers_lists_folders_witness :
  (exists e,
     In e (list_layers sample_root_folders) /\
     le_id e = "" /\ le_name e = "Sin id" /\ le_placemarks e = 1%nat /\
     le_polygons e = 1%nat /\ le_lines e = 0%nat /\ le_points e = 0%nat)
  /\ list_layers sample_root_folders =
       [mkLayerEntry "" "Sin id" 1 1 0 0 false;
        mkLayerEntry "FeatureLayer17" "" 0 0 0 0 true].
Proof.
  split; [|vm_compute; reflexivity].
  destruct (proj1 (proj2 (list_layers_lists_folders sample_root_folders))
              (Element (kml "Folder") [] None
                 [Element (kml "name") [] (Some " Sin id ") [];
                  sample_placemark "Parque A" sample_square]))
    as [e [He [Hid [Hname [Hpm [Hpoly [Hline Hpt]]]]]]].
  - vm_compute. auto.
  - right. vm_compute. lia.
  - exists e. split; [exact He|]. split; [exact Hid|].
    split; [rewrite Hname; vm_compute; reflexivity|].
    split; [rewrite Hpm; reflexivity|].
    split; [rewrite Hpoly; vm_compute; reflexivity|].
    split; [rewrite Hline; vm_compute; reflexivity|].
    rewrite Hpt. vm_compute. reflexivity.
Defined.

(* ================================================================== *)
(** * Layer extraction *)

Lemma parse_polygon_kinds (placemark : element) (gs : list geometry) :
  parse_polygon placemark = Ok gs ->
  Forall (fun g => geometry_kind g = "Polygon") gs /\
  (List.length gs <= List.length (iter placemark (kml "Polygon")))%nat.
Proof.
  rewrite parse_polygon_filter.
  destruct (traverse parse_coordinates (ring_texts placemark)) as [rings|] eqn:E;
    cbn [bind]; [|discriminate].
  inversion 1; subst gs. split.
  - apply Forall_forall. intros g Hg. now apply in_map_iff in Hg as [c [<- _]].
  - rewrite length_map. apply traverse_length in E.
    pose proof (filter_length_le keeps_ring rings).
    pose proof (flat_map_option_length ring_text
                  (iter placemark (kml "Polygon"))).
    unfold ring_texts in E. lia.
Qed.

(** The geometries [extract_layer] gets for a placemark carry the type of
    the configuration, and there is at most one for each element of that
    type under the placemark. *)
Lemma parse_geometry_kinds kind (placemark : element) (gs : list geometry) :
  parse_geometry kind placemark = Ok gs ->
  Forall (fun g => geometry_kind g = kind) gs /\
  (List.length gs <= List.length (iter placemark (kml kind)))%nat.
Proof.
  unfold parse_geometry.
  destruct (str_eqb kind "Polygon") eqn:E1.
  { apply str_eqb_eq in E1. subst kind. apply parse_polygon_kinds. }
  destruct (str_eqb kind "LineString") eqn:E2.
  { apply str_eqb_eq in E2. subst kind. intros H.
    rewrite parse_linestring_filter in H.
    destruct (traverse parse_coordinates (line_texts placemark)) as [ls|] eqn:E;
      cbn [bind] in H; [|discriminate].
    inversion H; subst gs. split.
    - apply Forall_forall. intros g Hg.
      now apply in_map_iff in Hg as [c [<- _]].
    - rewrite length_map. apply traverse_length in E.
      pose proof (filter_length_le keeps_line ls).
      pose proof (flat_map_option_length child_text
                    (iter placemark (kml "LineString"))).
      unfold line_texts in E. lia. }
  destruct (str_eqb kind "Point") eqn:E3.
  { apply str_eqb_eq in E3. subst kind. intros H.
    rewrite parse_point_geometry_firsts in H.
    destruct (traverse parse_coordinates (point_texts placemark)) as [cs|] eqn:E;
      cbn [bind] in H; [|discriminate].
    inversion H; subst gs. split.
    - apply Forall_forall. intros g Hg. apply in_flat_map in Hg as [c [_ Hg]].
      destruct c as [|c0 c]; simpl in Hg; [contradiction|].
      now destruct Hg as [<-|[]].
    - apply traverse_length in E.
      assert (Hle : (List.length (flat_map point_of cs) <= List.length cs)%nat).
      { apply flat_map_short_length. intros [|c0 c]; simpl; lia. }
      pose proof (flat_map_option_length child_text
                    (iter placemark (kml "Point"))).
      unfold point_texts in E. lia. }
  inversion 1. split; [constructor|simpl; lia].
Qed.

Lemma extract_placemark_matches (config : layer_config) fs placemark fs' :
  Forall (matches_config config) fs ->
  extract_placemark config fs placemark = Ok fs' ->
  Forall (matches_config config) fs'.
Proof.
  unfold extract_placemark. intros Hfs.
  destruct (cfg_filter config) as [name_filter|] eqn:Ef.
  - destruct (name_filter (get_text placemark (kml "name"))) eqn:En;
      cbn [negb]; [|now inversion 1; subst].
    destruct (parse_geometry _ placemark) as [gs|] eqn:Eg; cbn [bind];
      [|discriminate].
    apply parse_geometry_kinds in Eg as [Eg _].
    destruct gs as [|g gs]; inversion 1; subst; auto.
    apply Forall_snoc; auto. repeat split; auto; try discriminate.
    cbn [f_name]. intros nf Hnf. rewrite Ef in Hnf. now inversion Hnf; subst.
  - destruct (parse_geometry _ placemark) as [gs|] eqn:Eg; cbn [bind];
      [|discriminate].
    apply parse_geometry_kinds in Eg as [Eg _].
    destruct gs as [|g gs]; inversion 1; subst; auto.
    apply Forall_snoc; auto. repeat split; auto; try discriminate.
    intros nf Hnf. rewrite Ef in Hnf. discriminate.
Qed.

(** X8: every feature [extract_layer] returns carries the layer and the
    type of the configuration entry, a name the entry's filter accepts,
    and at least one geometry, all of the entry's geometry type. *)
Theorem extract_layer_features_match_config (root : element)
  (folder_id : string) (config : layer_config) (fs : list feature) :
  extract_layer root folder_id config = Ok fs ->
  Forall (fun f =>
            f_layer f = Some (cfg_layer config) /\
            f_type f = Some (cfg_type config) /\
            (forall name_filter,
               cfg_filter config = Some name_filter ->
               name_filter (f_name f) = true) /\
            ~ f_polygons f = [] /\
            Forall (fun g => geometry_kind g = cfg_geometry config)
              (f_polygons f)) fs.
Proof.
  unfold extract_layer. destruct (find_folder root folder_id) as [folder|].
  - apply (for_each_invariant (Forall (matches_config config))); [|constructor].
    intros s x s' Hs. now apply extract_placemark_matches.
  - inversion 1. constructor.
Qed.

Lemma extract_layer_features_match_config_witness :
  exists f,
    extract_layer sample_root "FeatureLayer50"
      (mkConfig "phases" "inovus_phase" "Polygon" (Some phase_filter) true)
    = Ok [f]
    /\ f_layer f = Some "phases" /\ f_type f = Some "inovus_phase"
    /\ phase_filter (f_name f) = true.
Proof.
  destruct (extract_layer sample_root "FeatureLayer50"
              (mkConfig "phases" "inovus_phase" "Polygon" (Some phase_filter) true))
    as [[|f [|g fs]]|] eqn:E; try (vm_compute in E; discriminate).
  pose proof (extract_layer_features_match_config _ _ _ _ E) as H.
  inversion H as [|? ? [Hl [Ht [Hf _]]] _]; subst.
  exists f. split; [reflexivity|]. split; [exact Hl|]. split; [exact Ht|].
  apply Hf. reflexivity.
Defined.

Lemma find_none_forall {A} (p : A -> bool) (l : list A) :
  (forall x, In x l -> p x = false) -> List.find p l = None.
Proof.
  induction l as [|x l IH]; intros H; simpl; [reflexivity|].
  rewrite (H x) by (simpl; auto). apply IH. intros y Hy. apply H. simpl. auto.
Qed.

Lemma extract_unknown_geometry (config : layer_config) (pms : list element) :
  ~ In (cfg_geometry config) geometry_types ->
  for_each pms [] (extract_placemark config) = Ok [].
Proof.
  intros Hk. induction pms as [|pm pms IH]; [reflexivity|].
  rewrite for_each_cons.
  assert (Hg : parse_geometry (cfg_geometry config) pm = Ok []).
  { unfold parse_geometry.
    repeat match goal with
           | |- context [str_eqb ?a ?b] =>
               let E := fresh "E" in
               destruct (str_eqb a b) eqn:E;
               [apply str_eqb_eq in E; exfalso; apply Hk; rewrite E;
                unfold geometry_types; simpl; tauto|]
           end.
    reflexivity. }
  unfold extract_placemark at 1. rewrite Hg.
  destruct (match cfg_filter config with Some _ => _ | None => _ end);
    rewrite ?bind_ok; exact IH.
Qed.

(** X9: [extract_layer] returns the empty list, and raises nothing,
    when no folder of the document has the id, and when the geometry type
    of the configuration is none of [Polygon], [LineString], [Point];
    the coordinates of the document are not read then. *)
Theorem extract_layer_returns_nothing (root : element) (folder_id : string)
  (config : layer_config) :
  ((forall f, In f (iter root (kml "Folder")) ->
      dict_get (attrib f) "id" <> Some folder_id) ->
   extract_layer root folder_id config = Ok [])
  /\ (~ In (cfg_geometry config) geometry_types ->
      extract_layer root folder_id config = Ok []).
Proof.
  unfold extract_layer. split.
  - intros H. rewrite find_folder_has_id, find_none_forall; [reflexivity|].
    intros f Hf. specialize (H f Hf). unfold has_id.
    destruct (dict_get (attrib f) "id") as [i|]; [|reflexivity].
    apply str_eqb_neq. congruence.
  - intros H. destruct (find_folder root folder_id); [|reflexivity].
    now apply extract_unknown_geometry.
Qed.

Lemma extract_layer_returns_nothing_witness :
  extract_layer sample_root "FeatureLayer58"
    (mkConfig "urbanFootprint" "urban" "Polygon" None true) = Ok []
  /\ extract_layer
       (Element (kml "Folder") [("id", "FeatureLayer27")] None
          [sample_placemark "Roto" "not,numbers"])
       "FeatureLayer27"
       (mkConfig "industrialParks" "industrial_park" "MultiGeometry" None true)
     = Ok [].
Proof.
  split.
  - apply (proj1 (extract_layer_returns_nothing sample_root "FeatureLayer58" _)).
    intros f Hf. vm_compute in Hf.
    destruct Hf as [<-|[<-|[]]]; discriminate.
  - apply (proj2 (extract_layer_returns_nothing _ "FeatureLayer27" _)).
    unfold geometry_types. simpl. intros [H|[H|[H|[]]]]; discriminate H.
Defined.

Lemma extract_placemark_counts (config : layer_config) fs placemark fs' :
  extract_placemark config fs placemark = Ok fs' ->
  (List.length fs' <= List.length fs + 1)%nat /\
  (List.length (flat_map f_polygons fs')
   <= List.length (flat_map f_polygons fs)
      + List.length (iter placemark (kml (cfg_geometry config))))%nat.
Proof.
  unfold extract_placemark.
  destruct (match cfg_filter config with Some _ => _ | None => _ end);
    [inversion 1; subst; lia|].
  destruct (parse_geometry _ placemark) as [gs|] eqn:Eg; cbn [bind];
    [|discriminate].
  apply parse_geometry_kinds in Eg as [_ Eg].
  destruct gs as [|g gs]; inversion 1; subst; [lia|].
  rewrite flat_map_app, !length_app. cbn [flat_map f_polygons].
  rewrite app_nil_r. simpl List.length at 2. lia.
Qed.

Lemma extract_loop_counts (config : layer_config) (pms : list element) fs fs' :
  for_each pms fs (extract_placemark config) = Ok fs' ->
  (List.length fs' <= List.length fs + List.length pms)%nat /\
  (List.length (flat_map f_polygons fs')
   <= List.length (flat_map f_polygons fs)
      + count_iter pms (kml (cfg_geometry config)))%nat.
Proof.
  rewrite count_iter_length.
  revert fs. induction pms as [|pm pms IH]; intros fs.
  - simpl. inversion 1; subst. lia.
  - rewrite for_each_cons.
    destruct (extract_placemark config fs pm) as [fs1|] eqn:E;
      rewrite ?bind_ok, ?bind_raise; [|discriminate].
    intros H. apply IH in H as [H1 H2].
    apply extract_placemark_counts in E as [E1 E2].
    cbn [flat_map List.length]. rewrite length_app. lia.
Qed.

(** X10: the features [extract_layer] returns for a folder id are within
    the counts [list_layers] reports in its first entry with that id: no
    more features than placemarks, and no more geometries than elements of
    the configured type; and there is no feature when no entry has the
    id. *)
Theorem extract_layer_within_listed_counts (root : element)
  (folder_id : string) (config : layer_config) (fs : list feature) :
  folder_id <> "" ->
  extract_layer root folder_id config = Ok fs ->
  match List.find (fun e => str_eqb (le_id e) folder_id) (list_layers root) with
  | Some e =>
      (List.length fs <= le_placemarks e)%nat /\
      (List.length (flat_map f_polygons fs)
       <= listed_count e (cfg_geometry config))%nat
  | None => fs = []
  end.
Proof.
  intros Hne. rewrite list_layers_spec, find_listed_entry by assumption.
  unfold extract_layer. rewrite find_folder_has_id.
  destruct (List.find (has_id folder_id) (iter root (kml "Folder")))
    as [folder|]; cbn [option_map]; [|now inversion 1].
  intros H.
  destruct (in_dec string_dec (cfg_geometry config) geometry_types) as [Hin|Hout].
  - apply extract_loop_counts in H as [H1 H2]. simpl in H1, H2.
    split; [exact H1|]. unfold listed_count. cbn [folder_entry le_polygons le_lines le_points].
    unfold geometry_types in Hin. simpl in Hin.
    destruct Hin as [Hk|[Hk|[Hk|[]]]]; rewrite <- Hk in *; exact H2.
  - rewrite extract_unknown_geometry in H by assumption.
    inversion H; subst. simpl. lia.
Qed.

Lemma extract_layer_within_listed_counts_witness :
  let config :=
    mkConfig "industrialParks" "industrial_park" "Polygon" None true in
  match extract_layer sample_root "FeatureLayer27" config with
  | Ok fs =>
      match List.find (fun e => str_eqb (le_id e) "FeatureLayer27")
              (list_layers sample_root) with
      | Some e =>
          (List.length fs <= le_placemarks e)%nat /\
          (List.length (flat_map f_polygons fs)
           <= listed_count e (cfg_geometry config))%nat
      | None => fs = []
      end
  | Raise _ => False
  end.
Proof.
  intros config.
  destruct (extract_layer sample_root "FeatureLayer27" config) as [fs|] eqn:E;
    [|vm_compute in E; discriminate].
  apply (extract_layer_within_listed_counts sample_root "FeatureLayer27" config);
    [discriminate|exact E].
Defined.

(* ================================================================== *)
(** * Extraction by layers *)

Lemma flat_map_select_filter {A} (p : A -> bool) (l : list A) :
  flat_map (fun x => match (if p x then Some x else None) with
                     | Some t => [t]
                     | None => []
                     end) l
  = filter p l.
Proof.
  induction l as [|x l IH]; simpl; [reflexivity|].
  destruct (p x); simpl; now rewrite IH.
Qed.

Lemma flat_map_id_concat {A} (l : list (list A)) :
  flat_map (fun x => x) l = List.concat l.
Proof. induction l as [|x l IH]; simpl; [reflexivity|]. now rewrite IH. Qed.

(** [parse_kml_by_layers] reads the selected entries of [LAYER_CONFIG] in
    order and concatenates what [extract_layer] returns for each. *)
Lemma parse_kml_by_layers_traverse (root : element)
  (layer_filter : option (list string)) :
  parse_kml_by_layers root layer_filter =
  fss <- traverse (fun e => extract_layer root (fst e) (snd e))
           (filter (layer_selected layer_filter) LAYER_CONFIG) ;;
  Ok (List.concat fss).
Proof.
  unfold parse_kml_by_layers.
  transitivity
    (vs <- traverse (fun e => extract_layer root (fst e) (snd e))
             (flat_map
                (fun x => match (if layer_selected layer_filter x
                                 then Some x else None) with
                          | Some t => [t]
                          | None => []
                          end) LAYER_CONFIG) ;;
     Ok ([] ++ flat_map (fun x => x) vs)%list).
  2:{ rewrite flat_map_select_filter.
      destruct (traverse _ _); [|reflexivity].
      rewrite !bind_ok. now rewrite flat_map_id_concat. }
  rewrite <- (for_each_collect
                (fun x => if layer_selected layer_filter x then Some x else None)
                (fun e => extract_layer root (fst e) (snd e))
                (fun x => x)).
  apply for_each_ext. intros s [folder_id config].
  unfold layer_selected. cbn [fst snd].
  destruct (filter_active layer_filter) as [names|]; [|reflexivity].
  destruct (str_in (cfg_layer config) names); reflexivity.
Qed.

Lemma in_concat_incl {A} (l : list A) (ls : list (list A)) :
  In l ls -> incl l (List.concat ls).
Proof. intros H x Hx. apply in_concat. eauto. Qed.

(** What [parse_kml_by_layers] returns comes from the selected entries,
    and all of it. *)
Lemma parse_kml_by_layers_parts (root : element)
  (layer_filter : option (list string)) (fs : list feature) :
  parse_kml_by_layers root layer_filter = Ok fs ->
  (forall folder_id config,
     In (folder_id, config) LAYER_CONFIG ->
     layer_selected layer_filter (folder_id, config) = true ->
     exists features,
       extract_layer root folder_id config = Ok features /\ incl features fs)
  /\ (forall f, In f fs ->
        exists folder_id config features,
          In (folder_id, config) LAYER_CONFIG /\
          layer_selected layer_filter (folder_id, config) = true /\
          extract_layer root folder_id config = Ok features /\ In f features).
Proof.
  rewrite parse_kml_by_layers_traverse.
  destruct (traverse _ _) as [fss|] eqn:E; cbn [bind]; [|discriminate].
  inversion 1; subst fs. apply traverse_In in E as [E1 E2]. split.
  - intros folder_id config Hin Hs.
    destruct (E1 (folder_id, config)) as [features [Hf Hin']].
    + apply filter_In. auto.
    + exists features. split; [exact Hf|now apply in_concat_incl].
  - intros f Hf. apply in_concat in Hf as [features [Hfs Hf]].
    destruct (E2 features Hfs) as [[folder_id config] [Hin He]].
    apply filter_In in Hin as [Hin Hs].
    exists folder_id, config, features. auto.
Qed.

(** X11: [parse_kml_by_layers] reads every entry of [LAYER_CONFIG] the
    layer filter selects: the features of each are in the result, and
    the result holds nothing else.  Without a filter all six entries are
    read, those with [enabled] False included: the flag does not keep a
    folder from being extracted. *)
Theorem parse_kml_by_layers_reads_selected_folders (root : element)
  (layer_filter : option (list string)) (fs : list feature) :
  parse_kml_by_layers root layer_filter = Ok fs ->
  (forall folder_id config,
     In (folder_id, config) LAYER_CONFIG ->
     layer_selected layer_filter (folder_id, config) = true ->
     exists features,
       extract_layer root folder_id config = Ok features /\ incl features fs)
  /\ (forall f, In f fs ->
        exists folder_id config features,
          In (folder_id, config) LAYER_CONFIG /\
          layer_selected layer_filter (folder_id, config) = true /\
          extract_layer root folder_id config = Ok features /\ In f features)
  /\ (layer_filter = None ->
      forall folder_id config,
        In (folder_id, config) LAYER_CONFIG ->
        exists features,
          extract_layer root folder_id config = Ok features /\
          incl features fs).
Proof.
  intros H. destruct (parse_kml_by_layers_parts root layer_filter fs H) as [H1 H2].
  split; [exact H1|]. split; [exact H2|].
  intros E folder_id config Hin. apply H1; [exact Hin|]. now rewrite E.
Qed.

Lemma parse_kml_by_layers_reads_selected_folders_witness :
  let root :=
    Element (kml "Folder") [("id", "FeatureLayer17")] None
      [Element (kml "Placemark") [] None
         [Element (kml "name") [] (Some "Subestacion") [];
          Element (kml "Point") [] None
            [Element (kml "coordinates") [] (Some "-98.20,26.07,0") []]]] in
  let feature :=
    mkFeature "Subestacion" ""
      [mkGeometry [[lit_26_07; lit_m98_20]] "Point"]
      (Some "electricity") (Some "substation") in
  parse_kml_by_layers root None = Ok [feature]
  /\ exists features,
       extract_layer root "FeatureLayer17"
         (mkConfig "electricity" "substation" "Point" None false) = Ok features
       /\ incl features [feature].
Proof.
  intros root feature.
  assert (H : parse_kml_by_layers root None = Ok [feature])
    by (vm_compute; reflexivity).
  split; [exact H|].
  apply (proj2 (proj2 (parse_kml_by_layers_reads_selected_folders
                         root None [feature] H)) eq_refl).
  unfold LAYER_CONFIG. simpl. tauto.
Defined.

Lemma parse_kml_by_layers_filtered (root : element) (names : list string)
  (fs : list feature) :
  names <> [] ->
  parse_kml_by_layers root (Some names) = Ok fs ->
  Forall (fun f => exists layer,
                     f_layer f = Some layer /\ In layer names /\
                     In layer config_layers) fs.
Proof.
  intros Hne H.
  destruct (parse_kml_by_layers_parts root (Some names) fs H) as [_ Hall].
  apply Forall_forall. intros f Hf.
  destruct (Hall f Hf) as [folder_id [config [features [Hin [Hs [He Hf']]]]]].
  apply extract_layer_ok in He. rewrite Forall_forall in He.
  destruct (He f Hf') as [_ Hl]. exists (cfg_layer config).
  split; [exact Hl|]. split.
  - unfold layer_selected in Hs. destruct names as [|n names]; [contradiction|].
    cbn [filter_active snd] in Hs. now apply str_in_In.
  - unfold config_layers.
    now apply (in_map (fun kv => cfg_layer (snd kv))) in Hin.
Qed.

(** X12: with a layer filter that is not empty, every feature
    [parse_kml_by_layers] returns carries a layer that the filter names
    (and that the configuration has). *)
Theorem parse_kml_by_layers_respects_filter (root : element)
  (names : list string) (fs : list feature) :
  names <> [] ->
  parse_kml_by_layers root (Some names) = Ok fs ->
  Forall (fun f => exists layer,
                     f_layer f = Some layer /\ In layer names /\
                     In layer config_layers) fs.
Proof. apply parse_kml_by_layers_filtered. Qed.

Lemma parse_kml_by_layers_respects_filter_witness :
  Forall (fun f => exists layer,
                     f_layer f = Some layer /\ In layer ["industrialParks"] /\
                     In layer config_layers)
    (match parse_kml_by_layers sample_root (Some ["industrialParks"]) with
     | Ok fs => fs
     | Raise _ => []
     end).
Proof.
  destruct (parse_kml_by_layers sample_root (Some ["industrialParks"]))
    as [fs|] eqn:E; [|constructor].
  apply (parse_kml_by_layers_respects_filter sample_root ["industrialParks"]);
    [discriminate|exact E].
Defined.

Lemma filter_none {A} (p : A -> bool) (l : list A) :
  (forall x, In x l -> p x = false) -> filter p l = [].
Proof.
  induction l as [|x l IH]; intros H; simpl; [reflexivity|].
  rewrite (H x) by (simpl; auto). apply IH. intros y Hy. apply H. simpl. auto.
Qed.

(** X13: a layer filter none of whose names is a layer of the
    configuration selects nothing: [parse_kml_by_layers] returns the
    empty list for every document, without reading a coordinate. *)
Theorem parse_kml_by_layers_unknown_filter (root : element)
  (names : list string) :
  names <> [] ->
  (forall n, In n names -> ~ In n config_layers) ->
  parse_kml_by_layers root (Some names) = Ok [].
Proof.
  intros Hne Hun. rewrite parse_kml_by_layers_traverse.
  rewrite filter_none; [reflexivity|].
  intros [folder_id config] Hin. unfold layer_selected.
  destruct names as [|n names]; [contradiction|]. cbn [filter_active snd].
  destruct (str_in (cfg_layer config) (n :: names)) eqn:E; [|reflexivity].
  exfalso. apply str_in_In in E. apply (Hun _ E). unfold config_layers.
  now apply (in_map (fun kv => cfg_layer (snd kv))) in Hin.
Qed.

Lemma parse_kml_by_layers_unknown_filter_witness :
  parse_kml_by_layers
    (Element (kml "Folder") [("id", "FeatureLayer27")] None
       [sample_placemark "Roto" "not,numbers"])
    (Some ["industrialparks"; ""]) = Ok [].
Proof.
  apply parse_kml_by_layers_unknown_filter; [discriminate|].
  unfold config_layers. simpl.
  intros n [<-|[<-|[]]] H;
    repeat (destruct H as [H|H]; [discriminate H|]); exact H.
Defined.

(* ================================================================== *)
(** * The run *)

Lemma run_extracted (lib : library) (env : environment) (z : zip_archive)
  (a : arguments) (doc : document) :
  run lib env z a = Ok doc ->
  exists root raw,
    extract_features root a = Ok raw /\
    doc = build_lots_json env raw (arg_input a) (layer_filter_of a).
Proof.
  unfold run.
  destruct (extract_kml_from_kmz lib z) as [kml_content|]; cbn [bind];
    [|discriminate].
  destruct (fromstring lib kml_content) as [root|]; cbn [bind or_raise];
    [|discriminate].
  destruct (extract_features root a) as [raw|] eqn:E; cbn [bind];
    [|discriminate].
  inversion 1. exists root, raw. auto.
Qed.

Lemma lots_from_nth_lot (raw before : list feature) (i : nat) (l : lot) :
  nth_error (lots_from before raw) i = Some l ->
  exists f,
    nth_error raw i = Some f /\
    lot_layer l = layer_of f /\
    lot_type l = f_type f /\
    lot_id l = expected_id (layer_of f) (before ++ firstn i raw).
Proof.
  revert before i. induction raw as [|g raw IH]; intros before i H.
  - destruct i; discriminate.
  - destruct i as [|i]; simpl in H.
    + inversion H; subst. exists g. simpl. rewrite app_nil_r. auto.
    + destruct (IH _ _ H) as [f [Hn [Hl [Ht Hid]]]].
      exists f. simpl. rewrite <- app_assoc in Hid. auto.
Qed.

Lemma count_layer_all (layer : string) (fs : list feature) :
  Forall (fun f => layer_of f = layer) fs ->
  count_layer layer fs = List.length fs.
Proof.
  unfold count_layer. induction 1 as [|f fs Hf Hfs IH]; simpl; [reflexivity|].
  rewrite Hf, str_eqb_refl. simpl. now rewrite IH.
Qed.

Lemma Forall_firstn' {A} (P : A -> Prop) (n : nat) (l : list A) :
  Forall P l -> Forall P (firstn n l).
Proof.
  intros H. revert n. induction H as [|x l Hx Hl IH]; intros [|n]; simpl;
    constructor; auto.
Qed.

Lemma nodup_constant (a : string) (l : list string) :
  (forall x, In x l -> x = a) -> l <> [] -> nodup string_dec l = [a].
Proof.
  induction l as [|x l IH]; intros H Hne; [contradiction|].
  assert (Hx : x = a) by (apply H; simpl; auto). subst x. simpl.
  destruct l as [|y l].
  - destruct (in_dec string_dec a []) as [[]|_]. reflexivity.
  - assert (Hy : y = a) by (apply H; simpl; auto). subst y.
    destruct (in_dec string_dec a (a :: l)) as [_|Hn].
    + apply IH; [|discriminate]. intros x Hx. apply H. simpl. auto.
    + exfalso. apply Hn. simpl. auto.
Qed.

(** The features of the legacy mode carry no layer and no type. *)
Lemma parse_kml_placemarks_untagged (root : element) (fs : list feature) :
  parse_kml_placemarks root = Ok fs ->
  Forall (fun f => f_layer f = None /\ f_type f = None) fs.
Proof.
  unfold parse_kml_placemarks.
  apply (for_each_invariant
           (Forall (fun f => f_layer f = None /\ f_type f = None)));
    [|constructor].
  intros s x s' Hs. unfold legacy_placemark.
  destruct (parse_polygon x) as [gs|]; cbn [bind]; [|discriminate].
  destruct gs as [|g gs]; inversion 1; subst; auto.
  apply Forall_snoc; auto.
Qed.

(** X14: in the legacy mode every record is of the layer [lots], has no
    type, and the i-th record (from 0) has the id [lots_] followed by
    i + 1 written with three digits at least; the block [layers] has the
    single key [lots], enabled and with an empty style, when there is a
    record, and is empty otherwise. *)
Theorem legacy_lots_are_numbered (lib : library) (env : environment)
  (z : zip_archive) (a : arguments) (doc : document) :
  arg_legacy a = true ->
  run lib env z a = Ok doc ->
  (forall i l,
     nth_error (lots doc) i = Some l ->
     lot_layer l = "lots" /\ lot_type l = None /\
     lot_id l = "lots_" ++ format_03d (S i))
  /\ (set_order_ok env ->
      layers doc =
        match lots doc with
        | [] => []
        | _ :: _ => [("lots", mkMeta true [])]
        end).
Proof.
  intros Hleg Hrun. apply run_extracted in Hrun as [root [raw [Hraw ->]]].
  unfold extract_features in Hraw. rewrite Hleg in Hraw.
  apply parse_kml_placemarks_untagged in Hraw.
  assert (Hlay : Forall (fun f => layer_of f = "lots") raw).
  { eapply Forall_impl; [|exact Hraw]. intros f [Hl _].
    unfold layer_of. now rewrite Hl. }
  cbn [lots layers build_lots_json]. rewrite assemble_lots_spec. split.
  - intros i l Hn. apply lots_from_nth_lot in Hn as [f [Hf [Hl [Ht Hid]]]].
    assert (Hin : In f raw) by (eapply nth_error_In; eauto).
    rewrite Forall_forall in Hraw, Hlay.
    rewrite Hl, Ht, Hid, (Hlay f Hin). split; [reflexivity|].
    split; [exact (proj2 (Hraw f Hin))|].
    unfold expected_id. rewrite app_nil_l.
    rewrite count_layer_all by (apply Forall_firstn'; now apply Forall_forall).
    rewrite firstn_length_le; [reflexivity|].
    apply Nat.lt_le_incl, nth_error_Some. congruence.
  - intros Henv. rewrite build_layers_meta_spec by assumption.
    rewrite lots_from_layers.
    destruct raw as [|f raw]; cbn [lots_from map].
    + pose proof (Henv []) as Hp. simpl in Hp.
      apply Permutation_sym, Permutation_nil in Hp. now rewrite Hp.
    + pose proof (Henv (layer_of f :: map layer_of raw)) as Hp.
      rewrite (nodup_constant "lots") in Hp.
      * apply Permutation_sym, Permutation_length_1_inv in Hp. rewrite Hp.
        reflexivity.
      * intros x Hx. change (In x (map layer_of (f :: raw))) in Hx.
        apply in_map_iff in Hx as [g [<- Hg]].
        rewrite Forall_forall in Hlay. now apply Hlay.
      * discriminate.
Qed.

Lemma legacy_lots_are_numbered_witness :
  exists doc,
    run sample_library sample_env sample_zip (mkArgs "maps/FIELD.kmz" None true)
    = Ok doc
    /\ map lot_id (lots doc) = ["lots_001"; "lots_002"; "lots_003"; "lots_004"]
    /\ (forall i l,
          nth_error (lots doc) i = Some l ->
          lot_layer l = "lots" /\ lot_type l = None /\
          lot_id l = "lots_" ++ format_03d (S i))
    /\ layers doc = [("lots", mkMeta true [])].
Proof.
  destruct (run sample_library sample_env sample_zip
              (mkArgs "maps/FIELD.kmz" None true)) as [doc|] eqn:E;
    [|vm_compute in E; discriminate].
  exists doc. split; [reflexivity|].
  destruct (legacy_lots_are_numbered sample_library sample_env sample_zip
              (mkArgs "maps/FIELD.kmz" None true) doc eq_refl E) as [H1 H2].
  assert (Hids : map lot_id (lots doc)
                 = ["lots_001"; "lots_002"; "lots_003"; "lots_004"]).
  { vm_compute in E. inversion E. reflexivity. }
  split; [exact Hids|]. split; [exact H1|].
  rewrite (H2 sample_env_ok).
  destruct (lots doc); [discriminate Hids|reflexivity].
Defined.

Lemma split_on_from_nonempty sep (cur s : string) :
  split_on_from sep cur s <> [].
Proof.
  revert cur. induction s as [|c s IH]; intros cur; simpl; [discriminate|].
  destruct (Ascii.eqb c sep); [discriminate|apply IH].
Qed.

(** X18: with [--layers] and without [--legacy], every record of the
    output is of a layer named in the option (names are taken between the
    commas, without the whitespace around them). *)
Theorem run_keeps_to_requested_layers (lib : library) (env : environment)
  (z : zip_archive) (a : arguments) (s : string) (doc : document) :
  arg_legacy a = false -> arg_layers a = Some s -> s <> "" ->
  run lib env z a = Ok doc ->
  Forall (fun l => In (lot_layer l) (map strip (split_on "," s)) /\
                   In (lot_layer l) config_layers) (lots doc).
Proof.
  intros Hleg Hs Hne Hrun. apply run_extracted in Hrun as [root [raw [Hraw ->]]].
  unfold extract_features in Hraw. rewrite Hleg in Hraw.
  unfold layer_filter_of in Hraw. rewrite Hs in Hraw.
  destruct s as [|c s]; [contradiction|]. cbn [is_empty] in Hraw.
  apply parse_kml_by_layers_filtered in Hraw.
  - cbn [lots build_lots_json]. rewrite assemble_lots_spec.
    apply Forall_forall. intros l Hl.
    assert (Hin : In (lot_layer l) (map layer_of raw)).
    { rewrite <- (lots_from_layers raw []). now apply in_map. }
    apply in_map_iff in Hin as [f [Hf Hin]]. rewrite <- Hf.
    rewrite Forall_forall in Hraw.
    destruct (Hraw f Hin) as [layer [Hl' [H1 H2]]].
    unfold layer_of. rewrite Hl'. auto.
  - pose proof (split_on_from_nonempty "," "" (String c s)) as Hsp.
    unfold split_on. destruct (split_on_from "," "" (String c s));
      [contradiction|discriminate].
Qed.

Lemma run_keeps_to_requested_layers_witness :
  exists doc,
    run sample_library sample_env sample_zip
      (mkArgs "maps/FIELD.kmz" (Some " industrialParks , electricity") false)
    = Ok doc
    /\ map lot_layer (lots doc) = ["industrialParks"; "industrialParks"]
    /\ Forall (fun l => In (lot_layer l)
                          (map strip (split_on "," " industrialParks , electricity")) /\
                        In (lot_layer l) config_layers) (lots doc).
Proof.
  destruct (run sample_library sample_env sample_zip
              (mkArgs "maps/FIELD.kmz" (Some " industrialParks , electricity") false))
    as [doc|] eqn:E; [|vm_compute in E; discriminate].
  exists doc. split; [reflexivity|]. split.
  - vm_compute in E. inversion E. reflexivity.
  - apply (run_keeps_to_requested_layers sample_library sample_env sample_zip
             (mkArgs "maps/FIELD.kmz" (Some " industrialParks , electricity") false)
             " industrialParks , electricity" doc);
      [reflexivity|reflexivity|discriminate|exact E].
Defined.

(** X19: the listing of [--list-layers] does not read coordinates: when
    the extraction fails on a coordinate that is not a number, the
    listing of the same archive succeeds; and whatever makes the listing
    fail makes every extraction fail the same way. *)
Theorem list_mode_ignores_coordinates (lib : library) (z : zip_archive) :
  (forall env a literal,
     run lib env z a = Raise (FloatValueError literal) ->
     exists entries, run_list_layers lib z = Ok entries)
  /\ (forall e env a,
        run_list_layers lib z = Raise e -> run lib env z a = Raise e).
Proof.
  unfold run, run_list_layers. split.
  - intros env a literal.
    assert (Hk : forall e, extract_kml_from_kmz lib z = Raise e ->
                           e <> FloatValueError literal).
    { unfold extract_kml_from_kmz, read_decoded, or_raise.
      destruct (filter _ (namelist z)) as [|first rest];
        [inversion 1; discriminate|].
      cbv zeta.
      destruct (read z _) as [data|]; cbn [bind];
        [destruct (decode_utf8 lib data)|]; inversion 1; discriminate. }
    destruct (extract_kml_from_kmz lib z) as [kml_content|e]; cbn [bind].
    + destruct (fromstring lib kml_content) as [root|]; cbn [bind or_raise];
        [intros _; eexists; reflexivity|discriminate].
    + intros H. inversion H as [He]. exfalso. now apply (Hk e).
  - intros e env a.
    destruct (extract_kml_from_kmz lib z) as [kml_content|]; cbn [bind];
      [|now inversion 1].
    destruct (fromstring lib kml_content) as [root|]; cbn [bind or_raise];
      [discriminate|now inversion 1].
Qed.

Lemma list_mode_ignores_coordinates_witness :
  let lib :=
    mkLibrary (fun data => Some data)
      (fun _ => Some (Element (kml "Folder") [("id", "FeatureLayer27")] None
                        [sample_placemark "Roto" "not,numbers"])) in
  run lib sample_env sample_zip sample_arguments = Raise (FloatValueError "not")
  /\ exists entries, run_list_layers lib sample_zip = Ok entries.
Proof.
  intros lib.
  assert (H : run lib sample_env sample_zip sample_arguments
              = Raise (FloatValueError "not")) by (vm_compute; reflexivity).
  split; [exact H|].
  exact (proj1 (list_mode_ignores_coordinates lib sample_zip)
           sample_env sample_arguments "not" H).
Defined.

(* ================================================================== *)
(** * The block of layers *)

Lemma layer_enabled_spec (name : string) :
  layer_enabled name = negb (str_eqb name "electricity").
Proof.
  unfold layer_enabled, config_key_of_layer, LAYER_CONFIG.
  cbn [List.find snd fst cfg_layer].
  destruct (str_eqb "phases" name) eqn:E1;
    [apply str_eqb_eq in E1; subst; reflexivity|].
  destruct (str_eqb "industrialParks" name) eqn:E2;
    [apply str_eqb_eq in E2; subst; reflexivity|].
  destruct (str_eqb "urbanFootprint" name) eqn:E3;
    [apply str_eqb_eq in E3; subst; reflexivity|].
  destruct (str_eqb "electricity" name) eqn:E4;
    [apply str_eqb_eq in E4; subst; reflexivity|].
  assert (E : str_eqb name "electricity" = false).
  { apply str_eqb_neq. apply str_eqb_neq in E4. congruence. }
  rewrite E. reflexivity.
Qed.

(** X15: the block [layers] has a key for each layer that a record
    carries and for no other name; the entry of a layer is written as
    disabled for [electricity] only, and enabled for every other name,
    the names the configuration does not know included; its style is that
    of [LAYER_STYLES], or empty for a name without one. *)
Theorem layers_block_describes_lot_layers (env : environment)
  (raw : list feature) (source : string) (layer_filter : option (list string)) :
  set_order_ok env ->
  let doc := build_lots_json env raw source layer_filter in
  (forall name,
     In name (map fst (layers doc)) <-> In name (map lot_layer (lots doc)))
  /\ (forall name meta,
        In (name, meta) (layers doc) ->
        meta_enabled meta = negb (str_eqb name "electricity") /\
        meta_style meta = get_default (dict_get LAYER_STYLES name) []).
Proof.
  intros Henv. cbv zeta. cbn [layers lots build_lots_json].
  rewrite build_layers_meta_spec by assumption.
  set (names := map lot_layer (assemble_lots raw)). split.
  - intros name. rewrite map_map. cbn [fst]. rewrite map_id.
    split; intros H.
    + apply (nodup_In string_dec).
      eapply Permutation_in; [apply Henv|exact H].
    + apply (nodup_In string_dec) in H.
      eapply Permutation_in; [apply Permutation_sym, Henv|exact H].
  - intros name meta H. apply in_map_iff in H as [k [Hk _]].
    inversion Hk; subst. unfold layer_meta_of. cbn [meta_enabled meta_style].
    split; [apply layer_enabled_spec|reflexivity].
Qed.

Lemma layers_block_describes_lot_layers_witness :
  let doc :=
    build_lots_json sample_env
      [mkFeature "Linea" "" [] (Some "electricity") (Some "distribution_line");
       mkFeature "Otro" "" [] (Some "parcels") None]
      "x.kmz" None in
  layers doc =
    [("electricity",
       mkMeta false
         [("fill", StyleStr "rgba(255, 223, 127, 0.9)");
          ("stroke", StyleStr "rgba(0, 255, 85, 0.6)");
          ("strokeWidth", StyleNum (PyInt 2))]);
     ("parcels", mkMeta true [])]
  /\ (forall name,
        In name (map fst (layers doc)) <-> In name (map lot_layer (lots doc))).
Proof.
  intros doc. split; [vm_compute; reflexivity|].
  exact (proj1 (layers_block_describes_lot_layers sample_env _ "x.kmz" None
                  sample_env_ok)).
Defined.

(* ================================================================== *)
(** * Counts of the statistics *)

Lemma count_up_get (d : list (string * nat)) (k k' : string) :
  get_default (dict_get (count_up d k) k') 0%nat =
  (get_default (dict_get d k') 0 + if str_eqb k k' then 1 else 0)%nat.
Proof.
  unfold count_up. destruct (str_eqb k k') eqn:E.
  - apply str_eqb_eq in E. subst k'. rewrite dict_get_set_same. reflexivity.
  - apply str_eqb_neq in E. rewrite dict_get_set_other by assumption.
    simpl. lia.
Qed.

Lemma count_up_total (d : list (string * nat)) (k : string) :
  dict_total (count_up d k) = S (dict_total d).
Proof.
  unfold count_up, dict_total. induction d as [|[k' v'] d IH]; simpl.
  - reflexivity.
  - destruct (str_eqb k' k) eqn:E; simpl; [lia|].
    rewrite IH. lia.
Qed.

Lemma fold_count_up_get {A} (key : A -> string) (xs : list A)
  (d : list (string * nat)) (k : string) :
  get_default (dict_get (fold_left (fun d x => count_up d (key x)) xs d) k) 0%nat
  = (get_default (dict_get d k) 0
     + List.length (filter (fun x => str_eqb (key x) k) xs))%nat.
Proof.
  revert d. induction xs as [|x xs IH]; intros d; simpl; [lia|].
  rewrite IH, count_up_get. destruct (str_eqb (key x) k); simpl; lia.
Qed.

Lemma fold_count_up_total {A} (key : A -> string) (xs : list A)
  (d : list (string * nat)) :
  dict_total (fold_left (fun d x => count_up d (key x)) xs d)
  = (dict_total d + List.length xs)%nat.
Proof.
  revert d. induction xs as [|x xs IH]; intros d; simpl; [lia|].
  rewrite IH, count_up_total. lia.
Qed.

Lemma sum_lengths {A B} (f : A -> list B) (xs : list A) (n : nat) :
  fold_left Nat.add (map (fun x => List.length (f x)) xs) n
  = (n + List.length (flat_map f xs))%nat.
Proof.
  revert n. induction xs as [|x xs IH]; intros n; simpl; [lia|].
  rewrite IH, length_app. lia.
Qed.

(** The counts of [compute_stats] do not depend on the coordinates. *)
Lemma compute_stats_count_fields (doc : document) :
  num_lots (compute_stats doc) = List.length (lots doc) /\
  num_polygons (compute_stats doc) =
    fold_left Nat.add
      (map (fun l => List.length (lot_polygons l)) (lots doc)) 0%nat /\
  by_layer (compute_stats doc) =
    fold_left (fun d l => count_up d (lot_layer l)) (lots doc) [] /\
  by_geometry (compute_stats doc) =
    fold_left (fun d g => count_up d (geometry_kind g))
      (all_geometries (lots doc))
      [("Polygon", 0%nat); ("LineString", 0%nat); ("Point", 0%nat)].
Proof.
  unfold compute_stats.
  destruct (collect_coords (lots doc)) as [[|la las] [|lo los]]; cbn; auto.
Qed.

(** X16: the counts of the statistics: [num_polygons] is the number of
    geometries of all records; [by_layer] gives for each layer the number
    of its records and [by_geometry] for each geometry type the number of
    geometries of that type (0 for a name that is not a key); the values
    of [by_layer] add up to [num_lots] and those of [by_geometry] to
    [num_polygons]. *)
Theorem compute_stats_counts (doc : document) :
  let st := compute_stats doc in
  num_lots st = List.length (lots doc)
  /\ num_polygons st = List.length (all_geometries (lots doc))
  /\ (forall layer,
        get_default (dict_get (by_layer st) layer) 0%nat
        = count_lots layer (lots doc))
  /\ (forall kind,
        get_default (dict_get (by_geometry st) kind) 0%nat
        = count_kind kind (all_geometries (lots doc)))
  /\ dict_total (by_layer st) = num_lots st
  /\ dict_total (by_geometry st) = num_polygons st.
Proof.
  cbv zeta.
  destruct (compute_stats_count_fields doc) as [H1 [H2 [H3 H4]]].
  rewrite H1, H2, H3, H4. rewrite sum_lengths. fold (all_geometries (lots doc)).
  split; [reflexivity|]. split; [reflexivity|]. split; [|split; [|split]].
  - intros layer. rewrite fold_count_up_get. reflexivity.
  - intros kind. rewrite fold_count_up_get. unfold count_kind.
    replace (get_default
               (dict_get [("Polygon", 0%nat); ("LineString", 0%nat); ("Point", 0%nat)]
                  kind) 0%nat) with 0%nat; [reflexivity|].
    cbn [dict_get].
    destruct (str_eqb "Polygon" kind), (str_eqb "LineString" kind),
      (str_eqb "Point" kind); reflexivity.
  - rewrite fold_count_up_total. reflexivity.
  - rewrite fold_count_up_total. reflexivity.
Qed.

(* ================================================================== *)
(** * The bounding box *)

Section FloatOrder.
Local Open Scope Q_scope.

Lemma Qcompare_same (q : Q) : (q ?= q) = Eq.
Proof. apply Qeq_alt. reflexivity. Qed.

Lemma flt_irreflexive (x : float) : flt x x = false.
Proof.
  destruct x as [|[]|s|q]; cbn [flt F2Q andb negb]; try reflexivity;
    now rewrite Qcompare_same.
Qed.

Lemma lt_bool_trans (a b c : Q) :
  match a ?= b with Lt => true | _ => false end = true ->
  match b ?= c with Lt => true | _ => false end = true ->
  match a ?= c with Lt => true | _ => false end = true.
Proof.
  destruct (a ?= b) eqn:E1; try discriminate.
  destruct (b ?= c) eqn:E2; try discriminate. intros _ _.
  apply Qlt_alt in E1, E2.
  assert (H : a < c) by (eapply Qlt_trans; eauto).
  now rewrite (proj1 (Qlt_alt a c) H).
Qed.

(** [<] on floats is transitive. *)
Lemma flt_trans (x y z : float) :
  flt x y = true -> flt y z = true -> flt x z = true.
Proof.
  destruct x as [|[]|sx|qx], y as [|[]|sy|qy], z as [|[]|sz|qz];
    cbn [flt F2Q andb negb]; intros H1 H2;
    try discriminate H1; try discriminate H2; try reflexivity;
    eapply lt_bool_trans; eassumption.
Qed.

(** On floats that are not NaN, [<=] holds when the converse [<] does
    not. *)
Lemma fle_of_not_flt (x y : float) :
  not_nan x = true -> not_nan y = true -> flt y x = false -> fle x y = true.
Proof.
  destruct x as [|[]|sx|qx], y as [|[]|sy|qy];
    cbn [not_nan flt fle F2Q andb negb orb]; intros Hx Hy H;
    try discriminate Hx; try discriminate Hy; try discriminate H;
    try reflexivity;
    match goal with
    | |- context [(?a ?= ?b)] =>
        rewrite <- (Qcompare_antisym b a) in *; destruct (b ?= a)
    end; try discriminate H; reflexivity.
Qed.

End FloatOrder.

Lemma py_min_fold (xs seen : list float) (m : float) :
  In m seen -> (forall y, In y seen -> flt y m = false) ->
  In (fold_left (fun m y => if flt y m then y else m) xs m) (seen ++ xs) /\
  (forall y, In y (seen ++ xs) ->
     flt y (fold_left (fun m y => if flt y m then y else m) xs m) = false).
Proof.
  revert seen m. induction xs as [|z xs IH]; intros seen m Hm Hle.
  - simpl. rewrite app_nil_r. auto.
  - cbn [fold_left].
    replace (seen ++ z :: xs)%list with ((seen ++ [z]) ++ xs)%list
      by (now rewrite <- app_assoc).
    apply IH.
    + apply in_or_app. destruct (flt z m); simpl; auto.
    + intros y Hy.
      destruct (flt z m) eqn:E; apply in_app_or in Hy as [Hy|[<-|[]]]; auto.
      * destruct (flt y z) eqn:Eyz; [|reflexivity].
        rewrite <- (Hle y Hy). symmetry. now apply (flt_trans y z m).
      * apply flt_irreflexive.
Qed.

Lemma py_max_fold (xs seen : list float) (m : float) :
  In m seen -> (forall y, In y seen -> flt m y = false) ->
  In (fold_left (fun m y => if fgt y m then y else m) xs m) (seen ++ xs) /\
  (forall y, In y (seen ++ xs) ->
     flt (fold_left (fun m y => if fgt y m then y else m) xs m) y = false).
Proof.
  unfold fgt.
  revert seen m. induction xs as [|z xs IH]; intros seen m Hm Hle.
  - simpl. rewrite app_nil_r. auto.
  - cbn [fold_left].
    replace (seen ++ z :: xs)%list with ((seen ++ [z]) ++ xs)%list
      by (now rewrite <- app_assoc).
    apply IH.
    + apply in_or_app. destruct (flt m z); simpl; auto.
    + intros y Hy.
      destruct (flt m z) eqn:E; apply in_app_or in Hy as [Hy|[<-|[]]]; auto.
      * destruct (flt z y) eqn:Ezy; [|reflexivity].
        rewrite <- (Hle y Hy). symmetry. now apply (flt_trans m z y).
      * apply flt_irreflexive.
Qed.

(** [min] returns an element that no element is below, and [max] one
    that is below no element. *)
Lemma py_min_spec (x : float) (xs : list float) :
  In (py_min x xs) (x :: xs) /\
  (forall y, In y (x :: xs) -> flt y (py_min x xs) = false).
Proof.
  apply (py_min_fold xs [x] x).
  - simpl. auto.
  - intros y [<-|[]]. apply flt_irreflexive.
Qed.

Lemma py_max_spec (x : float) (xs : list float) :
  In (py_max x xs) (x :: xs) /\
  (forall y, In y (x :: xs) -> flt (py_max x xs) y = false).
Proof.
  apply (py_max_fold xs [x] x).
  - simpl. auto.
  - intros y [<-|[]]. apply flt_irreflexive.
Qed.

Lemma collect_coord_pairs (cs : list coord) (lats lons : list float) :
  Forall (fun c => List.length c = 2%nat) cs ->
  fold_left collect_coord cs (lats, lons) =
  ((lats ++ map lat_of cs)%list, (lons ++ map lon_of cs)%list).
Proof.
  intros H. revert lats lons.
  induction H as [|c cs Hc Hcs IH]; intros lats lons; simpl.
  - now rewrite !app_nil_r.
  - rewrite Hc. simpl. rewrite IH, <- !app_assoc. reflexivity.
Qed.

(** The coordinates of a document of the pipeline are pairs. *)
Lemma run_coordinates_pairs (lib : library) (env : environment)
  (z : zip_archive) (a : arguments) (doc : document) :
  run lib env z a = Ok doc ->
  Forall (fun c => List.length c = 2%nat) (all_coordinates doc).
Proof.
  intros H. apply run_lots_ok in H.
  unfold all_coordinates, all_geometries.
  apply Forall_forall. intros c Hc.
  apply in_flat_map in Hc as [g [Hg Hc]].
  apply in_flat_map in Hg as [l [Hl Hg]].
  rewrite Forall_forall in H. destruct (H l Hl) as [_ Hgs].
  rewrite Forall_forall in Hgs. destruct (Hgs g Hg) as [_ Hcs].
  rewrite Forall_forall in Hcs. auto.
Qed.

Lemma pair_members (c : coord) :
  List.length c = 2%nat -> In (lat_of c) c /\ In (lon_of c) c.
Proof.
  destruct c as [|x [|y [|w c]]]; try discriminate. simpl. auto.
Qed.

(** X17: for a document of the pipeline that has a coordinate and none
    with a NaN, the statistics give a latitude range and a longitude
    range whose ends are coordinates of the document and contain every
    coordinate: lower end <= coordinate <= upper end; the ranges in
    meters are the transforms of these ends. *)
Theorem bounding_box_contains_every_coordinate (lib : library)
  (env : environment) (z : zip_archive) (a : arguments) (doc : document) :
  run lib env z a = Ok doc ->
  all_coordinates doc <> [] ->
  Forall (Forall (fun x => not_nan x = true)) (all_coordinates doc) ->
  exists lat_lo lat_hi lon_lo lon_hi,
    lat_range (compute_stats doc) = (PyFloat lat_lo, PyFloat lat_hi) /\
    lon_range (compute_stats doc) = (PyFloat lon_lo, PyFloat lon_hi) /\
    y_range_m (compute_stats doc) =
      (PyFloat (to_local_y lat_lo), PyFloat (to_local_y lat_hi)) /\
    x_range_m (compute_stats doc) =
      (PyFloat (to_local_x lon_lo), PyFloat (to_local_x lon_hi)) /\
    In lat_lo (map lat_of (all_coordinates doc)) /\
    In lat_hi (map lat_of (all_coordinates doc)) /\
    In lon_lo (map lon_of (all_coordinates doc)) /\
    In lon_hi (map lon_of (all_coordinates doc)) /\
    (forall c, In c (all_coordinates doc) ->
       fle lat_lo (lat_of c) = true /\ fle (lat_of c) lat_hi = true /\
       fle lon_lo (lon_of c) = true /\ fle (lon_of c) lon_hi = true).
Proof.
  intros Hrun Hne Hnan. pose proof (run_coordinates_pairs _ _ _ _ _ Hrun) as Hp.
  assert (Hc : collect_coords (lots doc) =
               (map lat_of (all_coordinates doc),
                map lon_of (all_coordinates doc))).
  { unfold collect_coords. fold (all_coordinates doc).
    now rewrite collect_coord_pairs. }
  assert (Hlat : forall x, In x (map lat_of (all_coordinates doc)) ->
                           not_nan x = true).
  { intros x Hx. apply in_map_iff in Hx as [c [<- Hin]].
    rewrite Forall_forall in Hnan, Hp. specialize (Hnan c Hin).
    rewrite Forall_forall in Hnan. apply Hnan, pair_members. auto. }
  assert (Hlon : forall x, In x (map lon_of (all_coordinates doc)) ->
                           not_nan x = true).
  { intros x Hx. apply in_map_iff in Hx as [c [<- Hin]].
    rewrite Forall_forall in Hnan, Hp. specialize (Hnan c Hin).
    rewrite Forall_forall in Hnan. apply Hnan, pair_members. auto. }
  unfold compute_stats. rewrite Hc.
  destruct (all_coordinates doc) as [|c0 cs]; [contradiction|].
  cbn [map] in *.
  destruct (py_min_spec (lat_of c0) (map lat_of cs)) as [A1 A2].
  destruct (py_max_spec (lat_of c0) (map lat_of cs)) as [B1 B2].
  destruct (py_min_spec (lon_of c0) (map lon_of cs)) as [C1 C2].
  destruct (py_max_spec (lon_of c0) (map lon_of cs)) as [D1 D2].
  exists (py_min (lat_of c0) (map lat_of cs)), (py_max (lat_of c0) (map lat_of cs)),
    (py_min (lon_of c0) (map lon_of cs)), (py_max (lon_of c0) (map lon_of cs)).
  cbn [lat_range lon_range y_range_m x_range_m].
  repeat (split; [first [reflexivity|assumption]|]).
  intros c Hin.
  assert (H1 : In (lat_of c) (lat_of c0 :: map lat_of cs))
    by (change (In (lat_of c) (map lat_of (c0 :: cs))); now apply in_map).
  assert (H2 : In (lon_of c) (lon_of c0 :: map lon_of cs))
    by (change (In (lon_of c) (map lon_of (c0 :: cs))); now apply in_map).
  repeat split; apply fle_of_not_flt; auto.
Qed.

Lemma bounding_box_contains_every_coordinate_witness :
  exists doc lat_lo lat_hi lon_lo lon_hi,
    run sample_library sample_env sample_zip sample_arguments = Ok doc /\
    lat_range (compute_stats doc) = (PyFloat lat_lo, PyFloat lat_hi) /\
    lon_range (compute_stats doc) = (PyFloat lon_lo, PyFloat lon_hi) /\
    (forall c, In c (all_coordinates doc) ->
       fle lat_lo (lat_of c) = true /\ fle (lat_of c) lat_hi = true /\
       fle lon_lo (lon_of c) = true /\ fle (lon_of c) lon_hi = true).
Proof.
  destruct (run sample_library sample_env sample_zip sample_arguments)
    as [doc|] eqn:E; [|vm_compute in E; discriminate].
  assert (Hne : all_coordinates doc <> []).
  { vm_compute in E. inversion E. discriminate. }
  assert (Hnan : Forall (Forall (fun x => not_nan x = true))
                   (all_coordinates doc)).
  { vm_compute in E. inversion E. repeat constructor. }
  destruct (bounding_box_contains_every_coordinate sample_library sample_env
              sample_zip sample_arguments doc E Hne Hnan)
    as [lat_lo [lat_hi [lon_lo [lon_hi [H1 [H2 [_ [_ [_ [_ [_ [_ H]]]]]]]]]]]].
  exists doc, lat_lo, lat_hi, lon_lo, lon_hi. auto.
Defined.

(* ================================================================== *)
(** * The two extraction modes *)

Lemma iter_all_self (e : element) : In e (iter_all e).
Proof. destruct e. simpl. auto. Qed.

(** The children of a descendant are descendants. *)
Lemma iter_all_children (root : element) :
  forall e c, In e (iter_all root) -> In c (children e) -> In c (iter_all root).
Proof.
  induction root as [t a x cs IH] using element_induction.
  intros e c He Hc. simpl in He. destruct He as [<-|He].
  - simpl in Hc. simpl. right. apply in_flat_map. exists c.
    split; [exact Hc|apply iter_all_self].
  - simpl. right. apply in_flat_map in He as [d [Hd He]].
    apply in_flat_map. exists d. split; [exact Hd|].
    rewrite Forall_forall in IH. now apply (IH d Hd e c).
Qed.

(** The placemarks of a folder of the document are among those the
    legacy mode visits. *)
Lemma folder_placemarks_visited (root folder pm : element) (folder_id : string) :
  find_folder root folder_id = Some folder ->
  In pm (findall folder (kml "Placemark")) ->
  In pm (iter root (kml "Placemark")).
Proof.
  intros Hf Hpm. unfold find_folder in Hf. apply find_some in Hf as [Hf _].
  unfold iter in *. apply filter_In in Hf as [Hf _].
  unfold findall in Hpm. apply filter_In in Hpm as [Hpm Ht].
  apply filter_In. split; [|exact Ht]. now apply (iter_all_children root folder).
Qed.

Lemma for_each_invariant_in {A S} (P : S -> Prop) (xs : list A) body :
  (forall s x s', In x xs -> P s -> body s x = Ok s' -> P s') ->
  forall s s', P s -> for_each xs s body = Ok s' -> P s'.
Proof.
  induction xs as [|x xs IH]; simpl; intros Hstep s s' Hs Hrun.
  - now inversion Hrun; subst.
  - destruct (body s x) as [s1|e] eqn:E; simpl in Hrun; [|discriminate].
    eapply IH; [| |exact Hrun].
    + intros s0 x0 s0' Hin. apply Hstep. auto.
    + eapply Hstep; eauto.
Qed.

(** Where a feature of [extract_layer] comes from. *)
Lemma extract_layer_source (root : element) (folder_id : string)
  (config : layer_config) (fs : list feature) :
  extract_layer root folder_id config = Ok fs ->
  Forall (fun f =>
            exists folder pm,
              find_folder root folder_id = Some folder /\
              In pm (findall folder (kml "Placemark")) /\
              parse_geometry (cfg_geometry config) pm = Ok (f_polygons f) /\
              f_name f = get_text pm (kml "name") /\
              f_description f = get_text pm (kml "description")) fs.
Proof.
  unfold extract_layer.
  destruct (find_folder root folder_id) as [folder|]; [|inversion 1; constructor].
  apply for_each_invariant_in; [|constructor].
  intros s pm s' Hin Hs. unfold extract_placemark.
  destruct (match cfg_filter config with Some _ => _ | None => _ end);
    [now inversion 1; subst|].
  destruct (parse_geometry _ pm) as [gs|] eqn:Eg; cbn [bind]; [|discriminate].
  destruct gs as [|g gs]; inversion 1; subst; auto.
  apply Forall_snoc; auto. exists folder, pm. auto.
Qed.

(** The legacy mode parses the polygons of every placemark, and keeps
    a feature for each placemark that has one. *)
Lemma legacy_loop (pms : list element) (acc ls : list feature) :
  for_each pms acc legacy_placemark = Ok ls ->
  incl acc ls /\
  (forall pm, In pm pms ->
     exists gs, parse_polygon pm = Ok gs /\
                (gs <> [] -> In (legacy_feature pm gs) ls)).
Proof.
  revert acc. induction pms as [|p pms IH]; intros acc; simpl.
  - inversion 1; subst. split; [apply incl_refl|intros pm []].
  - unfold legacy_placemark at 1.
    destruct (parse_polygon p) as [gs|] eqn:E; cbn [bind]; [|discriminate].
    intros H.
    assert (Hacc : exists acc',
               for_each pms acc' legacy_placemark = Ok ls /\ incl acc acc' /\
               (gs <> [] -> In (legacy_feature p gs) acc')).
    { destruct gs as [|g gs].
      - exists acc. split; [exact H|]. split; [apply incl_refl|tauto].
      - eexists. split; [exact H|]. split.
        + apply incl_appl, incl_refl.
        + intros _. apply in_or_app. right. simpl. auto. }
    destruct Hacc as [acc' [Hrun [Hincl Hp]]].
    destruct (IH acc' Hrun) as [IH1 IH2]. split.
    + eapply incl_tran; eauto.
    + intros pm [<-|Hin]; [|now apply IH2].
      exists gs. split; [exact E|]. intros Hne. apply IH1. auto.
Qed.

(** X20: the legacy mode finds what the layer mode finds in a polygon
    layer: when both modes succeed on a document, every feature of the
    layer mode whose geometries are polygons is matched by a feature of
    the legacy mode with the same name, description and polygons (and
    without layer or type). *)
Theorem legacy_mode_finds_layer_polygons (root : element)
  (layer_filter : option (list string)) (fs ls : list feature) :
  parse_kml_by_layers root layer_filter = Ok fs ->
  parse_kml_placemarks root = Ok ls ->
  forall f,
    In f fs ->
    Forall (fun g => geometry_kind g = "Polygon") (f_polygons f) ->
    In (mkFeature (f_name f) (f_description f) (f_polygons f) None None) ls.
Proof.
  intros Hfs Hls f Hf Hpoly.
  destruct (parse_kml_by_layers_parts root layer_filter fs Hfs) as [_ Hsrc].
  destruct (Hsrc f Hf) as [folder_id [config [features [_ [_ [He Hin]]]]]].
  pose proof (extract_layer_source _ _ _ _ He) as Hs.
  pose proof (extract_layer_ok _ _ _ _ He) as Hok.
  rewrite Forall_forall in Hs, Hok.
  destruct (Hs f Hin) as [folder [pm [Hfo [Hpm [Hg [Hn Hd]]]]]].
  destruct (Hok f Hin) as [[Hne _] _].
  assert (Hkind : cfg_geometry config = "Polygon").
  { apply parse_geometry_kinds in Hg as [Hk _].
    destruct (f_polygons f) as [|g gs]; [contradiction|].
    inversion Hk; subst. inversion Hpoly; subst. congruence. }
  unfold parse_geometry in Hg. rewrite Hkind in Hg. cbn in Hg.
  unfold parse_kml_placemarks in Hls. apply legacy_loop in Hls as [_ Hall].
  destruct (Hall pm (folder_placemarks_visited _ _ _ _ Hfo Hpm)) as [gs [Hgs Hkeep]].
  rewrite Hg in Hgs. inversion Hgs; subst gs.
  rewrite Hn, Hd. apply Hkeep. exact Hne.
Qed.

Lemma legacy_mode_finds_layer_polygons_witness :
  Forall (fun f =>
            In (mkFeature (f_name f) (f_description f) (f_polygons f) None None)
              (match parse_kml_placemarks sample_root with
               | Ok ls => ls
               | Raise _ => []
               end)) sample_features.
Proof.
  assert (Hfs : parse_kml_by_layers sample_root None = Ok sample_features)
    by (vm_compute; reflexivity).
  destruct (parse_kml_placemarks sample_root) as [ls|] eqn:Els;
    [|vm_compute in Els; discriminate].
  apply Forall_forall. intros f Hf.
  apply (legacy_mode_finds_layer_polygons sample_root None sample_features ls
           Hfs Els f Hf).
  vm_compute in Hf.
  destruct Hf as [<-|[<-|[<-|[]]]]; repeat constructor.
Defined.

(* ================================================================== *)
(** * Identifiers of other layers *)

(** X21: the ids tell layers apart by their first four characters only:
    for two features of different layers whose names agree on them (and
    are not empty), [build_lots_json] gives both the same id. *)
Theorem lot_ids_collide_on_shared_prefix (env : environment) (f g : feature)
  (source : string) (layer_filter : option (list string)) :
  layer_of f <> layer_of g ->
  layer_of f <> "" -> layer_of g <> "" ->
  take 4 (layer_of f) = take 4 (layer_of g) ->
  map lot_id (lots (build_lots_json env [f; g] source layer_filter)) =
    [take 4 (layer_of f) ++ "_001"; take 4 (layer_of f) ++ "_001"].
Proof.
  intros Hne Hf Hg Hp. cbn [lots build_lots_json].
  rewrite assemble_lots_spec. cbn [lots_from map lot_id].
  unfold expected_id. rewrite app_nil_l.
  rewrite (count_layer_other f (layer_of g)) by assumption.
  unfold id_prefix.
  destruct (layer_of f) eqn:Ef; [contradiction|].
  destruct (layer_of g) eqn:Eg; [contradiction|].
  cbn [is_empty count_layer filter List.length]. rewrite <- Hp. reflexivity.
Qed.

Lemma lot_ids_collide_on_shared_prefix_witness :
  map lot_id
    (lots (build_lots_json sample_env
             [mkFeature "A" "" [] (Some "phases") None;
              mkFeature "B" "" [] (Some "phasing") None] "x.kmz" None))
  = ["phas_001"; "phas_001"].
Proof.
  apply (lot_ids_collide_on_shared_prefix sample_env
           (mkFeature "A" "" [] (Some "phases") None)
           (mkFeature "B" "" [] (Some "phasing") None) "x.kmz" None);
    [discriminate|discriminate|discriminate|reflexivity].
Defined.

(* ================================================================== *)
(** * Coordinates that are not numbers *)

(** The exception of a loop is that of one of its steps. *)
Lemma for_each_raise {A S} (xs : list A) (s : S) body (e : exn) :
  for_each xs s body = Raise e ->
  exists s' x, In x xs /\ body s' x = Raise e.
Proof.
  revert s. induction xs as [|x xs IH]; intros s; [discriminate|].
  rewrite for_each_cons. destruct (body s x) as [s1|e1] eqn:E.
  - rewrite bind_ok. intros H. destruct (IH s1 H) as [s' [x' [Hin Hx]]].
    exists s', x'. simpl. auto.
  - rewrite bind_raise. inversion 1; subst. exists s, x. simpl. auto.
Qed.

(** A loop with a step that raises whatever the state raises, with the
    exception of this step or of an earlier one. *)
Lemma for_each_fails {A S} (P : exn -> Prop) (xs : list A) body (x : A) :
  (forall (s : S) y e, In y xs -> body s y = Raise e -> P e) ->
  In x xs ->
  (forall s, exists e, body s x = Raise e) ->
  forall s, exists e, P e /\ for_each xs s body = Raise e.
Proof.
  induction xs as [|y xs IH]; intros HP Hin Hx s; [destruct Hin|].
  rewrite for_each_cons. destruct (body s y) as [s1|e1] eqn:E.
  - rewrite bind_ok. destruct Hin as [->|Hin].
    + destruct (Hx s) as [e He]. congruence.
    + apply IH; auto. intros s0 y0 e0 Hy. apply HP. simpl. auto.
  - rewrite bind_raise. exists e1. split; [|reflexivity].
    apply (HP s y). simpl; auto. exact E.
Qed.

Lemma traverse_raise {A B} (f : A -> result B) (xs : list A) (e : exn) :
  traverse f xs = Raise e -> exists x, In x xs /\ f x = Raise e.
Proof.
  induction xs as [|x xs IH]; [discriminate|].
  rewrite traverse_cons. destruct (f x) as [y|e1] eqn:E.
  - rewrite bind_ok. destruct (traverse f xs) as [ys|e2].
    + discriminate.
    + rewrite bind_raise. inversion 1; subst.
      destruct (IH eq_refl) as [x' [Hin Hx]]. exists x'. simpl. auto.
  - rewrite bind_raise. inversion 1; subst. exists x. simpl. auto.
Qed.

Lemma traverse_fails {A B} (f : A -> result B) (xs : list A) (x : A) (e : exn) :
  In x xs -> f x = Raise e -> exists e', traverse f xs = Raise e'.
Proof.
  induction xs as [|y xs IH]; intros Hin Hx; [destruct Hin|].
  rewrite traverse_cons. destruct (f y) as [v|e1] eqn:E.
  - rewrite bind_ok. destruct Hin as [->|Hin]; [congruence|].
    destruct (IH Hin Hx) as [e' ->]. rewrite bind_raise. eauto.
  - rewrite bind_raise. eauto.
Qed.

(** What [parse_point] raises is the [ValueError] of [float] on the
    first or the second field of the token. *)
Lemma parse_point_raise (coords : list coord) (t : string) (e : exn) :
  parse_point coords t = Raise e ->
  has_two_fields t = true /\
  exists literal,
    (literal = nth 0 (split_on "," t) "" \/
     literal = nth 1 (split_on "," t) "") /\
    float_of_string literal = None /\ e = FloatValueError literal.
Proof.
  unfold parse_point, has_two_fields. cbv zeta.
  destruct (2 <=? List.length (split_on "," t))%nat; [|discriminate].
  unfold py_float.
  destruct (float_of_string (nth 0 (split_on "," t) "")) as [lon|] eqn:E0.
  - rewrite bind_ok.
    destruct (float_of_string (nth 1 (split_on "," t) "")) as [lat|] eqn:E1.
    + discriminate.
    + rewrite bind_raise. inversion 1; subst. split; [reflexivity|].
      eexists. split; [right; reflexivity|]. auto.
  - rewrite bind_raise. inversion 1; subst. split; [reflexivity|].
    eexists. split; [left; reflexivity|]. auto.
Qed.

Lemma parse_coordinates_raise (s : string) (e : exn) :
  parse_coordinates s = Raise e ->
  exists t literal,
    In t (split_ws s) /\ has_two_fields t = true /\
    (literal = nth 0 (split_on "," t) "" \/
     literal = nth 1 (split_on "," t) "") /\
    float_of_string literal = None /\ e = FloatValueError literal.
Proof.
  unfold parse_coordinates. rewrite split_ws_strip. intros H.
  apply for_each_raise in H as [acc [t [Hin Ht]]].
  apply parse_point_raise in Ht as [H2 [literal [Hl [Hf He]]]].
  exists t, literal. auto.
Qed.

Lemma parse_coordinates_float_error (s : string) (e : exn) :
  parse_coordinates s = Raise e -> is_float_error e.
Proof.
  intros H. apply parse_coordinates_raise in H as [t [literal [_ [_ [_ [Hf He]]]]]].
  exists literal. auto.
Qed.

(** Every geometry parser goes through the coordinate texts of the
    placemark and ends with the first exception. *)
Lemma parse_geometry_texts (geometry_type : string) (placemark : element) :
  exists build,
    parse_geometry geometry_type placemark =
    parsed <- traverse parse_coordinates
                (geometry_texts geometry_type placemark) ;;
    Ok (build parsed).
Proof.
  unfold parse_geometry, geometry_texts.
  destruct (str_eqb geometry_type "Polygon").
  { eexists. apply parse_polygon_filter. }
  destruct (str_eqb geometry_type "LineString").
  { eexists. apply parse_linestring_filter. }
  destruct (str_eqb geometry_type "Point").
  { eexists. apply parse_point_geometry_firsts. }
  exists (fun _ => []). reflexivity.
Qed.

Lemma parse_geometry_raise (geometry_type : string) (placemark : element)
  (e : exn) :
  parse_geometry geometry_type placemark = Raise e -> is_float_error e.
Proof.
  destruct (parse_geometry_texts geometry_type placemark) as [build ->].
  destruct (traverse parse_coordinates _) as [parsed|e1] eqn:E;
    [discriminate|].
  rewrite bind_raise. inversion 1; subst.
  apply traverse_raise in E as [t [_ Ht]].
  now apply (parse_coordinates_float_error t).
Qed.

Lemma parse_geometry_fails (geometry_type : string) (placemark : element)
  (s : string) (e : exn) :
  In s (geometry_texts geometry_type placemark) ->
  parse_coordinates s = Raise e ->
  exists e', parse_geometry geometry_type placemark = Raise e'.
Proof.
  intros Hin Hs.
  destruct (parse_geometry_texts geometry_type placemark) as [build ->].
  destruct (traverse_fails _ _ _ _ Hin Hs) as [e' ->].
  rewrite bind_raise. eauto.
Qed.

Lemma extract_placemark_raise (config : layer_config) features placemark e :
  extract_placemark config features placemark = Raise e -> is_float_error e.
Proof.
  unfold extract_placemark. cbv zeta.
  destruct (match cfg_filter config with Some _ => _ | None => _ end);
    [discriminate|].
  destruct (parse_geometry _ placemark) as [gs|e1] eqn:E.
  - rewrite bind_ok. destruct gs; discriminate.
  - rewrite bind_raise. inversion 1; subst.
    now apply parse_geometry_raise in E.
Qed.

Lemma extract_placemark_fails (config : layer_config) features placemark s e :
  passes_filter config placemark = true ->
  In s (geometry_texts (cfg_geometry config) placemark) ->
  parse_coordinates s = Raise e ->
  exists e', extract_placemark config features placemark = Raise e'.
Proof.
  intros Hp Hin Hs. unfold extract_placemark. cbv zeta.
  unfold passes_filter in Hp.
  destruct (parse_geometry_fails _ _ _ _ Hin Hs) as [e' He'].
  exists e'.
  destruct (cfg_filter config) as [name_filter|];
    [rewrite Hp; cbn [negb]|]; now rewrite He', bind_raise.
Qed.

Lemma legacy_placemark_raise (lots : list feature) placemark e :
  legacy_placemark lots placemark = Raise e -> is_float_error e.
Proof.
  unfold legacy_placemark. cbv zeta.
  destruct (parse_polygon placemark) as [gs|e1] eqn:E.
  - rewrite bind_ok. destruct gs; discriminate.
  - rewrite bind_raise. inversion 1; subst.
    apply (parse_geometry_raise "Polygon" placemark). exact E.
Qed.

Lemma legacy_placemark_fails (lots : list feature) placemark s e :
  In s (ring_texts placemark) ->
  parse_coordinates s = Raise e ->
  exists e', legacy_placemark lots placemark = Raise e'.
Proof.
  intros Hin Hs. unfold legacy_placemark. cbv zeta.
  destruct (parse_geometry_fails "Polygon" placemark s e Hin Hs) as [e' He'].
  exists e'. change (parse_geometry "Polygon" placemark)
    with (parse_polygon placemark) in He'.
  now rewrite He', bind_raise.
Qed.

Lemma extract_layer_raise (root : element) folder_id config e :
  extract_layer root folder_id config = Raise e -> is_float_error e.
Proof.
  unfold extract_layer. destruct (find_folder root folder_id); [|discriminate].
  intros H. apply for_each_raise in H as [fs [pm [_ H]]].
  now apply extract_placemark_raise in H.
Qed.

(** The extraction fails when it reads a coordinate text that
    [parse_coordinates] refuses. *)
Lemma extract_features_fails (root : element) (a : arguments) (s : string)
  (e : exn) :
  reads_text root a s ->
  parse_coordinates s = Raise e ->
  exists e', is_float_error e' /\ extract_features root a = Raise e'.
Proof.
  unfold reads_text, extract_features. intros Hr Hs.
  destruct (arg_legacy a).
  - destruct Hr as [pm [Hpm Hin]]. unfold parse_kml_placemarks.
    apply (for_each_fails is_float_error) with (x := pm); [|exact Hpm|].
    + intros fs y e0 _. apply legacy_placemark_raise.
    + intros fs. now apply (legacy_placemark_fails fs pm s e).
  - destruct Hr as [folder_id [config [folder [pm [Hc [Hsel [Hf [Hpm [Hp Hin]]]]]]]]].
    unfold parse_kml_by_layers.
    apply (for_each_fails is_float_error) with (x := (folder_id, config));
      [|exact Hc|].
    + intros fs [folder_id' config'] e0 _.
      destruct (match filter_active (layer_filter_of a) with
                | Some _ => _ | None => _ end); [discriminate|].
      destruct (extract_layer root folder_id' config') as [l|e1] eqn:E.
      * discriminate.
      * rewrite bind_raise. inversion 1; subst.
        now apply extract_layer_raise in E.
    + intros fs. unfold layer_selected in Hsel. cbn [snd] in Hsel.
      assert (Hl : exists e', extract_layer root folder_id config = Raise e').
      { unfold extract_layer. rewrite Hf.
        destruct (for_each_fails is_float_error
                    (findall folder (kml "Placemark"))
                    (extract_placemark config) pm) with (s := @nil feature)
          as [e' [_ He']]; eauto.
        - intros fs0 y e0 _. apply extract_placemark_raise.
        - intros fs0. now apply (extract_placemark_fails config fs0 pm s e). }
      destruct Hl as [e' He']. exists e'.
      destruct (filter_active (layer_filter_of a)) as [names|];
        [rewrite Hsel; cbn [negb]|]; now rewrite He', bind_raise.
Qed.

(** C3 (as amended): [parse_coordinates] skips exactly the tokens with
    fewer than two comma-separated fields; it returns a list if and only if
    the first two fields of every other token are float literals, and then
    the list holds one swapped pair for each of these tokens, in order.
    Otherwise it raises the [ValueError] of [float] on the first or second
    field of a token with two fields or more; the exception fails the
    enclosing feature, in both extraction modes, and every run that reads
    the text. *)
Theorem parse_coordinates_skips_short_tokens (s : string) :
  parse_coordinates s =
    for_each (filter has_two_fields (split_ws s)) [] parse_point
  /\ ((exists coords, parse_coordinates s = Ok coords) <->
      (forall t, In t (split_ws s) -> has_two_fields t = true ->
         float_of_string (nth 0 (split_on "," t) "") <> None /\
         float_of_string (nth 1 (split_on "," t) "") <> None))
  /\ (forall coords, parse_coordinates s = Ok coords ->
        coords = flat_map token_coords (split_ws s))
  /\ (forall e, parse_coordinates s = Raise e ->
        (exists t literal,
           In t (split_ws s) /\ has_two_fields t = true /\
           (literal = nth 0 (split_on "," t) "" \/
            literal = nth 1 (split_on "," t) "") /\
           float_of_string literal = None /\ e = FloatValueError literal)
        /\ (forall config features placemark,
              passes_filter config placemark = true ->
              In s (geometry_texts (cfg_geometry config) placemark) ->
              exists literal,
                float_of_string literal = None /\
                extract_placemark config features placemark
                  = Raise (FloatValueError literal))
        /\ (forall lots placemark,
              In s (ring_texts placemark) ->
              exists literal,
                float_of_string literal = None /\
                legacy_placemark lots placemark
                  = Raise (FloatValueError literal))
        /\ (forall lib env z a kml_content root,
              extract_kml_from_kmz lib z = Ok kml_content ->
              fromstring lib kml_content = Some root ->
              reads_text root a s ->
              exists literal,
                float_of_string literal = None /\
                run lib env z a = Raise (FloatValueError literal))).
Proof.
  split; [|split; [|split]].
  - unfold parse_coordinates. rewrite split_ws_strip. apply parse_points_filter.
  - split.
    + intros [coords H] t Hin. apply parse_coordinates_spec in H as [H _].
      rewrite forallb_forall in H. apply token_ok_iff. auto.
    + intros H. exists (flat_map token_coords (split_ws s)).
      apply parse_coordinates_spec. split; [|reflexivity].
      apply forallb_forall. intros t Hin. apply token_ok_iff. auto.
  - intros coords H. now apply parse_coordinates_spec in H.
  - intros e He. split; [now apply parse_coordinates_raise|].
    split; [|split].
    + intros config features placemark Hp Hin.
      destruct (extract_placemark_fails config features placemark s e Hp Hin He)
        as [e' He'].
      destruct (extract_placemark_raise _ _ _ _ He') as [literal [-> Hf]].
      eauto.
    + intros lots placemark Hin.
      destruct (legacy_placemark_fails lots placemark s e Hin He) as [e' He'].
      destruct (legacy_placemark_raise _ _ _ He') as [literal [-> Hf]].
      eauto.
    + intros lib env z a kml_content root Hk Hroot Hr.
      destruct (extract_features_fails root a s e Hr He)
        as [e' [[literal [-> Hf]] He']].
      exists literal. split; [exact Hf|].
      unfold run. rewrite Hk, bind_ok, Hroot. cbn [or_raise].
      now rewrite bind_ok, He', bind_raise.
Qed.

(** The text [-98.20,26.07 -98.21,] in the ring of a placemark of the
    industrial parks fails the run, as it does in legacy mode. *)
Lemma parse_coordinates_skips_short_tokens_witness :
  let root :=
    Element (kml "Folder") [("id", "FeatureLayer27")] None
      [sample_placemark "Parque A" sample_square;
       sample_placemark "Roto" "-98.20,26.07 -98.21,"] in
  let lib := mkLibrary (fun data => Some data) (fun _ => Some root) in
  (exists literal,
     float_of_string literal = None /\
     run lib sample_env sample_zip sample_arguments
       = Raise (FloatValueError literal))
  /\ (exists literal,
        float_of_string literal = None /\
        run lib sample_env sample_zip (mkArgs "maps/FIELD.kmz" None true)
          = Raise (FloatValueError literal)).
Proof.
  intros root lib.
  assert (He : parse_coordinates "-98.20,26.07 -98.21,"
               = Raise (FloatValueError "")) by (vm_compute; reflexivity).
  pose proof (proj2 (proj2 (proj2
                (parse_coordinates_skips_short_tokens "-98.20,26.07 -98.21,")))
                _ He) as [_ [_ [_ Hrun]]].
  split.
  - apply (Hrun lib sample_env sample_zip sample_arguments "<kml/>" root);
      [reflexivity|reflexivity|].
    exists "FeatureLayer27",
      (mkConfig "industrialParks" "industrial_park" "Polygon" None true),
      root, (sample_placemark "Roto" "-98.20,26.07 -98.21,").
    vm_compute. repeat split; auto.
  - apply (Hrun lib sample_env sample_zip (mkArgs "maps/FIELD.kmz" None true)
             "<kml/>" root); [reflexivity|reflexivity|].
    exists (sample_placemark "Roto" "-98.20,26.07 -98.21,").
    vm_compute. repeat split; auto.
Defined.
